(** * gogit: a shallow embedding of [cmd/gogit.go]

    The program is a small version-control engine working on the files of
    the current directory and on a repository kept under [./.gat].  Its
    functions are translated one by one as computations of a state monad
    over a model of the file system; the Go standard library packages it
    calls (crypto/sha1, compress/lzw, encoding/gob, math/rand, time) are
    an interface, [Library], whose contracts are stated separately. *)

From Stdlib Require Import ZArith Lia Ascii.
From stdpp Require Import gmap strings list fin_maps.

(** ** Bytes and strings

    A Go [string] and a Go [[]byte] are both byte sequences; the
    conversions [string(b)] and [[]byte(s)] are kept explicit. *)

Abbreviation byte := Byte.byte.
Abbreviation bytes := (list Byte.byte).

Definition bytes_of_string (s : string) : bytes := String.list_byte_of_string s.
Definition string_of_bytes (b : bytes) : string := String.string_of_list_byte b.

(** [strings.Split(s, sep)] for a one-byte separator: [n] separators give
    [n+1] pieces, and the empty string gives one empty piece. *)
Fixpoint strings_Split (s : string) (sep : ascii) : list string :=
  match s with
  | EmptyString => [EmptyString]
  | String c s' =>
      if Ascii.eqb c sep then EmptyString :: strings_Split s' sep
      else match strings_Split s' sep with
           | [] => [String c EmptyString]
           | x :: xs => String c x :: xs
           end
  end.

(** [strings.Join(elems, sep)]. *)
Fixpoint strings_Join (elems : list string) (sep : string) : string :=
  match elems with
  | [] => ""
  | [x] => x
  | x :: xs => x +:+ sep +:+ strings_Join xs sep
  end.

(** [s[n:]] and [s[:n]]; Go panics when [n > len(s)], which the callers
    below check through [String.length]. *)
Fixpoint string_drop (n : nat) (s : string) : string :=
  match n, s with
  | O, _ => s
  | S n', EmptyString => EmptyString
  | S n', String _ s' => string_drop n' s'
  end.

Fixpoint string_take (n : nat) (s : string) : string :=
  match n, s with
  | O, _ => EmptyString
  | S n', EmptyString => EmptyString
  | S n', String c s' => String c (string_take n' s')
  end.

(** [encoding/hex.EncodeToString]: two lower-case digits per byte. *)
Definition hextable : list ascii := String.list_ascii_of_string "0123456789abcdef".

Definition hex_digit (n : N) : ascii := nth (N.to_nat n) hextable "0"%char.

Fixpoint hex_EncodeToString (src : bytes) : string :=
  match src with
  | [] => EmptyString
  | v :: rest =>
      let n := Byte.to_N v in
      String (hex_digit (N.shiftr n 4))
        (String (hex_digit (N.land n 15)) (hex_EncodeToString rest))
  end.

(** ** Paths

    A path denotes a list of names below the working directory, which is
    the root of the modelled file tree.  Resolution is lexical, as in
    [path/filepath.Clean]; there are no symbolic links.  What lies outside
    the working directory is not modelled: a path that is absolute or
    climbs above the working directory denotes nothing in the model, as
    the empty path does, and every operation on it fails.  The statements
    that name the error of a path ask the path to denote a location. *)

Abbreviation location := (list string).

Definition String_eqb (a b : string) : bool := bool_decide (a = b).

(** The lexical pass of [filepath.Clean] over the pieces between slashes;
    [acc] is the output so far, innermost name first. *)
Fixpoint clean_comps (rooted : bool) (acc : list string) (cs : list string)
  : list string :=
  match cs with
  | [] => rev acc
  | c :: cs' =>
      if String_eqb c "" || String_eqb c "." then clean_comps rooted acc cs'
      else if String_eqb c ".." then
        match acc with
        | a :: acc' =>
            if String_eqb a ".." then clean_comps rooted (c :: acc) cs'
            else clean_comps rooted acc' cs'
        | [] =>
            if rooted then clean_comps rooted [] cs'
            else clean_comps rooted [c] cs'
        end
      else clean_comps rooted (c :: acc) cs'
  end.

Definition is_rooted (s : string) : bool :=
  match s with
  | String "/" _ => true
  | _ => false
  end.

Definition filepath_Clean (s : string) : string :=
  if String_eqb s "" then "."
  else
    let out := strings_Join (clean_comps (is_rooted s) [] (strings_Split s "/")) "/" in
    if is_rooted s then "/" +:+ out
    else if String_eqb out "" then "." else out.

(** [filepath.Join]: empty elements are ignored, the rest joined by a
    slash and cleaned; the result is empty when all elements are. *)
Definition filepath_Join (elems : list string) : string :=
  match filter (λ e, e ≠ "") elems with
  | [] => ""
  | es => filepath_Clean (strings_Join es "/")
  end.

Definition resolve (s : string) : option location :=
  if String_eqb s "" then None
  else if is_rooted s then None
  else
    let cs := clean_comps false [] (strings_Split s "/") in
    if bool_decide (".." ∈ cs) then None else Some cs.

(** ** The file tree *)

Inductive node :=
| File (content : bytes)
| Dir.

#[global] Instance byte_eq_dec : EqDecision Byte.byte.
Proof. intros a b. destruct (Byte.eqb a b) eqn:E.
  - left. by apply Byte.byte_dec_bl.
  - right. intros ->. by rewrite Byte.byte_dec_lb in E.
Defined.

#[global] Instance node_eq_dec : EqDecision node.
Proof. solve_decision. Defined.

Definition is_Dir (n : node) : bool :=
  match n with Dir => true | File _ => false end.

(** The working directory itself is the empty path and always a directory. *)
Definition stat (t : gmap location node) (p : location) : option node :=
  match p with
  | [] => Some Dir
  | _ => t !! p
  end.

Definition parent (p : location) : location := take (length p - 1) p.

Definition is_prefix (p q : location) : bool := bool_decide (p `prefix_of` q).

(** The entries of directory [p], in the order of enumeration: name and
    whether it is a directory. *)
Definition dir_entries (t : gmap location node) (p : location) : list (string * bool) :=
  omap (λ '(q, n),
          match last q with
          | Some name => if bool_decide (parent q = p) then Some (name, is_Dir n) else None
          | None => None
          end)
       (map_to_list t).

(** ** Errors, outcomes and the world

    A Go function returning [(T, error)] returns a [result T].  A panic,
    [log.Fatal] and [os.Exit] end the process: they are outcomes of the
    computation, not values, and no caller sees them. *)

Inductive errno := ENOENT | EISDIR | ENOTDIR | ENOTEMPTY | EINVAL.

(** The arguments of a format string; an error among them comes last in
    every format of the program, and is kept apart. *)
Inductive arg :=
| AStr (s : string)
| ANat (n : nat)
| ANil.

Inductive error :=
| PathError (op : string) (name : string) (e : errno)
| ErrUnexpectedEOF
| GobError
| io_EOF
| Errorf (format : string) (args : list arg)
| Errorf_err (format : string) (args : list arg) (err : error).

#[global] Instance errno_eq_dec : EqDecision errno.
Proof. solve_decision. Defined.

#[global] Instance arg_eq_dec : EqDecision arg.
Proof. solve_decision. Defined.

#[global] Instance error_eq_dec : EqDecision error.
Proof. solve_decision. Defined.

Inductive result (A : Type) :=
| Ok (a : A)
| Err (e : error).
Arguments Ok {A} a.
Arguments Err {A} e.

#[global] Instance result_eq_dec `{EqDecision A} : EqDecision (result A).
Proof. solve_decision. Defined.

Inductive crash :=
| Panic (msg : string)
| Fatal (format : string) (args : list arg) (err : option error)
| Exit (code : Z).

(** [OutOfFuel] is not an outcome of the program: it marks a run of the
    model cut short by the bound given to its recursive functions. *)
Inductive outcome (A : Type) :=
| Done (a : A)
| Crash (c : crash)
| OutOfFuel.
Arguments Done {A} a.
Arguments Crash {A} c.
Arguments OutOfFuel {A}.

#[global] Instance crash_eq_dec : EqDecision crash.
Proof. solve_decision. Defined.

#[global] Instance outcome_eq_dec `{EqDecision A} : EqDecision (outcome A).
Proof. solve_decision. Defined.

(** The state of the process and of its environment: the file tree, what
    was printed so far, the number of calls made to the random source,
    the wall clock in seconds, and the global variable [DEBUG]. *)
Record world := World {
  tree : gmap location node;
  stdout : list (string * list arg * option error);
  rand_calls : nat;
  clock : Z;
  DEBUG : bool
}.

#[global] Instance world_eq_dec : EqDecision world.
Proof. solve_decision. Defined.

Definition set_tree (t : gmap location node) (w : world) : world :=
  World t (stdout w) (rand_calls w) (clock w) (DEBUG w).

Definition M (A : Type) : Type := world → outcome A * world.

#[global] Instance M_ret : MRet M := λ A a w, (Done a, w).

#[global] Instance M_bind : MBind M := λ A B f m w,
  match m w with
  | (Done a, w') => f a w'
  | (Crash c, w') => (Crash c, w')
  | (OutOfFuel, w') => (OutOfFuel, w')
  end.

Definition crash_with {A} (c : crash) : M A := λ w, (Crash c, w).

Definition out_of_fuel {A} : M A := λ w, (OutOfFuel, w).

Definition panic {A} (msg : string) : M A := crash_with (Panic msg).

(** [log.Fatal], [log.Fatalf]: print and exit with status 1. *)
Definition log_Fatalf {A} (format : string) (args : list arg) (err : option error) : M A :=
  crash_with (Fatal format args err).

Definition fmt_Printf (format : string) (args : list arg) (err : option error) : M unit :=
  λ w, (Done tt,
        World (tree w) (stdout w ++ [(format, args, err)]) (rand_calls w) (clock w) (DEBUG w)).

Definition fmt_Errorf (format : string) (args : list arg) (err : option error) : error :=
  match err with
  | None => Errorf format args
  | Some e => Errorf_err format args e
  end.

Definition get_DEBUG : M bool := λ w, (Done (DEBUG w), w).

Definition get_tree : M (gmap location node) := λ w, (Done (tree w), w).

Definition put_tree (t : gmap location node) : M unit := λ w, (Done tt, set_tree t w).

(** [if err != nil { return nil, err }]. *)
Definition try_ {A B} (m : M (result A)) (k : A → M (result B)) : M (result B) :=
  r ← m ;
  match r with
  | Ok a => k a
  | Err e => mret (Err e)
  end.

Notation "x ←? y ; z" := (try_ y (λ x : _, z))
  (at level 20, y at level 100, z at level 200, only parsing) : stdpp_scope.

(** ** The library interface

    What the program imports and the model does not define: the digest,
    the codec, the record serializer and the random source.  An LZW
    stream is taken whole: [lzw_encode] is what a writer has emitted once
    closed, and [lzw_decode] is what a reader yields up to the end of the
    stream, with [false] when the stream is cut or malformed. *)

Record Commit := {
  TreeHash : string;
  ParentCommit : string;
  Message : string;
  Timestamp : Z
}.

#[global] Instance Commit_eq_dec : EqDecision Commit.
Proof. solve_decision. Defined.

Class Library := {
  sha1_Sum : bytes → bytes;
  lzw_encode : bytes → bytes;
  lzw_decode : bytes → bytes * bool;
  gob_Encode : Commit → result bytes;
  gob_Decode : bytes → result Commit;
  rand_source : nat → nat;
  time_String : Z → string
}.

(** The contracts the theorems below rely on, each named where used. *)
Definition lzw_lossless (L : Library) : Prop :=
  ∀ b, lzw_decode (lzw_encode b) = (b, true).

Definition sha1_Size (L : Library) : Prop :=
  ∀ b, length (sha1_Sum b) = 20.

Definition gob_lossless (L : Library) : Prop :=
  ∀ c b, gob_Encode c = Ok b → gob_Decode b = Ok c.

(** ** Operating system calls *)

Inductive oflag := O_RDONLY | O_WRONLY | O_RDWR | O_CREATE | O_TRUNC.

#[global] Instance oflag_eq_dec : EqDecision oflag.
Proof. solve_decision. Defined.

(** An open file is identified with the path it was opened at.  This is
    exact as long as the file is not renamed or removed while it is still
    written through the handle, which the program does only when two
    random temporary names coincide. *)
Abbreviation handle := (list string) (only parsing).

Definition writes (flags : list oflag) : bool :=
  bool_decide (O_WRONLY ∈ flags) || bool_decide (O_RDWR ∈ flags).

(** The error of the kernel's walk from [made] down the names [rest] when
    it does not arrive: ENOTDIR when it meets a regular file before the
    last name, ENOENT when a directory lacks the next name. *)
Fixpoint lookup_errno (t : gmap location node) (made rest : location) : errno :=
  match rest with
  | [] => ENOENT
  | c :: rest' =>
      match rest' with
      | [] => ENOENT
      | _ =>
          match t !! (made ++ [c]) with
          | Some Dir => lookup_errno t (made ++ [c]) rest'
          | Some (File _) => ENOTDIR
          | None => ENOENT
          end
      end
  end.

Definition os_OpenFile (name : string) (flags : list oflag) : M (result handle) :=
  t ← get_tree ;
  match resolve name with
  | None => mret (Err (PathError "open" name ENOENT))
  | Some p =>
      match stat t p with
      | Some Dir =>
          if writes flags then mret (Err (PathError "open" name EISDIR))
          else mret (Ok p)
      | Some (File c) =>
          if bool_decide (O_TRUNC ∈ flags) then
            _ ← put_tree (<[p := File []]> t) ; mret (Ok p)
          else mret (Ok p)
      | None =>
          if bool_decide (O_CREATE ∈ flags) then
            match stat t (parent p) with
            | Some Dir => _ ← put_tree (<[p := File []]> t) ; mret (Ok p)
            | Some (File _) => mret (Err (PathError "open" name (lookup_errno t [] p)))
            | None => mret (Err (PathError "open" name (lookup_errno t [] p)))
            end
          else mret (Err (PathError "open" name (lookup_errno t [] p)))
      end
  end.

Definition os_Open (name : string) : M (result handle) :=
  os_OpenFile name [O_RDONLY].

Definition os_Create (name : string) : M (result handle) :=
  os_OpenFile name [O_RDWR; O_CREATE; O_TRUNC].

(** Everything a reader gets from the file until [io.EOF]. *)
Definition file_ReadAll (f : handle) : M (result bytes) :=
  t ← get_tree ;
  match stat t f with
  | Some (File c) => mret (Ok c)
  | Some Dir => mret (Err (PathError "read" (strings_Join f "/") EISDIR))
  | None => mret (Ok [])
  end.

(** One [f.Read(buf)] at the start of the file: the bytes read and the
    error, [io.EOF] when there is nothing to read. *)
Definition file_Read (f : handle) (n : nat) : M (bytes * option error) :=
  r ← file_ReadAll f ;
  match r with
  | Ok [] => mret ([], Some io_EOF)
  | Ok c => mret (take n c, None)
  | Err e => mret ([], Some e)
  end.

(** [err == io.EOF]. *)
Definition is_EOF (err : option error) : bool :=
  match err with
  | Some io_EOF => true
  | _ => false
  end.

(** Writing through a handle opened on an empty or truncated file appends. *)
Definition file_Write (f : handle) (data : bytes) : M (result unit) :=
  t ← get_tree ;
  match stat t f with
  | Some (File c) => _ ← put_tree (<[f := File (c ++ data)]> t) ; mret (Ok tt)
  | _ => mret (Ok tt)
  end.

Definition file_WriteString (f : handle) (s : string) : M (result unit) :=
  file_Write f (bytes_of_string s).

Definition file_Readdir (f : handle) : M (result (list (string * bool))) :=
  t ← get_tree ;
  match stat t f with
  | Some Dir => mret (Ok (dir_entries t f))
  | _ => mret (Err (PathError "readdirent" (strings_Join f "/") ENOTDIR))
  end.

Definition os_ReadFile (name : string) : M (result bytes) :=
  f ←? os_Open name ;
  file_ReadAll f.

Fixpoint mkdir_all (t : gmap location node) (done : location) (rest : list string)
  : option (gmap location node) :=
  match rest with
  | [] => Some t
  | c :: rest' =>
      let q := done ++ [c] in
      match t !! q with
      | Some Dir => mkdir_all t q rest'
      | Some (File _) => None
      | None => mkdir_all (<[q := Dir]> t) q rest'
      end
  end.

Definition os_MkdirAll (name : string) : M (result unit) :=
  t ← get_tree ;
  match resolve name with
  | None => mret (Err (PathError "mkdir" name ENOENT))
  | Some p =>
      match mkdir_all t [] p with
      | Some t' => _ ← put_tree t' ; mret (Ok tt)
      | None => mret (Err (PathError "mkdir" name ENOTDIR))
      end
  end.

Definition has_children (t : gmap location node) (p : location) : bool :=
  bool_decide (dir_entries t p ≠ []).

Definition remove_subtree (t : gmap location node) (p : location) : gmap location node :=
  filter (λ kv, ¬ p `prefix_of` kv.1) t.

Definition move_subtree (t : gmap location node) (old new : location) : gmap location node :=
  list_to_map
    (omap (λ '(q, n), if is_prefix old q then Some (new ++ drop (length old) q, n) else None)
          (map_to_list t))
  ∪ remove_subtree t old.

Definition os_Rename (oldname newname : string) : M (result unit) :=
  t ← get_tree ;
  match resolve oldname, resolve newname with
  | Some old, Some new =>
      match stat t (parent new) with
      | Some Dir =>
          match old, t !! old with
          | _ :: _, Some (File c) =>
              match stat t new with
              | Some Dir => mret (Err (PathError "rename" oldname EISDIR))
              | _ => _ ← put_tree (<[new := File c]> (delete old t)) ; mret (Ok tt)
              end
          | _ :: _, Some Dir =>
              if is_prefix old new && negb (bool_decide (old = new))
              then mret (Err (PathError "rename" oldname EINVAL))
              else
                match stat t new with
                | Some (File _) => mret (Err (PathError "rename" oldname ENOTDIR))
                | Some Dir =>
                    if bool_decide (old = new) then mret (Ok tt)
                    else if has_children t new
                    then mret (Err (PathError "rename" oldname ENOTEMPTY))
                    else _ ← put_tree (move_subtree t old new) ; mret (Ok tt)
                | None => _ ← put_tree (move_subtree t old new) ; mret (Ok tt)
                end
          | _, _ => mret (Err (PathError "rename" oldname ENOENT))
          end
      | _ => mret (Err (PathError "rename" oldname ENOENT))
      end
  | _, _ => mret (Err (PathError "rename" oldname ENOENT))
  end.

Definition os_Remove (name : string) : M (result unit) :=
  t ← get_tree ;
  match resolve name with
  | Some ((_ :: _) as p) =>
      match t !! p with
      | Some (File _) => _ ← put_tree (delete p t) ; mret (Ok tt)
      | Some Dir =>
          if has_children t p then mret (Err (PathError "remove" name ENOTEMPTY))
          else _ ← put_tree (delete p t) ; mret (Ok tt)
      | None => mret (Err (PathError "remove" name ENOENT))
      end
  | _ => mret (Err (PathError "remove" name EINVAL))
  end.

(** [os.RemoveAll]: no error when the path does not exist. *)
Definition os_RemoveAll (name : string) : M (result unit) :=
  t ← get_tree ;
  match resolve name with
  | Some ((_ :: _) as p) => _ ← put_tree (remove_subtree t p) ; mret (Ok tt)
  | _ => mret (Err (PathError "RemoveAll" name EINVAL))
  end.

(** [rand.Intn(n)]: the next value of the random source, below [n]. *)
Definition rand_Intn `{L : Library} (n : nat) : M nat :=
  λ w, (Done (rand_source (rand_calls w) mod n),
        World (tree w) (stdout w) (S (rand_calls w)) (clock w) (DEBUG w)).

Definition time_Now_Unix : M Z := λ w, (Done (clock w), w).

(** [for _, x := range l { body }], and the same loop left by
    [return err] at the first error. *)
Fixpoint for_each {A} (l : list A) (body : A → M unit) : M unit :=
  match l with
  | [] => mret tt
  | x :: l' => _ ← body x ; for_each l' body
  end.

Fixpoint for_each_try {A} (l : list A) (body : A → M (result unit))
  : M (result unit) :=
  match l with
  | [] => mret (Ok tt)
  | x :: l' => _ ←? body x ; for_each_try l' body
  end.

(** ** The program *)

Definition tab : string := String "009"%char "".
Definition nl : string := String "010"%char "".
Definition dq : string := String "034"%char "".

Definition BASEDIR : string := "./.gat".

Definition IGNORE_FOLDERS : list string := [".git"; ".gat"].

Definition slices_Contains (l : list string) (x : string) : bool :=
  bool_decide (x ∈ l).

Definition Commit_String `{L : Library} (c : Commit) : string :=
  ("Tree Hash" +:+ tab +:+ ": " +:+ TreeHash c +:+ nl)
  +:+ ("Parent Commit" +:+ tab +:+ ": " +:+ ParentCommit c +:+ nl)
  +:+ ("Time" +:+ tab +:+ tab +:+ ": " +:+ time_String (Timestamp c) +:+ nl)
  +:+ ("Message" +:+ tab +:+ tab +:+ ": " +:+ Message c +:+ nl).

(** [hash[:2]] and [hash[2:]] panic on a string shorter than two bytes. *)
Definition getObjectPath (hash : string) : M string :=
  if bool_decide (String.length hash < 2) then panic "slice bounds out of range"
  else mret (filepath_Join [BASEDIR; "objects"; string_take 2 hash; string_drop 2 hash]).

Definition getObjectFolderPath (hash : string) : M string :=
  if bool_decide (String.length hash < 2) then panic "slice bounds out of range"
  else mret (filepath_Join [BASEDIR; "objects"; string_take 2 hash]).

Definition letters : list ascii :=
  String.list_ascii_of_string "abcdefghijklmnopqrstuvwxyzABCDEFGHIJKLMNOPQRSTUVWXYZ0123456789".

Fixpoint randomString `{L : Library} (n : nat) : M string :=
  match n with
  | O => mret ""
  | S n' =>
      i ← rand_Intn (length letters) ;
      rest ← randomString n' ;
      mret (String (nth i letters "a"%char) rest)
  end.

(** The successive results of [f.Read(buf)] on a file holding [c], for a
    buffer of [n] bytes, up to [io.EOF]. *)
Fixpoint file_Reads (fuel n : nat) (c : bytes) : list bytes :=
  match fuel with
  | O => []
  | S fuel' =>
      match c with
      | [] => []
      | _ => take n c :: file_Reads fuel' n (drop n c)
      end
  end.

(** The copying loop of [createBlob]: what the hasher and the LZW writer
    have been given when the reads are exhausted. *)
Fixpoint createBlob_loop (reads : list bytes) (hasher lzwWriter : bytes)
  : bytes * bytes :=
  match reads with
  | [] => (hasher, lzwWriter)
  | buf :: reads' =>
      if bool_decide (0 < length buf)
      then createBlob_loop reads' (hasher ++ buf) (lzwWriter ++ buf)
      else createBlob_loop reads' hasher lzwWriter
  end.

(** [lzwWriter.Close()]: the stream for everything written so far reaches
    the underlying file. *)
Definition lzwWriter_Close `{L : Library} (dst : handle) (written : bytes) : M unit :=
  _ ← file_Write dst (lzw_encode written) ; mret tt.

Definition createBlob `{L : Library} (path : string) : M (result string) :=
  o ← os_Open path ;
  match o with
  | Err err => _ ← fmt_Printf "unable to read file: %v" [] (Some err) ; mret (Err err)
  | Ok f =>
      rnd ← randomString 6 ;
      let tempFileName := BASEDIR +:+ "/temp/" +:+ rnd in
      tempFile ←? os_Create tempFileName ;
      r ← file_ReadAll f ;
      match r with
      | Err err =>
          _ ← fmt_Printf "unable to read file: %v" [] (Some err) ;
          _ ← lzwWriter_Close tempFile [] ;
          mret (Err err)
      | Ok c =>
          let '(hasher, lzwWriter) :=
            createBlob_loop (file_Reads (length c) 1024 c) [] [] in
          _ ← lzwWriter_Close tempFile lzwWriter ;
          let checksum := hex_EncodeToString (sha1_Sum hasher) in
          if bool_decide (String.length checksum ≠ 40) then
            mret (Err (fmt_Errorf "failed to hash file, expected hash length 40 got %v"
                              [ANat (String.length checksum)] None))
          else
            subfolderPath ← getObjectFolderPath checksum ;
            m ← os_MkdirAll subfolderPath ;
            match m with
            | Err _ =>
                mret (Err (fmt_Errorf ("failed to create blob subfolder " +:+ dq +:+ "%v" +:+ dq)
                                  [AStr subfolderPath] None))
            | Ok _ =>
                objectPath ← getObjectPath checksum ;
                _ ←? os_Rename tempFileName objectPath ;
                mret (Ok checksum)
            end
      end
  end.

Definition tree_row (kind checksum name : string) : string :=
  kind +:+ tab +:+ checksum +:+ tab +:+ name +:+ nl.

(** The body of the loop of [createTree], for one entry of the folder;
    [createTree] is the function itself, for the subfolders. *)
Definition createTree_entry `{L : Library} (createTree : string → M (result string))
    (folderPath : string) (tempFile : handle) (f : string * bool) : M unit :=
  let '(f_Name, f_IsDir) := f in
  let filePath := folderPath +:+ "/" +:+ f_Name in
  if f_IsDir then
    if slices_Contains IGNORE_FOLDERS f_Name then mret tt
    else
      c ← createTree filePath ;
      match c with
      | Err _ => log_Fatalf "Failed to create tree for folder %v" [AStr filePath] None
      | Ok checksum =>
          _ ← file_WriteString tempFile (tree_row "tree" checksum f_Name) ;
          mret tt
      end
  else
    c ← createBlob filePath ;
    match c with
    | Err err =>
        log_Fatalf ("Failed to create blob for file %v, error : %v" +:+ nl)
                   [AStr filePath] (Some err)
    | Ok checksum =>
        _ ← file_WriteString tempFile (tree_row "blob" checksum f_Name) ;
        mret tt
    end.

Fixpoint createTree `{L : Library} (fuel : nat) (folderPath : string) : M (result string) :=
  match fuel with
  | O => out_of_fuel
  | S fuel' =>
      rnd ← randomString 6 ;
      let tempFileName := BASEDIR +:+ "/temp/" +:+ rnd in
      tempFile ←? os_Create tempFileName ;
      d ← os_Open folderPath ;
      match d with
      | Err err => log_Fatalf "%v" [] (Some err)
      | Ok dir =>
          l ← file_Readdir dir ;
          match l with
          | Err err => log_Fatalf "%v" [] (Some err)
          | Ok files =>
              _ ← for_each files (createTree_entry (createTree fuel') folderPath tempFile) ;
              c ← createBlob tempFileName ;
              debug ← get_DEBUG ;
              _ ← (if negb debug then _ ← os_Remove tempFileName ; mret tt else mret tt) ;
              match c with
              | Err _ =>
                  log_Fatalf ("failed to create blob for the tree file " +:+ dq +:+ "%v" +:+ dq
                              +:+ " temp file " +:+ dq +:+ "%v" +:+ dq +:+ nl)
                             [AStr folderPath; AStr tempFileName] None
              | Ok checksum => mret (Ok checksum)
              end
          end
      end
  end.

Definition updateCurrentHead (newCommitHash : string) : M (result unit) :=
  content ←? os_ReadFile (BASEDIR +:+ "/HEAD") ;
  let headFilePath := string_of_bytes content in
  branchFile ←? os_OpenFile (BASEDIR +:+ "/" +:+ headFilePath) [O_WRONLY; O_TRUNC; O_CREATE] ;
  _ ←? file_WriteString branchFile newCommitHash ;
  mret (Ok tt).

(** [*commitHash] is evaluated before [err] is looked at. *)
Definition createCommit `{L : Library} (treeHash parentCommitHash message : string)
  : M (result string) :=
  now ← time_Now_Unix ;
  let commit := {| TreeHash := treeHash; ParentCommit := parentCommitHash;
                   Message := message; Timestamp := now |} in
  rnd ← randomString 6 ;
  let tempFileName := BASEDIR +:+ "/temp/" +:+ rnd in
  tempFile ←? os_Create tempFileName ;
  match gob_Encode commit with
  | Err err => mret (Err (fmt_Errorf "failed to seriliaze commit, error %v" [] (Some err)))
  | Ok encoded =>
      _ ← file_Write tempFile encoded ;
      c ← createBlob tempFileName ;
      match c with
      | Err _ => panic "invalid memory address or nil pointer dereference"
      | Ok commitHash =>
          _ ← updateCurrentHead commitHash ;
          mret (Ok commitHash)
      end
  end.

Definition prepareDirs : M (result unit) :=
  _ ←? os_MkdirAll BASEDIR ;
  _ ←? os_MkdirAll (BASEDIR +:+ "/objects") ;
  _ ←? os_MkdirAll (BASEDIR +:+ "/temp") ;
  _ ←? os_MkdirAll (BASEDIR +:+ "/refs") ;
  _ ←? os_MkdirAll (BASEDIR +:+ "/refs/heads") ;
  _ ←? os_OpenFile (BASEDIR +:+ "/refs/heads/main") [O_RDWR; O_CREATE] ;
  f ←? os_OpenFile (BASEDIR +:+ "/HEAD") [O_RDWR; O_CREATE] ;
  '(_, err) ← file_Read f 5 ;
  _ ← (if is_EOF err
       then _ ← file_WriteString f (filepath_Join ["refs"; "heads"; "main"]) ; mret tt
       else mret tt) ;
  _ ←? os_MkdirAll (BASEDIR +:+ "/refs/tags") ;
  mret (Ok tt).

Definition readObjectFile `{L : Library} (path : string) : M (result bytes) :=
  o ← os_Open path ;
  match o with
  | Err err => _ ← fmt_Printf "unable to read file: %v" [] (Some err) ; mret (Err err)
  | Ok f =>
      r ← file_ReadAll f ;
      let decoded :=
        match r with
        | Err err => Err err
        | Ok c =>
            let '(decompressedData, ok) := lzw_decode c in
            if ok then Ok decompressedData else Err ErrUnexpectedEOF
        end in
      match decoded with
      | Err err =>
          _ ← fmt_Printf ("failed to decompress object file, error : %v" +:+ nl) [] (Some err) ;
          mret (Err err)
      | Ok decompressedData => mret (Ok decompressedData)
      end
  end.

Definition getCurrentHead : M (result string) :=
  content ←? os_ReadFile (BASEDIR +:+ "/HEAD") ;
  let headFilePath := string_of_bytes content in
  branchContent ←? os_ReadFile (BASEDIR +:+ "/" +:+ headFilePath) ;
  let currentCommitHash := string_of_bytes branchContent in
  mret (Ok currentCommitHash).

(** [headFilePath[len(basePath)+1:]] panics on a shorter string. *)
Definition getCurrentBranch : M (result string) :=
  content ←? os_ReadFile (BASEDIR +:+ "/HEAD") ;
  let headFilePath := string_of_bytes content in
  let basePath := filepath_Join ["refs"; "heads"] in
  if bool_decide (String.length headFilePath < String.length basePath + 1)
  then panic "slice bounds out of range"
  else mret (Ok (string_drop (String.length basePath + 1) headFilePath)).

Definition switchHead (branchName : string) : M (result unit) :=
  headFile ←? os_OpenFile (BASEDIR +:+ "/HEAD") [O_WRONLY; O_TRUNC; O_CREATE] ;
  _ ← file_WriteString headFile ("refs/heads/" +:+ branchName) ;
  mret (Ok tt).

Definition status : M (result unit) :=
  b ← getCurrentBranch ;
  match b with
  | Err err => mret (Err (fmt_Errorf "failed to get current branch, error : %v" [] (Some err)))
  | Ok currentBranch =>
      _ ← fmt_Printf ("Current branch : %v" +:+ nl) [AStr currentBranch] None ;
      h ← getCurrentHead ;
      match h with
      | Err err => mret (Err (fmt_Errorf "failed to get current head, error : %v" [] (Some err)))
      | Ok headCommit =>
          _ ← fmt_Printf ("Head currently pointing to %v" +:+ nl) [AStr headCommit] None ;
          mret (Ok tt)
      end
  end.

Definition readCommit `{L : Library} (commitHash : string) : M (result Commit) :=
  objectPath ← getObjectPath commitHash ;
  commitFileContent ←? readObjectFile objectPath ;
  match gob_Decode commitFileContent with
  | Err err => mret (Err (fmt_Errorf "error decoding commit: %v" [] (Some err)))
  | Ok commit => mret (Ok commit)
  end.

(** A row of a tree: kind, hash and name, the three fields [readTree]
    requires of a line. *)
Record TreeEntry := { kind : string; hash : string; name : string }.

#[global] Instance TreeEntry_eq_dec : EqDecision TreeEntry.
Proof. solve_decision. Defined.

Fixpoint readTree_loop (lines : list string) (res : list TreeEntry) : list TreeEntry :=
  match lines with
  | [] => res
  | line :: lines' =>
      match strings_Split line "009" with
      | [k; h; n] => readTree_loop lines' (res ++ [{| kind := k; hash := h; name := n |}])
      | _ => readTree_loop lines' res
      end
  end.

Definition readTree `{L : Library} (treeHash : string) : M (result (list TreeEntry)) :=
  objectPath ← getObjectPath treeHash ;
  treeFileContent ←? readObjectFile objectPath ;
  let treeContentString := string_of_bytes treeFileContent in
  let lines := strings_Split treeContentString "010" in
  mret (Ok (readTree_loop lines [])).

(** The inner search loops of [switchDirToCommit]. *)
Definition found_in (commitFiles : list TreeEntry) (k : string) (f_Name : string) : bool :=
  existsb (λ old : TreeEntry, String_eqb (kind old) k && String_eqb (name old) f_Name) commitFiles.

Definition when_DEBUG (m : M unit) : M unit :=
  get_DEBUG ≫= λ debug : bool, if debug then m else mret tt.

(** The body of the first loop of [switchDirToCommit], for one live entry. *)
Definition switchDirToCommit_prune_file (path : string) (commitFiles : list TreeEntry)
    (f : string * bool) : M (result unit) :=
  let '(f_Name, f_IsDir) := f in
  let fullPath := filepath_Join [path; f_Name] in
  if f_IsDir then
    if slices_Contains IGNORE_FOLDERS f_Name then mret (Ok tt)
    else if negb (found_in commitFiles "tree" f_Name) then
      _ ←? os_RemoveAll fullPath ;
      _ ← when_DEBUG (fmt_Printf ("Removed folder " +:+ dq +:+ "%v" +:+ dq +:+ nl)
                        [AStr fullPath] None) ;
      mret (Ok tt)
    else mret (Ok tt)
  else
    if negb (found_in commitFiles "blob" f_Name) then
      _ ←? os_Remove fullPath ;
      _ ← when_DEBUG (fmt_Printf ("Removed file " +:+ dq +:+ "%v" +:+ dq +:+ nl)
                        [AStr fullPath] None) ;
      mret (Ok tt)
    else mret (Ok tt).

Definition switchDirToCommit_prune (path : string) (commitFiles : list TreeEntry)
    (currentFiles : list (string * bool)) : M (result unit) :=
  for_each_try currentFiles (switchDirToCommit_prune_file path commitFiles).

Definition extract_failed (newFileName h : string) (err : error) : error :=
  fmt_Errorf ("failed to extract old file " +:+ dq +:+ "%v" +:+ dq +:+ " (%v), error : %v" +:+ nl)
         [AStr newFileName; AStr h] (Some err).

(** The body of the second loop of [switchDirToCommit], for one row. *)
Definition switchDirToCommit_extract_file `{L : Library} (path : string) (file : TreeEntry)
  : M (result unit) :=
  let newFileName := filepath_Join [path; name file] in
  if String_eqb (kind file) "tree" then
    m ← os_MkdirAll newFileName ;
    match m with
    | Err err => mret (Err (extract_failed newFileName (hash file) err))
    | Ok _ =>
        _ ← when_DEBUG (fmt_Printf ("Created folder " +:+ dq +:+ "%v" +:+ dq +:+ nl)
                          [AStr newFileName] None) ;
        mret (Ok tt)
    end
  else if String_eqb (kind file) "blob" then
    newFile ←? os_OpenFile newFileName [O_WRONLY; O_TRUNC; O_CREATE] ;
    objectPath ← getObjectPath (hash file) ;
    o ← os_Open objectPath ;
    match o with
    | Err err => _ ← fmt_Printf "unable to read file: %v" [] (Some err) ; mret (Err err)
    | Ok f =>
        r ← file_ReadAll f ;
        match r with
        | Err err => mret (Err (extract_failed newFileName (hash file) err))
        | Ok c =>
            let '(data, ok) := lzw_decode c in
            _ ← file_Write newFile data ;
            if ok then
              _ ← when_DEBUG (fmt_Printf ("Updated file " +:+ dq +:+ "%v" +:+ dq +:+ nl)
                                [AStr newFileName] None) ;
              mret (Ok tt)
            else mret (Err (extract_failed newFileName (hash file) ErrUnexpectedEOF))
        end
    end
  else mret (Ok tt).

Definition switchDirToCommit_extract `{L : Library} (path : string)
    (commitFiles : list TreeEntry) : M (result unit) :=
  for_each_try commitFiles (switchDirToCommit_extract_file path).

Definition switchDirToCommit `{L : Library} (path : string) (commitFiles : list TreeEntry)
  : M (result unit) :=
  d ← os_Open path ;
  match d with
  | Err err => log_Fatalf "%v" [] (Some err)
  | Ok dir =>
      l ← file_Readdir dir ;
      match l with
      | Err err => log_Fatalf "%v" [] (Some err)
      | Ok currentFiles =>
          _ ←? switchDirToCommit_prune path commitFiles currentFiles ;
          switchDirToCommit_extract path commitFiles
      end
  end.

Fixpoint switchTreeToCommit `{L : Library} (fuel : nat) (path treeHash : string)
  : M (result unit) :=
  match fuel with
  | O => out_of_fuel
  | S fuel' =>
      tree ←? readTree treeHash ;
      _ ←? switchDirToCommit path tree ;
      for_each_try tree (λ file : TreeEntry,
        if String_eqb (kind file) "tree"
        then switchTreeToCommit fuel' (filepath_Join [path; name file]) (hash file)
        else mret (Ok tt))
  end.

Definition switchToCommit `{L : Library} (fuel : nat) (commitHash : string) : M (result unit) :=
  commit ←? readCommit commitHash ;
  _ ←? switchTreeToCommit fuel "./" (TreeHash commit) ;
  _ ←? updateCurrentHead commitHash ;
  mret (Ok tt).

Fixpoint printLog_loop `{L : Library} (fuel : nat) (currentCommit : string) : M (result unit) :=
  match fuel with
  | O => out_of_fuel
  | S fuel' =>
      commit ←? readCommit currentCommit ;
      _ ← fmt_Printf ("Commit Hash" +:+ tab +:+ ": %v" +:+ nl) [AStr currentCommit] None ;
      _ ← fmt_Printf ("%v" +:+ nl) [AStr (Commit_String commit)] None ;
      if bool_decide (0 < String.length (ParentCommit commit))
      then printLog_loop fuel' (ParentCommit commit)
      else mret (Ok tt)
  end.

Definition printLog `{L : Library} (fuel : nat) : M (result unit) :=
  currentCommit ←? getCurrentHead ;
  printLog_loop fuel currentCommit.

Definition createAndSwitchBranch (branchName : string) : M (result unit) :=
  f ←? os_OpenFile (filepath_Join [BASEDIR; "refs"; "heads"; branchName]) [O_RDWR; O_CREATE] ;
  '(_, err) ← file_Read f 5 ;
  if negb (is_EOF err) then
    _ ← fmt_Printf ("Branch " +:+ dq +:+ "%v" +:+ dq +:+ " already exists" +:+ nl) [AStr branchName] None ;
    mret (Ok tt)
  else
    commitHash ←? getCurrentHead ;
    _ ← file_WriteString f commitHash ;
    _ ←? switchHead branchName ;
    _ ← fmt_Printf ("Created branch " +:+ dq +:+ "%v" +:+ dq +:+ " and switched to it." +:+ nl)
                   [AStr branchName] None ;
    mret (Ok tt).

Definition checkoutBranch `{L : Library} (fuel : nat) (branchName : string) : M (result unit) :=
  b ← getCurrentBranch ;
  match b with
  | Err _ =>
      mret (Err (fmt_Errorf ("failed to determine current branch, error : %v" +:+ nl) [ANil] None))
  | Ok currentBranch =>
      _ ←? switchHead branchName ;
      h ← getCurrentHead ;
      match h with
      | Err _ =>
          (* [err] is assigned the result of the second [switchHead]: the
             error formatted below is the nil result of that call. *)
          _ ←? switchHead currentBranch ;
          mret (Err (fmt_Errorf ("failed to get current head, error : %v" +:+ nl) [ANil] None))
      | Ok headCommit =>
          s ← switchToCommit fuel headCommit ;
          match s with
          | Err _ =>
              _ ←? switchHead currentBranch ;
              mret (Err (fmt_Errorf ("failed to switch to commit %v, error : %v" +:+ nl)
                                [AStr headCommit; ANil] None))
          | Ok _ => mret (Ok tt)
          end
      end
  end.

(** The [commit] case of [main]. *)
Definition main_commit `{L : Library} (fuel : nat) (commitMessage : string) : M unit :=
  t ← createTree fuel "." ;
  match t with
  | Err err => log_Fatalf "failed to created tree, error : %v" [] (Some err)
  | Ok treeHash =>
      h ← getCurrentHead ;
      match h with
      | Err err => log_Fatalf ("failed to get current head, error : %v" +:+ nl) [] (Some err)
      | Ok currentHead =>
          c ← createCommit treeHash currentHead commitMessage ;
          match c with
          | Err err => log_Fatalf ("failed to create commit, error : %v" +:+ nl) [] (Some err)
          | Ok commitHash => fmt_Printf ("Commit hash: %v" +:+ nl) [AStr commitHash] None
          end
      end
  end.

(** ** A reference library

    A small instance of [Library], used to run the model on concrete
    repositories.  The digest folds the input into a 32-bit number and
    spreads it over twenty bytes; the codec marks a complete stream with
    a leading byte; a commit is serialized field by field, each string
    preceded by its length in unary. *)

Module Reference.

Definition to_byte (n : N) : byte :=
  default Byte.x00 (Byte.of_N (n mod 256)%N).

Definition mix (acc : N) (b : byte) : N :=
  ((acc * 31 + Byte.to_N b + 1) mod 4294967296)%N.

Definition digest (b : bytes) : bytes :=
  let x := foldl mix 7%N b in
  map (λ i : nat, to_byte (N.shiftr x (8 * N.of_nat (i mod 4)) + N.of_nat i)) (seq 0 20).

Definition encode (b : bytes) : bytes := Byte.x01 :: b.

Definition decode (b : bytes) : bytes * bool :=
  match b with
  | Byte.x01 :: b' => (b', true)
  | _ => ([], false)
  end.

Definition put_string (s : string) : bytes :=
  replicate (String.length s) Byte.x01 ++ [Byte.x00] ++ bytes_of_string s.

Fixpoint get_count (b : bytes) : option (nat * bytes) :=
  match b with
  | Byte.x01 :: b' => '(n, rest) ← get_count b' ; Some (S n, rest)
  | Byte.x00 :: b' => Some (O, b')
  | _ => None
  end.

Definition get_string (b : bytes) : option (string * bytes) :=
  '(n, rest) ← get_count b ;
  if bool_decide (n ≤ length rest)
  then Some (string_of_bytes (take n rest), drop n rest)
  else None.

Definition serialize (c : Commit) : result bytes :=
  if bool_decide (0 ≤ Timestamp c)%Z then
    Ok (put_string (TreeHash c) ++ put_string (ParentCommit c) ++ put_string (Message c)
        ++ replicate (Z.to_nat (Timestamp c)) Byte.x01 ++ [Byte.x00])
  else Err GobError.

Definition deserialize (b : bytes) : result Commit :=
  match
    '(t, b1) ← get_string b ;
    '(p, b2) ← get_string b1 ;
    '(m, b3) ← get_string b2 ;
    '(n, b4) ← get_count b3 ;
    if bool_decide (b4 = []) then
      Some {| TreeHash := t; ParentCommit := p; Message := m; Timestamp := Z.of_nat n |}
    else None
  with
  | Some c => Ok c
  | None => Err GobError
  end.

Definition library : Library := {|
  sha1_Sum := digest;
  lzw_encode := encode;
  lzw_decode := decode;
  gob_Encode := serialize;
  gob_Decode := deserialize;
  rand_source := λ k, k;
  time_String := λ _, "1970-01-01 00:00:00 +0000 UTC"
|}.

Definition empty_world : world :=
  {| tree := ∅; stdout := []; rand_calls := 0; clock := 3; DEBUG := false |}.

(** The state reached by running [m] from [w], whatever it returned. *)
Definition after {A} (m : M A) (w : world) : world := (m w).2.

(** A file written into the working directory by its user. *)
Definition user_write (p : location) (s : string) (w : world) : world :=
  set_tree (<[p := File (bytes_of_string s)]> (tree w)) w.

Definition user_mkdir (p : location) (w : world) : world :=
  set_tree (<[p := Dir]> (tree w)) w.

End Reference.

(** The repository right after [prepareDirs] in an empty directory. *)
Definition fresh_repository : world := Reference.after prepareDirs Reference.empty_world.

(** ** Vocabulary of the statements *)

(** The row a line of a tree object stands for, if it has three fields. *)
Definition entry_of_line (line : string) : option TreeEntry :=
  match strings_Split line "009" with
  | [k; h; n] => Some {| kind := k; hash := h; name := n |}
  | _ => None
  end.

(** A tree text is malformed when one of its lines is not empty and does
    not have exactly three tab-separated fields. *)
Definition malformed_tree_text (text : string) : Prop :=
  ∃ line, line ∈ strings_Split text "010" ∧ line ≠ ""
          ∧ length (strings_Split line "009") ≠ 3.

(** A repository holding, as a tree object, a text with one good row and
    two lines that are not rows. *)
Definition garbled_text : string :=
  "not a row" +:+ nl +:+ tree_row "blob" "ec95eb14f099ef18f49df31cf8a1f720fca5fb24" "a.txt"
  +:+ "blob" +:+ tab +:+ "only two fields" +:+ nl.

Definition garbled_repository : world :=
  Reference.after (createBlob (L := Reference.library) "garbled")
    (Reference.user_write ["garbled"] garbled_text fresh_repository).

Definition garbled_hash : string :=
  match (createBlob (L := Reference.library) "garbled"
           (Reference.user_write ["garbled"] garbled_text fresh_repository)).1 with
  | Done (Ok h) => h
  | _ => ""
  end.

(** The error of the defensive length check in [createBlob]. *)
Definition HashError (n : nat) : error :=
  Errorf "failed to hash file, expected hash length 40 got %v" [ANat n].

(** A library whose digest has no bytes: it does not meet [sha1_Size]. *)
Definition short_digest_library : Library := {|
  sha1_Sum := λ _, [];
  lzw_encode := Reference.encode;
  lzw_decode := Reference.decode;
  gob_Encode := Reference.serialize;
  gob_Decode := Reference.deserialize;
  rand_source := λ k, k;
  time_String := λ _, ""
|}.

(** A working directory with one file, [a.txt], holding [hello]. *)
Definition hello_repository : world :=
  Reference.user_write ["a.txt"] "hello" fresh_repository.

(** A repository in which a regular file sits where the folder of the
    next commit object belongs. *)
Definition blocked_repository : world :=
  Reference.user_write [".gat"; "objects"; "4a"] "" fresh_repository.

Definition nil_dereference : crash :=
  Panic "invalid memory address or nil pointer dereference".

(** The content of the regular file a path names, if it names one. *)
Definition file_at (t : gmap location node) (path : string) : option bytes :=
  p ← resolve path ;
  match stat t p with
  | Some (File c) => Some c
  | _ => None
  end.

(** What the log prints for one commit. *)
Definition log_entry `{L : Library} (h : string) (c : Commit)
  : list (string * list arg * option error) :=
  [("Commit Hash" +:+ tab +:+ ": %v" +:+ nl, [AStr h], None);
   ("%v" +:+ nl, [AStr (Commit_String c)], None)].

Definition print_all (lines : list (string * list arg * option error)) (w : world) : world :=
  World (tree w) (stdout w ++ lines) (rand_calls w) (clock w) (DEBUG w).

(** A history: commits with their hashes, each the parent of the one
    before, down to a root commit, whose parent is empty. *)
Fixpoint linked (l : list (string * Commit)) : Prop :=
  match l with
  | [] => False
  | [(_, c)] => ParentCommit c = ""
  | (_, c) :: (((h', _) :: _) as l') => ParentCommit c = h' ∧ linked l'
  end.

(** [hello_repository] after two commits. *)
Definition one_commit_repository : world :=
  Reference.after (main_commit (L := Reference.library) 9 "first") hello_repository.

Definition two_commit_repository : world :=
  Reference.after (main_commit (L := Reference.library) 9 "second") one_commit_repository.

Definition first_hash : string := "b04ab258b44eb65cb852ba60bc56be64c05ac268".
Definition second_hash : string := "6712c3336b16c7376f1acb3b731ecf3f7722d343".

Definition first_commit : Commit :=
  {| TreeHash := "a74e04fbab5208ffaf560c03b35a1007b75e140b"; ParentCommit := "";
     Message := "first"; Timestamp := 3 |}.

Definition second_commit : Commit :=
  {| TreeHash := "a74e04fbab5208ffaf560c03b35a1007b75e140b"; ParentCommit := first_hash;
     Message := "second"; Timestamp := 3 |}.

Definition HEAD_path : location := [".gat"; "HEAD"].

(** The path of the ref file of a branch, as [createAndSwitchBranch]
    forms it. *)
Definition ref_path (branchName : string) : string :=
  filepath_Join [BASEDIR; "refs"; "heads"; branchName].

Definition branch_exists_message (branchName : string) : string * list arg * option error :=
  ("Branch " +:+ dq +:+ "%v" +:+ dq +:+ " already exists" +:+ nl, [AStr branchName], None).

Definition branch_created_message (branchName : string) : string * list arg * option error :=
  ("Created branch " +:+ dq +:+ "%v" +:+ dq +:+ " and switched to it." +:+ nl,
   [AStr branchName], None).

(** [.gat/HEAD] can be opened for writing: it is a regular file, or it
    does not exist and [.gat] is a directory. *)
Definition HEAD_writable (t : gmap location node) : Prop :=
  match stat t HEAD_path with
  | Some (File _) => True
  | Some Dir => False
  | None => stat t [".gat"] = Some Dir
  end.

Definition set_HEAD (branchName : string) (w : world) : world :=
  set_tree (<[HEAD_path := File (bytes_of_string ("refs/heads/" +:+ branchName))]> (tree w)) w.

(** A name of a directory entry: not empty, without a slash, and neither
    [.] nor [..]. *)
Fixpoint no_slash (s : string) : bool :=
  match s with
  | EmptyString => true
  | String c s' => negb (Ascii.eqb c "/") && no_slash s'
  end.

Definition valid_name (s : string) : Prop :=
  no_slash s = true ∧ s ≠ "" ∧ s ≠ "." ∧ s ≠ "..".

(** The string [randomString n] returns when the random source has been
    called [k] times before. *)
Fixpoint random_chars `{L : Library} (k n : nat) : string :=
  match n with
  | O => ""
  | S n' => String (nth (rand_source k mod length letters) letters "a"%char)
                   (random_chars (S k) n')
  end.

(** The temporary file the next [createBlob], [createTree] or
    [createCommit] will use, as a name and as a location. *)
Definition temp_name `{L : Library} (k : nat) : string := random_chars k 6.

Definition temp_location `{L : Library} (k : nat) : location :=
  [".gat"; "temp"; temp_name k].

(** Where the object of a hash is kept. *)
Definition object_location (h : string) : location :=
  [".gat"; "objects"; string_take 2 h; string_drop 2 h].

Definition object_path (h : string) : string :=
  filepath_Join [BASEDIR; "objects"; string_take 2 h; string_drop 2 h].

(** The hash under which [createBlob] stores a content. *)
Definition checksum_of `{L : Library} (b : bytes) : string :=
  hex_EncodeToString (sha1_Sum b).

(** All the characters of [s] are among [l]. *)
Fixpoint all_in (l : list ascii) (s : string) : bool :=
  match s with
  | EmptyString => true
  | String c s' => bool_decide (c ∈ l) && all_in l s'
  end.

(** A working directory with one empty file. *)
Definition empty_file_repository : world :=
  Reference.user_write ["empty.txt"] "" fresh_repository.

(** The kind a row must have to match a live entry. *)
Definition kind_of (is_dir : bool) : string := if is_dir then "tree" else "blob".

(** A reserved entry: a directory with one of the names of [IGNORE_FOLDERS]. *)
Definition reserved (f : string * bool) : bool :=
  f.2 && slices_Contains IGNORE_FOLDERS f.1.

(** A live entry the prune pass deletes: not reserved, and without a row
    of its name and kind in the target. *)
Definition stale (commitFiles : list TreeEntry) (f : string * bool) : bool :=
  negb (reserved f) && negb (found_in commitFiles (kind_of f.2) f.1).

(** The locations lost when the stale entries of directory [D] are
    deleted: a stale directory with all below it, a stale file alone. *)
Definition deleted (t : gmap location node) (D : location) (commitFiles : list TreeEntry)
    (q : location) : Prop :=
  ∃ n node, t !! (D ++ [n]) = Some node ∧ stale commitFiles (n, is_Dir node) = true
            ∧ if is_Dir node then D ++ [n] `prefix_of` q else q = D ++ [n].

(** The tree after the prune pass over [entries]. *)
Definition prune_entry (D : location) (commitFiles : list TreeEntry)
    (t : gmap location node) (f : string * bool) : gmap location node :=
  if stale commitFiles f then
    if f.2 then remove_subtree t (D ++ [f.1]) else delete (D ++ [f.1]) t
  else t.

Definition pruned (D : location) (commitFiles : list TreeEntry)
    (entries : list (string * bool)) (t : gmap location node) : gmap location node :=
  foldl (prune_entry D commitFiles) t entries.

(** What deleting a stale entry [f] of [D] takes away. *)
Definition hits (D : location) (f : string * bool) (q : location) : Prop :=
  if f.2 then D ++ [f.1] `prefix_of` q else q = D ++ [f.1].

#[global] Instance hits_dec D f q : Decision (hits D f q).
Proof. unfold hits. destruct f.2; apply _. Defined.

(** A hash as [createBlob] returns them, as far as the path of its object
    depends on it: hexadecimal digits, at least three. *)
Definition hex_hash (h : string) : Prop :=
  all_in hextable h = true ∧ 3 ≤ String.length h.

#[global] Instance valid_name_dec s : Decision (valid_name s).
Proof. unfold valid_name. apply _. Defined.

#[global] Instance hex_hash_dec h : Decision (hex_hash h).
Proof. unfold hex_hash. apply _. Defined.

(** [one_commit_repository] after its user changed [a.txt] and added a
    file and a folder, and the rows of the tree of the commit. *)
Definition cluttered_repository : world :=
  Reference.user_write ["junk"; "x"] "y"
    (Reference.user_mkdir ["junk"]
       (Reference.user_write ["extra.txt"] "more"
          (Reference.user_write ["a.txt"] "changed" one_commit_repository))).

Definition committed_rows : list TreeEntry :=
  [{| kind := "blob"; hash := "ec95eb14f099ef18f49df31cf8a1f720fca5fb24"; name := "a.txt" |}].

(** The snapshot of a directory as the specification words it: one row
    per entry that is not a reserved directory, in the order of some
    enumeration of the entries; for a subdirectory the row carries the
    hash of the text of its own snapshot, for a file the hash of its
    content.  [snapshot t D text]: [text] is the row text of a snapshot of
    directory [D] of the tree [t]. *)
Inductive snapshot `{L : Library} (t : gmap location node) : location → string → Prop :=
| snapshot_of_rows D entries text :
    entries ≡ₚ dir_entries t D →
    snapshot_rows t D entries text →
    snapshot t D text
with snapshot_rows `{L : Library} (t : gmap location node)
  : location → list (string * bool) → string → Prop :=
| rows_nil D : snapshot_rows t D [] ""
| rows_reserved D n entries text :
    slices_Contains IGNORE_FOLDERS n = true →
    snapshot_rows t D entries text →
    snapshot_rows t D ((n, true) :: entries) text
| rows_tree D n entries sub text :
    slices_Contains IGNORE_FOLDERS n = false →
    snapshot t (D ++ [n]) sub →
    snapshot_rows t D entries text →
    snapshot_rows t D ((n, true) :: entries)
      (tree_row "tree" (checksum_of (bytes_of_string sub)) n +:+ text)
| rows_blob D n c entries text :
    t !! (D ++ [n]) = Some (File c) →
    snapshot_rows t D entries text →
    snapshot_rows t D ((n, false) :: entries)
      (tree_row "blob" (checksum_of c) n +:+ text).

(** Two trees with the same working files: they agree outside [.gat]. *)
Definition same_work (t t' : gmap location node) : Prop :=
  ∀ q, ¬ [".gat"] `prefix_of` q → t' !! q = t !! q.

(** The names of the [m] temporary files made from the [k]-th call of
    the random source on. *)
Definition drawn `{L : Library} (k m : nat) : list string :=
  map (λ i, temp_name (k + 6 * i)) (seq 0 m).

(** [fuel] is enough to snapshot the directory [folderPath] of tree [t]:
    the path denotes a location outside [.gat], and every working
    location below it has proper names and lies less than [fuel] levels
    down. *)
Definition fits (fuel : nat) (t : gmap location node) (folderPath : string) : Prop :=
  ∃ D, resolve folderPath = Some D ∧ ¬ [".gat"] `prefix_of` D ∧ 1 ≤ fuel
       ∧ ∀ q, D `prefix_of` q → ¬ [".gat"] `prefix_of` q → is_Some (t !! q) →
              Forall valid_name q ∧ length q < length D + fuel.

(** The temporary files other than the [m] made from the [k]-th call of
    the random source on are the same in [t] and [t']. *)
Definition temp_kept `{L : Library} (k m : nat) (t t' : gmap location node) : Prop :=
  ∀ x, x ∉ drawn k m → t' !! [".gat"; "temp"; x] = t !! [".gat"; "temp"; x].

(** What a successful [createTree] with [fuel] has done: [t0] is any
    tree with the working files of the run's start.  The run made [m]
    temporary files; when their names are pairwise different, it
    returned the hash of the snapshot text and stored the text under
    this hash. *)
Definition builds_snapshot `{L : Library} (fuel : nat) : Prop :=
  ∀ folderPath D t0 w h w',
    resolve folderPath = Some D → ¬ [".gat"] `prefix_of` D →
    (D = [] → t0 !! [".gat"] = Some Dir ∧ tree w !! [".gat"] = Some Dir) →
    same_work t0 (tree w) →
    (∀ q, D `prefix_of` q → ¬ [".gat"] `prefix_of` q → is_Some (t0 !! q) →
          Forall valid_name q) →
    createTree fuel folderPath w = (Done (Ok h), w') →
    ∃ m, rand_calls w' = rand_calls w + 6 * m
         ∧ (NoDup (drawn (rand_calls w) m) →
            temp_kept (rand_calls w) m (tree w) (tree w')
            ∧ ∃ text, snapshot t0 D text
                      ∧ h = checksum_of (bytes_of_string text)
                      ∧ tree w' !! object_location h
                        = Some (File (lzw_encode (bytes_of_string text)))).

(** ** The entry point

    [main] after [flag.Parse]: the values of the flags [-debug],
    [-message] and [-objPath] and the positional arguments are its
    parameters; [fuel] bounds the recursive functions it calls. *)

Definition set_DEBUG (b : bool) : M unit :=
  λ w, (Done tt, World (tree w) (stdout w) (rand_calls w) (clock w) b).

Definition os_Exit {A} (code : Z) : M A := crash_with (Exit code).

Definition fmt_Println (s : string) : M unit := fmt_Printf ("%v" +:+ nl) [AStr s] None.

Definition log_Fatal {A} (s : string) : M A := log_Fatalf "%v" [AStr s] None.

Definition addFilesToCommit (paths : list string) : M (result unit) := mret (Ok tt).

Definition index_out_of_range : crash := Panic "index out of range [0] with length 0".

(** [if err != nil { log.Fatalf(format, err) }]. *)
Definition or_Fatalf (format : string) (r : result unit) : M unit :=
  match r with
  | Err err => log_Fatalf format [] (Some err)
  | Ok _ => mret tt
  end.

(** The [switch positionalArgs[0]] of [main]. *)
Definition main_switch `{L : Library} (fuel : nat) (commitMessage objFilePath : string)
    (positionalArgs : list string) : M unit :=
  match positionalArgs with
  | [] => crash_with index_out_of_range
  | command :: arguments =>
      if String_eqb command "add" then
        r ← addFilesToCommit arguments ;
        or_Fatalf ("failed to add files to commit, error : %v" +:+ nl) r
      else if String_eqb command "commit" then main_commit fuel commitMessage
      else if String_eqb command "checkout" then
        match arguments with
        | [] => log_Fatal ("Please provide the branch name you want to switch to, using "
                           +:+ dq +:+ "gogit checkout branch_name" +:+ dq)
        | branchName :: _ =>
            r ← checkoutBranch fuel branchName ;
            or_Fatalf ("failed to revert to commit, error : %v" +:+ nl) r
        end
      else if String_eqb command "revert" then
        match arguments with
        | [] => log_Fatal ("Please provide the commit hash you want to revert to using "
                           +:+ dq +:+ "gogit revert commit_hash" +:+ dq)
        | commitHash :: _ =>
            r ← switchToCommit fuel commitHash ;
            or_Fatalf ("failed to revert to commit, error : %v" +:+ nl) r
        end
      else if String_eqb command "branch" then
        match arguments with
        | [] => log_Fatal ("Please provide the branch name you want to create using "
                           +:+ dq +:+ "gogit branch commit_hash" +:+ dq)
        | branchName :: _ =>
            r ← createAndSwitchBranch branchName ;
            or_Fatalf ("failed to revert to commit, error : %v" +:+ nl) r
        end
      else if String_eqb command "log" then
        r ← printLog fuel ;
        or_Fatalf ("failed to print log, error : %v" +:+ nl) r
      else if String_eqb command "read-obj-file" then
        r ← readObjectFile objFilePath ;
        match r with
        | Err err => log_Fatalf ("failed to read object file, error : %v" +:+ nl) [] (Some err)
        | Ok data =>
            fmt_Printf ("Object file content:" +:+ nl +:+ "%v" +:+ nl)
                       [AStr (string_of_bytes data)] None
        end
      else if String_eqb command "status" then
        _ ← status ; mret tt
      else mret tt
  end.

Definition main `{L : Library} (fuel : nat) (debug : bool) (commitMessage objFilePath : string)
    (positionalArgs : list string) : M unit :=
  _ ← (if debug
       then _ ← set_DEBUG true ; fmt_Printf ("debug mode enabled" +:+ nl +:+ nl) [] None
       else mret tt) ;
  _ ← (if bool_decide (length positionalArgs < 1)
       then fmt_Println "No command provided, please enter -h for help."
       else mret tt) ;
  p ← prepareDirs ;
  match p with
  | Err err =>
      _ ← fmt_Printf ("Failed to create .git folders, err: %v" +:+ nl) [] (Some err) ;
      os_Exit (-1)
  | Ok _ => main_switch fuel commitMessage objFilePath positionalArgs
  end.

(** The commands [main] knows. *)
Definition commands : list string :=
  ["add"; "commit"; "checkout"; "revert"; "branch"; "log"; "read-obj-file"; "status"].

(** ** Vocabulary of the further properties *)



(** What [createBlob] and [readObjectFile] print when a file cannot be
    opened or read. *)
Definition unable_to_read (e : error) : string * list arg * option error :=
  ("unable to read file: %v", [], Some e).

(** The places [prepareDirs] looks after, and the state it establishes:
    the directories of the repository, the ref file of [main], and a
    HEAD that is not empty. *)
Definition main_ref : location := [".gat"; "refs"; "heads"; "main"].

Definition layout : list location :=
  [[".gat"]; [".gat"; "objects"]; [".gat"; "temp"]; [".gat"; "refs"];
   [".gat"; "refs"; "heads"]; main_ref; HEAD_path; [".gat"; "refs"; "tags"]].

Definition laid_out (t : gmap location node) : Prop :=
  t !! [".gat"] = Some Dir ∧ t !! [".gat"; "objects"] = Some Dir
  ∧ t !! [".gat"; "temp"] = Some Dir ∧ t !! [".gat"; "refs"] = Some Dir
  ∧ t !! [".gat"; "refs"; "heads"] = Some Dir ∧ t !! [".gat"; "refs"; "tags"] = Some Dir
  ∧ (∃ c, t !! main_ref = Some (File c))
  ∧ (∃ c, t !! HEAD_path = Some (File c) ∧ c ≠ []).

(** HEAD after [prepareDirs], from what was there before: content is
    kept, an empty or missing HEAD names the ref of [main]. *)
Definition HEAD_after (before : option node) : node :=
  match before with
  | Some (File (x :: c)) => File (x :: c)
  | _ => File (bytes_of_string "refs/heads/main")
  end.

(** [t'] is [t] with entries added at some of [places], and nothing
    else changed. *)
Definition adds (places : list location) (t t' : gmap location node) : Prop :=
  (∀ q n, t !! q = Some n → t' !! q = Some n) ∧ (∀ q, q ∉ places → t' !! q = t !! q).

(** The directories [os.MkdirAll] may have to make for a path. *)
Definition prefixes (p : location) : list location :=
  map (λ k, take k p) (seq 1 (length p)).

(** What a successful [prepareDirs] has done to the file tree. *)
Definition prepared (t t' : gmap location node) : Prop :=
  laid_out t'
  ∧ (∀ q, q ∉ layout → t' !! q = t !! q)
  ∧ (∀ q n, t !! q = Some n → q ≠ HEAD_path ∨ n ≠ File [] → t' !! q = Some n)
  ∧ t' !! HEAD_path = Some (HEAD_after (t !! HEAD_path))
  ∧ (t !! main_ref = None → t' !! main_ref = Some (File [])).

(** A computation that leaves the file tree as it was, whatever its
    outcome. *)
Definition reads_only {A} (m : M A) : Prop := ∀ w, tree (m w).2 = tree w.

(** The ref file of a branch, and a repository whose HEAD names the
    branch [b]. *)
Definition branch_ref (b : string) : location := [".gat"; "refs"; "heads"; b].

Definition on_branch (t : gmap location node) (b : string) : Prop :=
  t !! HEAD_path = Some (File (bytes_of_string ("refs/heads/" +:+ b))) ∧ valid_name b.

(** The commit [createCommit] makes in the world [w]. *)
Definition commit_of (treeHash parentCommitHash message : string) (w : world) : Commit :=
  {| TreeHash := treeHash; ParentCommit := parentCommitHash;
     Message := message; Timestamp := clock w |}.

(** [hello_repository] after its HEAD was deleted. *)
Definition headless_repository : world :=
  set_tree (delete HEAD_path (tree hello_repository)) hello_repository.

(** A computation that returns, without a crash, and changes nothing of
    the world but the file tree. *)
Definition quiet {A} (m : M A) : Prop := ∀ w, ∃ r t, m w = (Done r, set_tree t w).

(** The world [main] hands to [prepareDirs]: [DEBUG] is set and
    announced when the flag is given, and a missing command is
    reported. *)
Definition no_command_message : string * list arg * option error :=
  ("%v" +:+ nl, [AStr "No command provided, please enter -h for help."], None).

Definition main_start (debug : bool) (positionalArgs : list string) (w : world) : world :=
  let w1 := if debug
            then World (tree w) (stdout w ++ [("debug mode enabled" +:+ nl +:+ nl, [], None)])
                       (rand_calls w) (clock w) true
            else w in
  match positionalArgs with
  | [] => print_all [no_command_message] w1
  | _ => w1
  end.

(** What [main] prints when [prepareDirs] fails. *)
Definition prepare_failed (e : error) : string * list arg * option error :=
  ("Failed to create .git folders, err: %v" +:+ nl, [], Some e).

(** The text of a list of rows, as [createTree] writes it, and the
    strings that can be a field of a row: without tab or newline. *)
Definition render (l : list TreeEntry) : string :=
  foldr (λ e acc, tree_row (kind e) (hash e) (name e) +:+ acc) "" l.

Fixpoint free_of (sep : ascii) (s : string) : bool :=
  match s with
  | EmptyString => true
  | String c s' => negb (Ascii.eqb c sep) && free_of sep s'
  end.

Definition plain (s : string) : Prop := free_of "009" s = true ∧ free_of "010" s = true.

#[global] Instance plain_dec s : Decision (plain s).
Proof. unfold plain. apply _. Defined.

(** The name and kind of the live entry a row stands for. *)
Definition entry_of_row (e : TreeEntry) : string * bool :=
  (name e, bool_decide (kind e = "tree")).

(** A stretch of history: commits with their hashes, each the parent of
    the one before, the last one with the parent [last_parent]. *)
Fixpoint chained (l : list (string * Commit)) (last_parent : string) : Prop :=
  match l with
  | [] => False
  | [(_, c)] => ParentCommit c = last_parent
  | (_, c) :: (((h', _) :: _) as l') => ParentCommit c = h' ∧ chained l' last_parent
  end.

(** [two_commit_repository] after the object of its first commit was
    lost. *)
Definition broken_repository : world :=
  set_tree (delete (object_location first_hash) (tree two_commit_repository))
           two_commit_repository.

(** What a successful [createTree] leaves of its temporary files when
    [DEBUG] is off: none of those it made, when their names are pairwise
    different. *)
Definition tidy `{L : Library} (fuel : nat) : Prop :=
  ∀ folderPath D t0 w h w' m,
    resolve folderPath = Some D → ¬ [".gat"] `prefix_of` D →
    (D = [] → t0 !! [".gat"] = Some Dir ∧ tree w !! [".gat"] = Some Dir) →
    same_work t0 (tree w) →
    (∀ q, D `prefix_of` q → ¬ [".gat"] `prefix_of` q → is_Some (t0 !! q) →
          Forall valid_name q) →
    createTree fuel folderPath w = (Done (Ok h), w') →
    rand_calls w' = rand_calls w + 6 * m →
    NoDup (drawn (rand_calls w) m) →
    DEBUG w = false →
    DEBUG w' = false
    ∧ ∀ x, x ∈ drawn (rand_calls w) m → tree w' !! [".gat"; "temp"; x] = None.


(** The locations met on the way from [made] down the names [rest], the
    last one included. *)
Fixpoint below (made rest : location) : list location :=
  match rest with
  | [] => []
  | c :: rest' => (made ++ [c]) :: below (made ++ [c]) rest'
  end.

Definition is_regular (n : option node) : bool :=
  match n with
  | Some (File _) => true
  | _ => false
  end.

(** A name the kernel takes for an entry of a directory: at most 255
    bytes, none of them zero. *)
Definition entry_name (n : string) : Prop :=
  String.length n ≤ 255 ∧ "000"%char ∉ String.list_ascii_of_string n.

#[global] Instance entry_name_dec n : Decision (entry_name n).
Proof. unfold entry_name. apply _. Defined.

(** [path] names nothing, in the plainest way: it is spelled as the names
    of a location of the working directory joined by slashes (no piece of
    it is empty, [.] or [..]), the kernel takes it (less than 4096 bytes,
    every piece the name of an entry), nothing is at that location, and no
    regular file is met on the way to it.  The walk of the kernel down
    these names then ends at a name that a directory lacks. *)
Definition names_nothing (t : gmap location node) (path : string) : Prop :=
  resolve path = Some (strings_Split path "/")
  ∧ String.length path < 4096
  ∧ Forall entry_name (strings_Split path "/")
  ∧ stat t (strings_Split path "/") = None
  ∧ Forall (λ q, is_regular (t !! q) = false) (below [] (strings_Split path "/")).

#[global] Instance names_nothing_dec t path : Decision (names_nothing t path).
Proof. unfold names_nothing. apply _. Defined.



(** The object store and the scratch directory as the program keeps
    them: [.gat] and [.gat/temp] are directories, and what there is at
    [.gat/objects] are folders, with no directory directly inside them. *)
Definition store_ok (t : gmap location node) : Prop :=
  t !! [".gat"] = Some Dir ∧ t !! [".gat"; "temp"] = Some Dir
  ∧ map_Forall (λ q n, [".gat"; "objects"] `prefix_of` q →
                       (length q ≤ 3 → n = Dir) ∧ (length q = 4 → is_Dir n = false)) t.

#[global] Instance store_ok_dec t : Decision (store_ok t).
Proof. unfold store_ok. apply _. Defined.

(** The names of the [m] temporary files made from the [k]-th call of
    the random source on are pairwise different, and none of them is the
    name of a temporary file of [t]. *)
Definition unused `{L : Library} (t : gmap location node) (k m : nat) : Prop :=
  NoDup (drawn k m) ∧ Forall (λ x, t !! [".gat"; "temp"; x] = None) (drawn k m).

#[global] Instance unused_dec `{L : Library} t k m : Decision (unused t k m).
Proof. unfold unused. apply _. Defined.


(** * Properties *)

(** ** Running monadic code *)

(** Closed equations between results and worlds are decided by running
    the model. *)
Ltac evaluate :=
  match goal with
  | |- ?P => apply (bool_decide_eq_true_1 P); vm_compute; reflexivity
  end.

Lemma bind_Done {A B} (m : M A) (f : A → M B) w a w' :
  m w = (Done a, w') → (m ≫= f) w = f a w'.
Proof. intros E. unfold mbind, M_bind. by rewrite E. Qed.

Lemma bind_Crash {A B} (m : M A) (f : A → M B) w c w' :
  m w = (Crash c, w') → (m ≫= f) w = (Crash c, w').
Proof. intros E. unfold mbind, M_bind. by rewrite E. Qed.

Lemma bind_inv_Done {A B} (m : M A) (f : A → M B) w b w2 :
  (m ≫= f) w = (Done b, w2) →
  ∃ a w1, m w = (Done a, w1) ∧ f a w1 = (Done b, w2).
Proof.
  unfold mbind, M_bind. destruct (m w) as [[a|c|] w1]; intros E; try discriminate.
  by exists a, w1.
Qed.

Lemma try_Ok {A B} (m : M (result A)) (k : A → M (result B)) w a w' :
  m w = (Done (Ok a), w') → try_ m k w = k a w'.
Proof. intros E. unfold try_. by rewrite (bind_Done _ _ _ _ _ E). Qed.

Lemma try_Err {A B} (m : M (result A)) (k : A → M (result B)) w e w' :
  m w = (Done (Err e), w') → try_ m k w = (Done (Err e), w').
Proof. intros E. unfold try_. by rewrite (bind_Done _ _ _ _ _ E). Qed.

Lemma try_inv_Ok {A B} (m : M (result A)) (k : A → M (result B)) w b w2 :
  try_ m k w = (Done (Ok b), w2) →
  ∃ a w1, m w = (Done (Ok a), w1) ∧ k a w1 = (Done (Ok b), w2).
Proof.
  unfold try_. intros (r & w1 & E1 & E2)%bind_inv_Done.
  destruct r as [a|e]; [by exists a, w1 | discriminate].
Qed.

(** ** Short hashes (C10) *)

Lemma getObjectPath_short hash w :
  String.length hash < 2 →
  getObjectPath hash w = (Crash (Panic "slice bounds out of range"), w).
Proof. intros Hlen. unfold getObjectPath. by rewrite bool_decide_eq_true_2. Qed.

Lemma getObjectPath_long hash w :
  2 ≤ String.length hash →
  getObjectPath hash w =
    (Done (filepath_Join [BASEDIR; "objects"; string_take 2 hash; string_drop 2 hash]), w).
Proof. intros Hlen. unfold getObjectPath. rewrite bool_decide_eq_false_2; [done | lia]. Qed.

Lemma readCommit_short `{L : Library} hash w :
  String.length hash < 2 →
  readCommit hash w = (Crash (Panic "slice bounds out of range"), w).
Proof.
  intros Hlen. unfold readCommit.
  by rewrite (bind_Crash _ _ _ _ _ (getObjectPath_short hash w Hlen)).
Qed.

(** C10: the path of an object is derived by slicing the hash at two
    bytes, so it exists exactly for hashes of at least two bytes.  On the
    empty hash, which is what the ref file of a branch without commits
    holds, reading a commit panics; so does the log whenever the current
    head is empty, and the revert of the empty hash.  None of them returns
    an error. *)
Theorem empty_hash_panics `{L : Library} :
  (∀ hash w, String.length hash < 2 →
     getObjectPath hash w = (Crash (Panic "slice bounds out of range"), w))
  ∧ (∀ hash w, 2 ≤ String.length hash → ∃ p, getObjectPath hash w = (Done p, w))
  ∧ (∀ w, readCommit "" w = (Crash (Panic "slice bounds out of range"), w))
  ∧ (∀ fuel w w', getCurrentHead w = (Done (Ok ""), w') →
       printLog (S fuel) w = (Crash (Panic "slice bounds out of range"), w'))
  ∧ (∀ fuel w, switchToCommit fuel "" w = (Crash (Panic "slice bounds out of range"), w)).
Proof.
  split_and!.
  - apply getObjectPath_short.
  - intros hash w Hlen. eexists. by apply getObjectPath_long.
  - intros w. apply readCommit_short. simpl. lia.
  - intros fuel w w' Hhead. unfold printLog.
    rewrite (try_Ok _ _ _ _ _ Hhead). simpl.
    unfold try_. apply bind_Crash, readCommit_short. simpl. lia.
  - intros fuel w. unfold switchToCommit, try_.
    apply bind_Crash, readCommit_short. simpl. lia.
Qed.

(** In a fresh repository the current head is the empty hash, and the
    log panics. *)
Lemma fresh_repository_log_panics :
  getCurrentHead fresh_repository = (Done (Ok ""), fresh_repository)
  ∧ printLog (L := Reference.library) 1 fresh_repository
    = (Crash (Panic "slice bounds out of range"), fresh_repository).
Proof.
  assert (Hhead : getCurrentHead fresh_repository = (Done (Ok ""), fresh_repository))
    by evaluate.
  split; [exact Hhead |].
  exact (proj1 (proj2 (proj2 (proj2 (@empty_hash_panics Reference.library))))
           0 fresh_repository fresh_repository Hhead).
Defined.

(** ** Reading a tree (C7) *)

Lemma readTree_loop_omap lines res :
  readTree_loop lines res = res ++ omap entry_of_line lines.
Proof.
  revert res. induction lines as [|line lines IH]; intros res; simpl.
  - by rewrite app_nil_r.
  - unfold entry_of_line.
    destruct (strings_Split line "009") as [|k [|h [|n [|? ?]]]]; rewrite IH; try done.
    by rewrite <- app_assoc.
Qed.

(** C7, as the code has it: [readTree] never rejects a text.  Whenever the
    object can be loaded the call succeeds, and its rows are the lines
    with exactly three tab-separated fields, in order; every other line is
    skipped. *)
Theorem readTree_skips_malformed `{L : Library} treeHash objectPath content w w' :
  getObjectPath treeHash w = (Done objectPath, w) →
  readObjectFile objectPath w = (Done (Ok content), w') →
  readTree treeHash w
  = (Done (Ok (omap entry_of_line (strings_Split (string_of_bytes content) "010"))), w').
Proof.
  intros Hpath Hload. unfold readTree.
  rewrite (bind_Done _ _ _ _ _ Hpath), (try_Ok _ _ _ _ _ Hload).
  by rewrite readTree_loop_omap.
Qed.

Lemma readTree_skips_malformed_witness :
  getObjectPath garbled_hash garbled_repository
  = (Done ".gat/objects/93/bc808697c0848a9bc4888e9fc88c92a3cc9096", garbled_repository)
  ∧ readObjectFile (L := Reference.library)
      ".gat/objects/93/bc808697c0848a9bc4888e9fc88c92a3cc9096" garbled_repository
    = (Done (Ok (bytes_of_string garbled_text)), garbled_repository)
  ∧ readTree (L := Reference.library) garbled_hash garbled_repository
    = (Done (Ok (omap entry_of_line
                   (strings_Split (string_of_bytes (bytes_of_string garbled_text)) "010"))),
       garbled_repository).
Proof.
  assert (Hpath : getObjectPath garbled_hash garbled_repository
          = (Done ".gat/objects/93/bc808697c0848a9bc4888e9fc88c92a3cc9096", garbled_repository))
    by evaluate.
  assert (Hload : readObjectFile (L := Reference.library)
            ".gat/objects/93/bc808697c0848a9bc4888e9fc88c92a3cc9096" garbled_repository
          = (Done (Ok (bytes_of_string garbled_text)), garbled_repository))
    by evaluate.
  exact (conj Hpath (conj Hload
           (readTree_skips_malformed (L := Reference.library) _ _ _ _ _ Hpath Hload))).
Defined.

(** C7 as stated fails: the text stored under [garbled_hash] is malformed,
    and deserializing it succeeds. *)
Lemma readTree_accepts_malformed :
  malformed_tree_text garbled_text
  ∧ (readObjectFile (L := Reference.library)
       ".gat/objects/93/bc808697c0848a9bc4888e9fc88c92a3cc9096" garbled_repository).1
    = Done (Ok (bytes_of_string garbled_text))
  ∧ ∃ rows, (readTree (L := Reference.library) garbled_hash garbled_repository).1
            = Done (Ok rows).
Proof.
  split_and!.
  - exists "not a row". split_and!.
    + vm_compute. apply list_elem_of_here.
    + discriminate.
    + vm_compute. lia.
  - vm_compute. reflexivity.
  - eexists. vm_compute. reflexivity.
Qed.

(** ** Hashing and the copying loop *)

Lemma hex_EncodeToString_length src :
  String.length (hex_EncodeToString src) = 2 * length src.
Proof. induction src as [|v src IH]; simpl; [done | rewrite IH; lia]. Qed.

Lemma file_Reads_concat fuel n c :
  0 < n → length c ≤ fuel → concat (file_Reads fuel n c) = c.
Proof.
  intros Hn. revert c. induction fuel as [|fuel IH]; intros c Hlen.
  - destruct c; [done | simpl in Hlen; lia].
  - destruct c as [|b c]; [done |].
    change (file_Reads (S fuel) n (b :: c))
      with (take n (b :: c) :: file_Reads fuel n (drop n (b :: c))).
    rewrite concat_cons, IH, take_drop; [done |].
    rewrite length_drop. simpl in *. lia.
Qed.

Lemma createBlob_loop_concat reads hasher lzwWriter :
  createBlob_loop reads hasher lzwWriter
  = (hasher ++ concat reads, lzwWriter ++ concat reads).
Proof.
  revert hasher lzwWriter. induction reads as [|buf reads IH]; intros h z; simpl.
  - by rewrite !app_nil_r.
  - case_bool_decide as Hbuf; rewrite IH.
    + by rewrite <- !app_assoc.
    + destruct buf; [done | simpl in Hbuf; lia].
Qed.

(** Both the hasher and the LZW writer are given the file, whole. *)
Lemma createBlob_loop_whole c :
  createBlob_loop (file_Reads (length c) 1024 c) [] [] = (c, c).
Proof. rewrite createBlob_loop_concat, file_Reads_concat; [done | lia | done]. Qed.

(** ** What the system calls do *)

Lemma set_tree_id w : set_tree (tree w) w = w.
Proof. by destruct w. Qed.

Lemma tree_set_tree t w : tree (set_tree t w) = t.
Proof. done. Qed.

Ltac unfold_prim :=
  unfold os_Open, os_Create, os_OpenFile, os_ReadFile, os_MkdirAll, os_Rename, os_Remove,
    os_RemoveAll, file_ReadAll, file_Read, file_Write, file_WriteString, file_Readdir,
    lzwWriter_Close, fmt_Printf, get_DEBUG, when_DEBUG, time_Now_Unix,
    try_, get_tree, put_tree, mbind, M_bind, mret, M_ret.

Lemma os_Open_cases name w :
  (∃ p, resolve name = Some p ∧ is_Some (stat (tree w) p)
        ∧ os_Open name w = (Done (Ok p), w))
  ∨ (∃ e, os_Open name w = (Done (Err (PathError "open" name e)), w)).
Proof.
  unfold_prim. destruct (resolve name) as [p|]; [| right; eauto].
  destruct (stat (tree w) p) as [[c|]|] eqn:Hst; simpl; eauto 10.
Qed.

Lemma os_Create_cases name w :
  (∃ p, resolve name = Some p ∧ stat (tree w) p ≠ Some Dir
        ∧ os_Create name w = (Done (Ok p), set_tree (<[p := File []]> (tree w)) w))
  ∨ (∃ e, os_Create name w = (Done (Err (PathError "open" name e)), w)).
Proof.
  unfold_prim. destruct (resolve name) as [p|]; [| right; eauto].
  destruct (stat (tree w) p) as [[c|]|] eqn:Hst; simpl; [left | right | ]; eauto.
  - exists p. by rewrite Hst.
  - destruct (stat (tree w) (parent p)) as [[c|]|]; [right | left | right]; eauto.
    exists p. by rewrite Hst.
Qed.

Lemma file_ReadAll_cases f w :
  (∃ c, file_ReadAll f w = (Done (Ok c), w)
        ∧ (stat (tree w) f = Some (File c) ∨ (stat (tree w) f = None ∧ c = [])))
  ∨ (∃ e, stat (tree w) f = Some Dir
          ∧ file_ReadAll f w = (Done (Err (PathError "read" (strings_Join f "/") e)), w)).
Proof.
  unfold_prim. destruct (stat (tree w) f) as [[c|]|]; [left | right | left]; eauto 10.
Qed.

Lemma randomString_run `{L : Library} n w :
  ∃ s, randomString n w
       = (Done s, World (tree w) (stdout w) (n + rand_calls w) (clock w) (DEBUG w)).
Proof.
  revert w. induction n as [|n IH]; intros w.
  - exists "". by destruct w.
  - simpl. unfold mbind, M_bind, rand_Intn at 1.
    destruct (IH (World (tree w) (stdout w) (S (rand_calls w)) (clock w) (DEBUG w)))
      as [s Hs]. rewrite Hs. simpl.
    eexists. unfold mret, M_ret. do 3 f_equal. lia.
Qed.

Lemma file_Write_run f data w :
  file_Write f data w
  = (Done (Ok tt),
     set_tree (match stat (tree w) f with
               | Some (File c) => <[f := File (c ++ data)]> (tree w)
               | _ => tree w
               end) w).
Proof.
  unfold_prim. destruct (stat (tree w) f) as [[c|]|]; simpl; by rewrite ?set_tree_id.
Qed.

Lemma lzwWriter_Close_run `{L : Library} dst written w :
  lzwWriter_Close dst written w
  = (Done tt,
     set_tree (match stat (tree w) dst with
               | Some (File c) => <[dst := File (c ++ lzw_encode written)]> (tree w)
               | _ => tree w
               end) w).
Proof. unfold lzwWriter_Close. by rewrite (bind_Done _ _ _ _ _ (file_Write_run _ _ _)). Qed.

Lemma bind_fmt_Printf {B} format args err (f : unit → M B) w :
  (fmt_Printf format args err ≫= f) w
  = f tt (World (tree w) (stdout w ++ [(format, args, err)]) (rand_calls w) (clock w)
                (DEBUG w)).
Proof. done. Qed.

Lemma bind_lzwWriter_Close `{L : Library} {B} dst written (f : unit → M B) w :
  (lzwWriter_Close dst written ≫= f) w
  = f tt (set_tree (match stat (tree w) dst with
                    | Some (File c) => <[dst := File (c ++ lzw_encode written)]> (tree w)
                    | _ => tree w
                    end) w).
Proof. by rewrite (bind_Done _ _ _ _ _ (lzwWriter_Close_run _ _ _)). Qed.

(** Symbolic execution: [E] is the run of the first call in [H] or in
    the goal. *)
Ltac step_in H E :=
  first [ rewrite (try_Ok _ _ _ _ _ E) in H
        | rewrite (try_Err _ _ _ _ _ E) in H
        | rewrite (bind_Done _ _ _ _ _ E) in H
        | rewrite (bind_Crash _ _ _ _ _ E) in H ];
  cbv beta iota zeta in H.

Ltac step E :=
  first [ rewrite (try_Ok _ _ _ _ _ E)
        | rewrite (try_Err _ _ _ _ _ E)
        | rewrite (bind_Done _ _ _ _ _ E)
        | rewrite (bind_Crash _ _ _ _ _ E) ];
  cbv beta iota zeta.

Lemma getObjectFolderPath_cases checksum w :
  (String.length checksum < 2
   ∧ getObjectFolderPath checksum w = (Crash (Panic "slice bounds out of range"), w))
  ∨ (2 ≤ String.length checksum
     ∧ getObjectFolderPath checksum w
       = (Done (filepath_Join [BASEDIR; "objects"; string_take 2 checksum]), w)).
Proof.
  unfold getObjectFolderPath. case_bool_decide; [left | right]; split; try done; lia.
Qed.

Lemma getObjectPath_cases checksum w :
  (String.length checksum < 2
   ∧ getObjectPath checksum w = (Crash (Panic "slice bounds out of range"), w))
  ∨ (2 ≤ String.length checksum
     ∧ getObjectPath checksum w
       = (Done (filepath_Join [BASEDIR; "objects"; string_take 2 checksum;
                               string_drop 2 checksum]), w)).
Proof.
  unfold getObjectPath. case_bool_decide; [left | right]; split; try done; lia.
Qed.

Lemma os_MkdirAll_cases name w :
  (∃ p t', resolve name = Some p ∧ mkdir_all (tree w) [] p = Some t'
           ∧ os_MkdirAll name w = (Done (Ok tt), set_tree t' w))
  ∨ (∃ e, os_MkdirAll name w = (Done (Err (PathError "mkdir" name e)), w)).
Proof.
  unfold_prim. destruct (resolve name) as [p|]; [| right; eauto].
  destruct (mkdir_all (tree w) [] p) as [t'|] eqn:Hmk; [left | right]; eauto.
Qed.

Lemma os_Rename_file_cases oldname newname o c w :
  resolve oldname = Some o → tree w !! o = Some (File c) →
  (∃ n, resolve newname = Some n ∧ stat (tree w) (parent n) = Some Dir
        ∧ stat (tree w) n ≠ Some Dir
        ∧ os_Rename oldname newname w
          = (Done (Ok tt), set_tree (<[n := File c]> (delete o (tree w))) w))
  ∨ (∃ e, os_Rename oldname newname w = (Done (Err (PathError "rename" oldname e)), w)).
Proof.
  intros Ho Hc. unfold_prim. rewrite Ho.
  destruct (resolve newname) as [n|]; [| right; eauto].
  destruct (stat (tree w) (parent n)) as [[?|]|] eqn:Hp; [right; eauto | | right; eauto].
  destruct o as [|o1 o]; [right; eauto |]. rewrite Hc.
  destruct (stat (tree w) n) as [[?|]|] eqn:Hn; [left | right | left]; eauto;
    exists n; by rewrite Hn.
Qed.

Lemma os_Rename_result oldname newname w :
  ∃ r w', os_Rename oldname newname w = (Done r, w')
          ∧ ∀ e, r = Err e → ∃ x, e = PathError "rename" oldname x.
Proof.
  unfold_prim.
  repeat (first [ match goal with
                  | |- context [match ?x with _ => _ end] => destruct x eqn:?
                  | |- context [if ?x then _ else _] => destruct x eqn:?
                  end ]);
    do 2 eexists; (split; [reflexivity |]); intros ? [=]; subst; eauto.
Qed.

(** ** The length check on the digest (C9) *)

(** C9: [createBlob] fails with the hash error exactly in the runs that
    reach the digest with a hexadecimal form whose length is not 40; the
    digest of crypto/sha1 has 20 bytes, its hexadecimal form 40
    characters, and no run fails with that error. *)
Theorem createBlob_hash_check `{L : Library} path w :
  (∀ n, (createBlob path w).1 = Done (Err (HashError n))
        ↔ ∃ f rnd w1 t w2 c,
            os_Open path w = (Done (Ok f), w)
            ∧ randomString 6 w = (Done rnd, w1)
            ∧ os_Create (BASEDIR +:+ "/temp/" +:+ rnd) w1 = (Done (Ok t), w2)
            ∧ file_ReadAll f w2 = (Done (Ok c), w2)
            ∧ n = String.length (hex_EncodeToString (sha1_Sum c))
            ∧ n ≠ 40)
  ∧ (sha1_Size L → ∀ n, (createBlob path w).1 ≠ Done (Err (HashError n))).
Proof.
  assert (Hiff : ∀ n, (createBlob path w).1 = Done (Err (HashError n))
        ↔ ∃ f rnd w1 t w2 c,
            os_Open path w = (Done (Ok f), w)
            ∧ randomString 6 w = (Done rnd, w1)
            ∧ os_Create (BASEDIR +:+ "/temp/" +:+ rnd) w1 = (Done (Ok t), w2)
            ∧ file_ReadAll f w2 = (Done (Ok c), w2)
            ∧ n = String.length (hex_EncodeToString (sha1_Sum c))
            ∧ n ≠ 40).
  { intros n. unfold createBlob. split.
    - intros Hrun.
      destruct (os_Open_cases path w) as [(f & _ & _ & Hopen)|(e & Hopen)];
        step_in Hrun Hopen.
      2: { rewrite bind_fmt_Printf in Hrun. discriminate. }
      destruct (randomString_run 6 w) as [rnd Hrnd]. step_in Hrun Hrnd.
      set (w1 := World _ _ _ _ _) in *.
      destruct (os_Create_cases (BASEDIR +:+ "/temp/" +:+ rnd) w1)
        as [(t & _ & _ & Hcreate)|(e & Hcreate)]; step_in Hrun Hcreate.
      2: discriminate.
      set (w2 := set_tree _ w1) in *.
      destruct (file_ReadAll_cases f w2) as [(c & Hread & _)|(e & _ & Hread)];
        step_in Hrun Hread.
      2: { rewrite bind_fmt_Printf, bind_lzwWriter_Close in Hrun. discriminate. }
      rewrite createBlob_loop_whole in Hrun. cbv beta iota zeta in Hrun.
      rewrite bind_lzwWriter_Close in Hrun.
      set (w3 := set_tree _ w2) in *.
      case_bool_decide as Hlen.
      + injection Hrun as <-. exists f, rnd, w1, t, w2, c. by repeat split.
      + destruct (getObjectFolderPath_cases (hex_EncodeToString (sha1_Sum c)) w3)
          as [[_ Hfolder]|[_ Hfolder]]; step_in Hrun Hfolder; [discriminate |].
        match type of Hrun with context [os_MkdirAll ?d] =>
          destruct (os_MkdirAll_cases d w3) as [(p & t' & _ & _ & Hmk)|(e & Hmk)] end;
          step_in Hrun Hmk; [| discriminate].
        set (w4 := set_tree _ w3) in *.
        destruct (getObjectPath_cases (hex_EncodeToString (sha1_Sum c)) w4)
          as [[_ Hobj]|[_ Hobj]]; step_in Hrun Hobj; [discriminate |].
        match type of Hrun with context [os_Rename ?a ?b] =>
          destruct (os_Rename_result a b w4) as (r & w5 & Hren & Herr) end.
        destruct r as [[]|e]; step_in Hrun Hren; [discriminate |].
        destruct (Herr e eq_refl) as [x ->]. discriminate.
    - intros (f & rnd & w1 & t & w2 & c & Hopen & Hrnd & Hcreate & Hread & -> & Hlen).
      step Hopen. step Hrnd. step Hcreate. step Hread.
      rewrite createBlob_loop_whole. cbv beta iota zeta.
      rewrite bind_lzwWriter_Close. by rewrite bool_decide_eq_true_2. }
  split; [exact Hiff |].
  intros Hsize n (f & rnd & w1 & t & w2 & c & _ & _ & _ & _ & -> & Hlen)%Hiff.
  rewrite hex_EncodeToString_length, Hsize in Hlen. lia.
Qed.

Lemma Reference_sha1_Size : sha1_Size Reference.library.
Proof.
  intros b. change (length (Reference.digest b) = 20).
  unfold Reference.digest. by rewrite length_map, length_seq.
Qed.

Lemma createBlob_hash_check_witness :
  sha1_Size Reference.library
  ∧ ∀ n, (createBlob (L := Reference.library) "a.txt" hello_repository).1
         ≠ Done (Err (HashError n)).
Proof.
  exact (conj Reference_sha1_Size
           (proj2 (createBlob_hash_check (L := Reference.library) "a.txt" hello_repository)
                  Reference_sha1_Size)).
Defined.

(** With a digest of another length the check does fail the call. *)
Example createBlob_short_digest :
  (createBlob (L := short_digest_library) "a.txt" hello_repository).1
  = Done (Err (HashError 0)).
Proof. evaluate. Qed.

(** ** Failures of [createCommit] (C8) *)

Lemma createCommit_serialize_fails `{L : Library} treeHash parentCommitHash message w
    rnd w1 tempFile w2 err :
  randomString 6 w = (Done rnd, w1) →
  os_Create (BASEDIR +:+ "/temp/" +:+ rnd) w1 = (Done (Ok tempFile), w2) →
  gob_Encode {| TreeHash := treeHash; ParentCommit := parentCommitHash;
                Message := message; Timestamp := clock w |} = Err err →
  createCommit treeHash parentCommitHash message w
  = (Done (Err (Errorf_err "failed to seriliaze commit, error %v" [] err)), w2).
Proof.
  intros Hrnd Hcreate Hgob. unfold createCommit.
  change (time_Now_Unix ≫= ?f) with (λ w, f (clock w) w). cbv beta.
  step Hrnd. step Hcreate. by rewrite Hgob.
Qed.

(** C8, where the code departs from it: when the commit object cannot
    be stored, [createCommit] does not return the error of [createBlob];
    it dereferences the nil hash first and the process panics. *)
Theorem createCommit_store_fails `{L : Library} treeHash parentCommitHash message w
    rnd w1 tempFile w2 encoded w3 err w4 :
  randomString 6 w = (Done rnd, w1) →
  os_Create (BASEDIR +:+ "/temp/" +:+ rnd) w1 = (Done (Ok tempFile), w2) →
  gob_Encode {| TreeHash := treeHash; ParentCommit := parentCommitHash;
                Message := message; Timestamp := clock w |} = Ok encoded →
  file_Write tempFile encoded w2 = (Done (Ok tt), w3) →
  createBlob (BASEDIR +:+ "/temp/" +:+ rnd) w3 = (Done (Err err), w4) →
  createCommit treeHash parentCommitHash message w = (Crash nil_dereference, w4).
Proof.
  intros Hrnd Hcreate Hgob Hwrite Hstore. unfold createCommit.
  change (time_Now_Unix ≫= ?f) with (λ w, f (clock w) w). cbv beta.
  step Hrnd. step Hcreate. rewrite Hgob. step Hwrite. by step Hstore.
Qed.

(** The failing run: the folder of the object is taken by a file. *)
Lemma createCommit_store_fails_witness :
  let L := Reference.library in
  let w := blocked_repository in
  let w1 := Reference.after (randomString 6) w in
  let w2 := Reference.after (os_Create "./.gat/temp/abcdef") w1 in
  let encoded := Reference.put_string "" ++ Reference.put_string ""
                 ++ Reference.put_string "first" ++ replicate 3 Byte.x01 ++ [Byte.x00] in
  let w3 := Reference.after (file_Write [".gat"; "temp"; "abcdef"] encoded) w2 in
  let w4 := Reference.after (createBlob "./.gat/temp/abcdef") w3 in
  let err := Errorf ("failed to create blob subfolder " +:+ dq +:+ "%v" +:+ dq)
                    [AStr ".gat/objects/4a"] in
  createBlob "./.gat/temp/abcdef" w3 = (Done (Err err), w4)
  ∧ createCommit "" "" "first" w = (Crash nil_dereference, w4).
Proof.
  intros L w w1 w2 encoded w3 w4 err.
  assert (Hrnd : randomString 6 w = (Done "abcdef", w1)) by evaluate.
  assert (Hcreate : os_Create (BASEDIR +:+ "/temp/" +:+ "abcdef") w1
                    = (Done (Ok [".gat"; "temp"; "abcdef"]), w2)) by evaluate.
  assert (Hgob : gob_Encode {| TreeHash := ""; ParentCommit := ""; Message := "first";
                               Timestamp := clock w |} = Ok encoded) by evaluate.
  assert (Hwrite : file_Write [".gat"; "temp"; "abcdef"] encoded w2 = (Done (Ok tt), w3))
    by evaluate.
  assert (Hstore : createBlob (BASEDIR +:+ "/temp/" +:+ "abcdef") w3 = (Done (Err err), w4))
    by evaluate.
  exact (conj Hstore
           (createCommit_store_fails "" "" "first" w "abcdef" w1 _ w2 encoded w3 err w4
              Hrnd Hcreate Hgob Hwrite Hstore)).
Defined.

(** ** Loading objects *)

Lemma readObjectFile_Ok `{L : Library} path w data w' :
  readObjectFile path w = (Done (Ok data), w')
  ↔ w' = w ∧ ∃ c, file_at (tree w) path = Some c ∧ lzw_decode c = (data, true).
Proof.
  unfold readObjectFile, file_at. split.
  - intros Hrun.
    destruct (os_Open_cases path w) as [(p & -> & _ & Hopen)|(e & Hopen)];
      step_in Hrun Hopen; [| rewrite bind_fmt_Printf in Hrun; discriminate].
    destruct (file_ReadAll_cases p w) as [(c & Hread & Hst)|(e & _ & Hread)];
      step_in Hrun Hread; [| rewrite bind_fmt_Printf in Hrun; discriminate].
    destruct (os_Open_cases path w) as [(p' & Hres & [n Hn] & Hopen')|(e & Hopen')];
      [| congruence].
    destruct Hst as [Hst|[Hst ->]]; [| congruence].
    destruct (lzw_decode c) as [d [|]] eqn:Hdec;
      [| rewrite bind_fmt_Printf in Hrun; discriminate].
    injection Hrun as <- <-. split; [done |]. exists c. simpl. by rewrite Hst.
  - intros [-> (c & Hfile & Hdec)].
    destruct (resolve path) as [p|] eqn:Hres; [| discriminate]. simpl in Hfile.
    destruct (stat (tree w) p) as [[c'|]|] eqn:Hst; try discriminate.
    injection Hfile as ->.
    assert (Hopen : os_Open path w = (Done (Ok p), w)).
    { unfold_prim. by rewrite Hres, Hst. }
    assert (Hread : file_ReadAll p w = (Done (Ok c), w)).
    { unfold_prim. by rewrite Hst. }
    step Hopen. step Hread. by rewrite Hdec.
Qed.

Lemma readCommit_Ok `{L : Library} commitHash w commit w' :
  readCommit commitHash w = (Done (Ok commit), w')
  ↔ w' = w ∧ 2 ≤ String.length commitHash
    ∧ ∃ c data,
        file_at (tree w) (filepath_Join [BASEDIR; "objects"; string_take 2 commitHash;
                                         string_drop 2 commitHash]) = Some c
        ∧ lzw_decode c = (data, true) ∧ gob_Decode data = Ok commit.
Proof.
  unfold readCommit. split.
  - intros Hrun.
    destruct (getObjectPath_cases commitHash w) as [[_ Hp]|[Hlen Hp]];
      step_in Hrun Hp; [discriminate |].
    apply try_inv_Ok in Hrun as (data & w1 & Hload & Hrun).
    apply readObjectFile_Ok in Hload as [-> (c & Hfile & Hdec)].
    destruct (gob_Decode data) as [commit'|] eqn:Hgob; [| discriminate].
    injection Hrun as <- <-. eauto 10.
  - intros (-> & Hlen & c & data & Hfile & Hdec & Hgob).
    rewrite (bind_Done _ _ _ _ _ (getObjectPath_long _ w Hlen)).
    assert (Hload : readObjectFile (filepath_Join [BASEDIR; "objects";
                      string_take 2 commitHash; string_drop 2 commitHash]) w
                    = (Done (Ok data), w)) by (apply readObjectFile_Ok; eauto).
    step Hload. by rewrite Hgob.
Qed.

(** Reading a commit depends on the file tree only. *)
Lemma readCommit_same_tree `{L : Library} commitHash w commit w2 :
  readCommit commitHash w = (Done (Ok commit), w) → tree w2 = tree w →
  readCommit commitHash w2 = (Done (Ok commit), w2).
Proof.
  intros (_ & Hlen & Hload)%readCommit_Ok Htree. apply readCommit_Ok.
  rewrite Htree. eauto.
Qed.

(** ** Walking the history (C3) *)

Lemma printLog_loop_history `{L : Library} l : ∀ fuel h c w,
  linked ((h, c) :: l) →
  (∀ h' c', (h', c') ∈ (h, c) :: l → readCommit h' w = (Done (Ok c'), w)) →
  S (length l) ≤ fuel →
  printLog_loop fuel h w
  = (Done (Ok tt), print_all (flat_map (λ hc, log_entry hc.1 hc.2) ((h, c) :: l)) w).
Proof.
  induction l as [|[h1 c1] l IH]; intros fuel h c w Hlinked Hread Hfuel;
    (destruct fuel as [|fuel]; [simpl in Hfuel; lia |]);
    cbn [printLog_loop];
    rewrite (try_Ok _ _ _ _ _ (Hread h c (list_elem_of_here _ _)));
    rewrite !bind_fmt_Printf.
  - simpl in Hlinked. rewrite Hlinked. simpl. unfold mret, M_ret, print_all. simpl.
    by rewrite <- app_assoc.
  - destruct Hlinked as [Hparent Hlinked]. rewrite Hparent.
    assert (Hh1 : readCommit h1 w = (Done (Ok c1), w)).
    { apply Hread. apply list_elem_of_further, list_elem_of_here. }
    assert (2 ≤ String.length h1) by (by apply readCommit_Ok in Hh1 as (_ & ? & _)).
    rewrite bool_decide_eq_true_2 by lia.
    rewrite (IH fuel h1 c1); [| done | | simpl in *; lia].
    + unfold print_all. simpl. by rewrite <- !app_assoc.
    + intros h' c' Hin. apply (readCommit_same_tree h' w); [| done].
      apply Hread. by apply list_elem_of_further.
Qed.

(** C3: with a root commit [A] and a commit [B] whose parent is the hash
    of [A], the log started at [B] prints [B], then [A], and returns;
    in general it prints a history in order, one commit after its child,
    and returns at the commit whose parent is empty. *)
Theorem printLog_walks_history `{L : Library} :
  (∀ fuel w hA A hB B,
     getCurrentHead w = (Done (Ok hB), w) →
     readCommit hB w = (Done (Ok B), w) → ParentCommit B = hA →
     readCommit hA w = (Done (Ok A), w) → ParentCommit A = "" →
     2 ≤ fuel →
     printLog fuel w = (Done (Ok tt), print_all (log_entry hB B ++ log_entry hA A) w))
  ∧ (∀ fuel w h c l,
       getCurrentHead w = (Done (Ok h), w) →
       linked ((h, c) :: l) →
       (∀ h' c', (h', c') ∈ (h, c) :: l → readCommit h' w = (Done (Ok c'), w)) →
       S (length l) ≤ fuel →
       printLog fuel w
       = (Done (Ok tt), print_all (flat_map (λ hc, log_entry hc.1 hc.2) ((h, c) :: l)) w)).
Proof.
  assert (Hgen : ∀ fuel w h c l,
       getCurrentHead w = (Done (Ok h), w) →
       linked ((h, c) :: l) →
       (∀ h' c', (h', c') ∈ (h, c) :: l → readCommit h' w = (Done (Ok c'), w)) →
       S (length l) ≤ fuel →
       printLog fuel w
       = (Done (Ok tt), print_all (flat_map (λ hc, log_entry hc.1 hc.2) ((h, c) :: l)) w)).
  { intros fuel w h c l Hhead Hlinked Hread Hfuel. unfold printLog.
    rewrite (try_Ok _ _ _ _ _ Hhead). by apply printLog_loop_history. }
  split; [| exact Hgen].
  intros fuel w hA A hB B Hhead HB Hparent HA Hroot Hfuel.
  rewrite (Hgen fuel w hB B [(hA, A)] Hhead); [| done | | simpl; lia].
  - done.
  - intros h' c' [[= -> ->]|[[= -> ->]|[]%elem_of_nil]%elem_of_cons]%elem_of_cons; done.
Qed.

Lemma printLog_walks_history_witness :
  let L := Reference.library in
  let w := two_commit_repository in
  getCurrentHead w = (Done (Ok second_hash), w)
  ∧ readCommit second_hash w = (Done (Ok second_commit), w)
  ∧ readCommit first_hash w = (Done (Ok first_commit), w)
  ∧ printLog 2 w
    = (Done (Ok tt),
       print_all (log_entry second_hash second_commit ++ log_entry first_hash first_commit) w).
Proof.
  intros L w.
  assert (Hhead : getCurrentHead w = (Done (Ok second_hash), w)) by evaluate.
  assert (HB : readCommit second_hash w = (Done (Ok second_commit), w)) by evaluate.
  assert (HA : readCommit first_hash w = (Done (Ok first_commit), w)) by evaluate.
  exact (conj Hhead (conj HB (conj HA
           (proj1 printLog_walks_history 2 w first_hash first_commit second_hash
              second_commit Hhead HB eq_refl HA eq_refl (le_n 2))))).
Defined.

(** ** Refs and HEAD *)

Lemma file_at_Some t path c :
  file_at t path = Some c ↔ ∃ p, resolve path = Some p ∧ stat t p = Some (File c).
Proof.
  unfold file_at. split.
  - destruct (resolve path) as [p|]; simpl; [| done].
    destruct (stat t p) as [[c'|]|] eqn:Hst; intros [= ->]. eauto.
  - intros (p & Hres & Hst). rewrite Hres. simpl. by rewrite Hst.
Qed.

Lemma stat_insert t p n q :
  p ≠ [] → stat (<[p := n]> t) q = if decide (p = q) then Some n else stat t q.
Proof.
  intros Hp. destruct q as [|q1 q]; simpl.
  - by rewrite decide_False.
  - by rewrite lookup_insert.
Qed.

Lemma os_ReadFile_Ok name w c w' :
  os_ReadFile name w = (Done (Ok c), w') ↔ w' = w ∧ file_at (tree w) name = Some c.
Proof.
  rewrite file_at_Some. unfold os_ReadFile. split.
  - intros (p & w1 & Hopen & Hread)%try_inv_Ok.
    destruct (os_Open_cases name w) as [(p' & Hres & _ & Hopen')|(e & Hopen')];
      [| congruence].
    rewrite Hopen' in Hopen. injection Hopen as <- <-.
    destruct (file_ReadAll_cases p' w) as [(c' & Hread' & Hst)|(e & _ & Hread')];
      [| congruence].
    rewrite Hread' in Hread. injection Hread as <- <-.
    destruct Hst as [Hst|[Hst _]]; [eauto |].
    revert Hopen'. unfold_prim. rewrite Hres, Hst. discriminate.
  - intros [-> (p & Hres & Hst)].
    assert (Hopen : os_Open name w = (Done (Ok p), w)) by (unfold_prim; by rewrite Hres, Hst).
    step Hopen. unfold_prim. by rewrite Hst.
Qed.

Lemma os_ReadFile_result name w :
  ∃ r, os_ReadFile name w = (Done r, w).
Proof.
  unfold os_ReadFile.
  destruct (os_Open_cases name w) as [(p & _ & _ & Hopen)|(e & Hopen)]; step Hopen; [| eauto].
  destruct (file_ReadAll_cases p w) as [(c & Hread & _)|(e & _ & Hread)]; eauto.
Qed.

Lemma getCurrentHead_Ok w currentCommitHash w' :
  getCurrentHead w = (Done (Ok currentCommitHash), w')
  ↔ w' = w
    ∧ ∃ content branchContent,
        file_at (tree w) (BASEDIR +:+ "/HEAD") = Some content
        ∧ file_at (tree w) (BASEDIR +:+ "/" +:+ string_of_bytes content) = Some branchContent
        ∧ currentCommitHash = string_of_bytes branchContent.
Proof.
  unfold getCurrentHead. split.
  - intros (content & w1 & [-> Hhead]%os_ReadFile_Ok & Hrun)%try_inv_Ok.
    apply try_inv_Ok in Hrun as (branchContent & w2 & [-> Hbranch]%os_ReadFile_Ok & Hrun).
    injection Hrun as <- <-. eauto 10.
  - intros (-> & content & branchContent & Hhead & Hbranch & ->).
    assert (H1 : os_ReadFile (BASEDIR +:+ "/HEAD") w = (Done (Ok content), w))
      by (by apply os_ReadFile_Ok).
    assert (H2 : os_ReadFile (BASEDIR +:+ "/" +:+ string_of_bytes content) w
                 = (Done (Ok branchContent), w)) by (by apply os_ReadFile_Ok).
    step H1. by step H2.
Qed.

Lemma getCurrentHead_result w : ∃ r, getCurrentHead w = (Done r, w).
Proof.
  unfold getCurrentHead.
  destruct (os_ReadFile_result (BASEDIR +:+ "/HEAD") w) as [[content|e] H1]; step H1;
    [| eauto].
  destruct (os_ReadFile_result (BASEDIR +:+ "/" +:+ string_of_bytes content) w)
    as [[b|e] H2]; step H2; eauto.
Qed.

Lemma resolve_HEAD : resolve (BASEDIR +:+ "/HEAD") = Some HEAD_path.
Proof. by vm_compute. Qed.

Lemma open_HEAD_cases w :
  (HEAD_writable (tree w)
   ∧ os_OpenFile (BASEDIR +:+ "/HEAD") [O_WRONLY; O_TRUNC; O_CREATE] w
     = (Done (Ok HEAD_path), set_tree (<[HEAD_path := File []]> (tree w)) w))
  ∨ (¬ HEAD_writable (tree w)
     ∧ ∃ e, os_OpenFile (BASEDIR +:+ "/HEAD") [O_WRONLY; O_TRUNC; O_CREATE] w
            = (Done (Err e), w)).
Proof.
  unfold HEAD_writable. unfold_prim. rewrite resolve_HEAD.
  change (parent HEAD_path) with [".gat"].
  destruct (stat (tree w) HEAD_path) as [[c|]|] eqn:Hst.
  - by left.
  - right. split; [by intros [] | eauto].
  - destruct (stat (tree w) [".gat"]) as [[c|]|] eqn:Hgat.
    + right. split; [congruence | eauto].
    + by left.
    + right. split; [congruence | eauto].
Qed.

(** [switchHead] fails only if HEAD cannot be opened; otherwise HEAD
    holds the path of the ref file afterwards. *)
Lemma switchHead_cases branchName w :
  (HEAD_writable (tree w) ∧ switchHead branchName w = (Done (Ok tt), set_HEAD branchName w))
  ∨ (¬ HEAD_writable (tree w) ∧ ∃ e, switchHead branchName w = (Done (Err e), w)).
Proof.
  unfold switchHead, set_HEAD.
  destruct (open_HEAD_cases w) as [[Hw Hopen]|[Hw [e Hopen]]]; step Hopen.
  - left. split; [done |]. unfold file_WriteString.
    rewrite (bind_Done _ _ _ _ _ (file_Write_run _ _ _)). unfold mret, M_ret. simpl.
    rewrite lookup_insert_eq. by rewrite insert_insert_eq.
  - right. eauto.
Qed.

Lemma file_at_insert_None t p n path c :
  stat t p = None → file_at t path = Some c → file_at (<[p := n]> t) path = Some c.
Proof.
  intros Hp (q & Hres & Hq)%file_at_Some. apply file_at_Some. exists q. split; [done |].
  assert (p ≠ []) by (by intros ->).
  rewrite stat_insert by done. case_decide; [congruence | done].
Qed.

Lemma file_Read_File f n c w :
  stat (tree w) f = Some (File c) →
  file_Read f n w
  = (Done (match c with [] => ([], Some io_EOF) | _ => (take n c, None) end), w).
Proof.
  intros Hst. unfold file_Read.
  assert (Hread : file_ReadAll f w = (Done (Ok c), w)) by (unfold_prim; by rewrite Hst).
  step Hread. by destruct c.
Qed.

(** ** Creating a branch (C6) *)

(** C6: when the ref file of the name is a regular file with content,
    [createAndSwitchBranch] returns without error and changes nothing but
    the output, where it reports that the branch exists.  When the ref
    file is empty, or missing in an existing directory, and the current
    head resolves to a commit hash, it returns without error after writing
    that hash to the ref file and the path of the ref file to HEAD. *)
Theorem createAndSwitchBranch_spec branchName w p :
  resolve (ref_path branchName) = Some p →
  (∀ c, stat (tree w) p = Some (File c) → c ≠ [] →
     createAndSwitchBranch branchName w
     = (Done (Ok tt), print_all [branch_exists_message branchName] w))
  ∧ (∀ commitHash,
       stat (tree w) p = Some (File [])
       ∨ (stat (tree w) p = None ∧ stat (tree w) (parent p) = Some Dir) →
       getCurrentHead w = (Done (Ok commitHash), w) →
       ∃ w', createAndSwitchBranch branchName w = (Done (Ok tt), w')
             ∧ w' = print_all [branch_created_message branchName]
                      (set_HEAD branchName
                         (set_tree (<[p := File (bytes_of_string commitHash)]> (tree w)) w))
             ∧ tree w' !! HEAD_path
               = Some (File (bytes_of_string ("refs/heads/" +:+ branchName)))
             ∧ (p ≠ HEAD_path → tree w' !! p = Some (File (bytes_of_string commitHash)))).
Proof.
  intros Hres. unfold createAndSwitchBranch. fold (ref_path branchName). split.
  - intros c Hst Hc.
    assert (Hopen : os_OpenFile (ref_path branchName) [O_RDWR; O_CREATE] w
                    = (Done (Ok p), w)) by (unfold_prim; by rewrite Hres, Hst).
    step Hopen.
    assert (Hread : file_Read p 5 w = (Done (take 5 c, None), w)).
    { rewrite (file_Read_File _ _ _ _ Hst). by destruct c. }
    by step Hread.
  - intros commitHash Hp Hhead.
    set (t1 := <[p := File []]> (tree w)).
    assert (Hp0 : p ≠ []) by (by destruct Hp as [Hp|[Hp _]]; intros ->).
    assert (Hopen : os_OpenFile (ref_path branchName) [O_RDWR; O_CREATE] w
                    = (Done (Ok p), set_tree t1 w)).
    { unfold_prim. rewrite Hres. destruct Hp as [Hp|[Hp Hpar]]; rewrite Hp.
      - simpl. subst t1. rewrite insert_id; [by rewrite set_tree_id |].
        by destruct p.
      - by rewrite Hpar. }
    step Hopen.
    assert (Hst1 : stat (tree (set_tree t1 w)) p = Some (File [])).
    { simpl. subst t1. rewrite stat_insert by done. by rewrite decide_True. }
    assert (Hread : file_Read p 5 (set_tree t1 w) = (Done ([], Some io_EOF), set_tree t1 w)).
    { by rewrite (file_Read_File _ _ _ _ Hst1). }
    step Hread. change (negb (is_EOF (Some io_EOF))) with false. cbv iota.
    apply getCurrentHead_Ok in Hhead as (_ & content & branchContent & H1 & H2 & ->).
    assert (Hkeep : ∀ path c, file_at (tree w) path = Some c → file_at t1 path = Some c).
    { intros path c Hc. destruct Hp as [Hp|[Hp _]].
      - subst t1. rewrite insert_id; [done | by destruct p].
      - by apply file_at_insert_None. }
    assert (Hhead1 : getCurrentHead (set_tree t1 w)
                     = (Done (Ok (string_of_bytes branchContent)), set_tree t1 w)).
    { apply getCurrentHead_Ok. split; [done |]. exists content, branchContent. eauto. }
    step Hhead1. unfold file_WriteString.
    rewrite (bind_Done _ _ _ _ _ (file_Write_run _ _ _)). rewrite Hst1.
    set (w2 := set_tree _ (set_tree t1 w)).
    assert (Hw2 : w2 = set_tree (<[p := File (bytes_of_string
                                   (string_of_bytes branchContent))]> (tree w)) w).
    { subst w2 t1. unfold set_tree. simpl. by rewrite insert_insert_eq. }
    assert (Hwritable : HEAD_writable (tree w2)).
    { apply file_at_Some in H1 as (q & Hq & HH). rewrite resolve_HEAD in Hq.
      injection Hq as <-. unfold HEAD_writable. rewrite Hw2. simpl tree.
      rewrite stat_insert by done. case_decide; [done | by rewrite HH]. }
    destruct (switchHead_cases branchName w2) as [[_ Hsw]|[Hno _]]; [| done].
    step Hsw. rewrite bind_fmt_Printf. eexists. split; [reflexivity |].
    rewrite Hw2. split_and!.
    + done.
    + simpl. apply lookup_insert_eq.
    + intros Hne. simpl. rewrite lookup_insert_ne by done. apply lookup_insert_eq.
Qed.

Lemma createAndSwitchBranch_spec_witness :
  let w := one_commit_repository in
  createAndSwitchBranch "main" w = (Done (Ok tt), print_all [branch_exists_message "main"] w)
  ∧ ∃ w', createAndSwitchBranch "feature" w = (Done (Ok tt), w')
          ∧ w' = print_all [branch_created_message "feature"]
                   (set_HEAD "feature"
                      (set_tree (<[ [".gat"; "refs"; "heads"; "feature"]
                                      := File (bytes_of_string first_hash) ]> (tree w)) w))
          ∧ tree w' !! HEAD_path = Some (File (bytes_of_string ("refs/heads/" +:+ "feature")))
          ∧ ([".gat"; "refs"; "heads"; "feature"] ≠ HEAD_path →
             tree w' !! [".gat"; "refs"; "heads"; "feature"]
             = Some (File (bytes_of_string first_hash))).
Proof.
  intros w.
  assert (Hmain : resolve (ref_path "main") = Some [".gat"; "refs"; "heads"; "main"])
    by evaluate.
  assert (Hfeature : resolve (ref_path "feature") = Some [".gat"; "refs"; "heads"; "feature"])
    by evaluate.
  assert (Hst : stat (tree w) [".gat"; "refs"; "heads"; "main"]
                = Some (File (bytes_of_string first_hash))) by evaluate.
  assert (Hnone : stat (tree w) [".gat"; "refs"; "heads"; "feature"] = None
                  ∧ stat (tree w) (parent [".gat"; "refs"; "heads"; "feature"]) = Some Dir)
    by (split; evaluate).
  assert (Hhead : getCurrentHead w = (Done (Ok first_hash), w)) by evaluate.
  split.
  - refine (proj1 (createAndSwitchBranch_spec "main" w _ Hmain) _ Hst _). discriminate.
  - exact (proj2 (createAndSwitchBranch_spec "feature" w _ Hfeature) first_hash
             (or_intror Hnone) Hhead).
Defined.

(** ** Switching branches (C4) *)

Lemma string_of_bytes_of_string s : string_of_bytes (bytes_of_string s) = s.
Proof. apply String.string_of_list_byte_of_string. Qed.

Lemma getCurrentBranch_run w currentBranch :
  file_at (tree w) (BASEDIR +:+ "/HEAD")
  = Some (bytes_of_string ("refs/heads/" +:+ currentBranch)) →
  getCurrentBranch w = (Done (Ok currentBranch), w).
Proof.
  intros Hhead. unfold getCurrentBranch.
  assert (Hread : os_ReadFile (BASEDIR +:+ "/HEAD") w
                  = (Done (Ok (bytes_of_string ("refs/heads/" +:+ currentBranch))), w))
    by (by apply os_ReadFile_Ok).
  step Hread. rewrite string_of_bytes_of_string.
  change (filepath_Join ["refs"; "heads"]) with "refs/heads".
  rewrite bool_decide_eq_false_2; [done |]. simpl. lia.
Qed.






(** ** Paths as strings *)

Lemma strings_Split_nonempty s sep : strings_Split s sep ≠ [].
Proof.
  destruct s as [|c s]; simpl; [done |].
  destruct (Ascii.eqb c sep); [done |]. by destruct (strings_Split s sep).
Qed.

Lemma strings_Split_app a b sep :
  strings_Split (a +:+ String sep b) sep = strings_Split a sep ++ strings_Split b sep.
Proof.
  induction a as [|c a IH]; simpl.
  - by rewrite Ascii.eqb_refl.
  - destruct (Ascii.eqb c sep); rewrite IH; [done |].
    pose proof (strings_Split_nonempty a sep).
    by destruct (strings_Split a sep).
Qed.

Lemma strings_Split_no_slash a : no_slash a = true → strings_Split a "/" = [a].
Proof.
  induction a as [|c a IH]; simpl; [done |].
  intros [Hc Ha]%andb_prop. apply negb_true_iff in Hc. rewrite Hc. by rewrite IH.
Qed.

Lemma strings_Split_pieces s : Forall (λ x, no_slash x = true) (strings_Split s "/").
Proof.
  induction s as [|c s IH]; simpl; [by repeat constructor |].
  destruct (Ascii.eqb c "/") eqn:Hc; [by constructor |].
  destruct (strings_Split s "/") as [|x xs].
  - constructor; [| done]. simpl. by rewrite Hc.
  - inversion IH; subst. constructor; [| done]. simpl. by rewrite Hc.
Qed.

Lemma String_eqb_true a b : String_eqb a b = true ↔ a = b.
Proof. unfold String_eqb. apply bool_decide_eq_true. Qed.

Lemma String_eqb_false a b : String_eqb a b = false ↔ a ≠ b.
Proof. unfold String_eqb. apply bool_decide_eq_false. Qed.

Lemma clean_comps_app r cs ds : ∀ acc,
  clean_comps r acc (cs ++ ds) = clean_comps r (rev (clean_comps r acc cs)) ds.
Proof.
  induction cs as [|c cs IH]; intros acc; simpl.
  - by rewrite rev_involutive.
  - destruct (String_eqb c "" || String_eqb c "."); [apply IH |].
    destruct (String_eqb c ".."); [| apply IH].
    destruct acc as [|a acc]; [destruct r; apply IH |].
    destruct (String_eqb a ".."); apply IH.
Qed.

Lemma clean_comps_name r acc c cs :
  valid_name c → clean_comps r acc (c :: cs) = clean_comps r (c :: acc) cs.
Proof.
  intros (_ & H1 & H2 & H3). simpl.
  apply String_eqb_false in H1, H2, H3. by rewrite H1, H2, H3.
Qed.

Lemma clean_comps_names r ns : ∀ acc,
  Forall valid_name ns → clean_comps r acc ns = rev acc ++ ns.
Proof.
  induction ns as [|c ns IH]; intros acc Hns.
  - simpl. by rewrite app_nil_r.
  - inversion Hns; subst. rewrite clean_comps_name by done.
    rewrite IH by done. simpl. by rewrite <- app_assoc.
Qed.

(** What the lexical pass lets through: pieces that are neither empty
    nor [.]. *)
Lemma clean_comps_Forall (P : string → Prop) r cs : ∀ acc,
  P ".." → Forall (λ x, P x ∧ x ≠ "" ∧ x ≠ ".") acc → Forall P cs →
  Forall (λ x, P x ∧ x ≠ "" ∧ x ≠ ".") (clean_comps r acc cs).
Proof.
  intros acc Hdd. revert acc.
  induction cs as [|c cs IH]; intros acc Hacc Hcs; simpl.
  - by apply Forall_rev.
  - inversion Hcs as [|? ? Hc Hcs']; subst.
    destruct (String_eqb c "") eqn:E1; [by apply IH |].
    destruct (String_eqb c ".") eqn:E2; [by apply IH |]. simpl.
    apply String_eqb_false in E1, E2.
    destruct (String_eqb c "..") eqn:E3.
    + destruct acc as [|a acc].
      * destruct r; apply IH; try done. by repeat constructor.
      * inversion Hacc as [|? ? Ha Hacc']; subst.
        destruct (String_eqb a ".."); apply IH; try done. by constructor.
    + apply IH; [| done]. by constructor.
Qed.

Lemma resolve_Some s P :
  resolve s = Some P
  ↔ s ≠ "" ∧ is_rooted s = false ∧ P = clean_comps false [] (strings_Split s "/")
    ∧ ".." ∉ P.
Proof.
  unfold resolve. destruct (String_eqb s "") eqn:Hs.
  - apply String_eqb_true in Hs. split; [done | by intros []].
  - apply String_eqb_false in Hs. destruct (is_rooted s).
    + split; [done | by intros (_ & ? & _)].
    + case_bool_decide as Hdd.
      * split; [done | by intros (_ & _ & -> & ?)].
      * split; [by intros [= <-] | by intros (_ & _ & -> & _)].
Qed.

Lemma resolve_valid s P : resolve s = Some P → Forall valid_name P.
Proof.
  intros (_ & _ & -> & Hdd)%resolve_Some.
  pose proof (clean_comps_Forall (λ x, no_slash x = true) false (strings_Split s "/") []
                eq_refl (Forall_nil_2 _) (strings_Split_pieces s)) as Hall.
  rewrite Forall_forall in Hall. apply Forall_forall. intros x Hx.
  destruct (Hall x Hx) as (? & ? & ?). repeat split; try done.
  intros ->. by apply Hdd.
Qed.

Lemma is_rooted_app a b : a ≠ "" → is_rooted (a +:+ b) = is_rooted a.
Proof. by destruct a. Qed.

Lemma append_nonempty a b : a ≠ "" → a +:+ b ≠ "".
Proof. by destruct a. Qed.

(** The path of an entry of a directory, as [folderPath + "/" + name]. *)
Lemma resolve_child path name P :
  resolve path = Some P → valid_name name →
  resolve (path +:+ "/" +:+ name) = Some (P ++ [name]).
Proof.
  intros (Hne & Hroot & -> & Hdd)%resolve_Some Hname. apply resolve_Some.
  split_and!.
  - by apply append_nonempty.
  - by rewrite is_rooted_app.
  - change (path +:+ "/" +:+ name) with (path +:+ String "/" name).
    rewrite strings_Split_app, clean_comps_app.
    rewrite (strings_Split_no_slash name) by apply Hname.
    rewrite clean_comps_name by done. simpl. by rewrite rev_involutive.
  - intros [Hin|Hin%list_elem_of_singleton]%elem_of_app; [done |].
    destruct Hname as (_ & _ & _ & Hname). by apply Hname.
Qed.

Lemma strings_Join_cons x y ys sep :
  strings_Join (x :: y :: ys) sep = x +:+ sep +:+ strings_Join (y :: ys) sep.
Proof. done. Qed.

Lemma strings_Split_Join ns :
  ns ≠ [] → Forall (λ x, no_slash x = true) ns →
  strings_Split (strings_Join ns "/") "/" = ns.
Proof.
  induction ns as [|x [|y ys] IH]; intros Hne Hns; [done | |].
  - inversion Hns; subst. by apply strings_Split_no_slash.
  - inversion Hns; subst. rewrite strings_Join_cons.
    change (x +:+ "/" +:+ strings_Join (y :: ys) "/")
      with (x +:+ String "/" (strings_Join (y :: ys) "/")).
    rewrite strings_Split_app, strings_Split_no_slash by done.
    by rewrite IH.
Qed.

Lemma strings_Join_names_head ns :
  ns ≠ [] → Forall valid_name ns →
  strings_Join ns "/" ≠ "" ∧ is_rooted (strings_Join ns "/") = false.
Proof.
  destruct ns as [|x ns]; [done |]. intros _ Hns. inversion Hns as [|? ? Hx _]; subst.
  destruct Hx as (Hslash & Hne & _).
  destruct x as [|c x]; [done |]. simpl in Hslash.
  apply andb_prop in Hslash as [Hc%negb_true_iff _].
  assert (Hhead : ∃ rest, strings_Join (String c x :: ns) "/" = String c rest).
  { destruct ns; simpl; eauto. }
  destruct Hhead as [rest ->]. split; [done |]. simpl.
  destruct c as [[] [] [] [] [] [] [] []]; try done.
Qed.

(** A slash-separated list of names denotes that list. *)
Lemma resolve_Join_names ns :
  ns ≠ [] → Forall valid_name ns → resolve (strings_Join ns "/") = Some ns.
Proof.
  intros Hne Hns. destruct (strings_Join_names_head ns Hne Hns) as [H1 H2].
  apply resolve_Some. split_and!; try done.
  - rewrite strings_Split_Join; [| done |].
    + by rewrite clean_comps_names.
    + eapply Forall_impl; [done |]. by intros x [? _].
  - intros Hin. rewrite Forall_forall in Hns. by destruct (Hns _ Hin) as (_ & _ & _ & ?).
Qed.

(** [filepath.Join(path, name)] for an entry of a directory. *)
Lemma resolve_Join_child path name P :
  resolve path = Some P → valid_name name →
  resolve (filepath_Join [path; name]) = Some (P ++ [name]).
Proof.
  intros Hres Hname.
  pose proof (resolve_valid _ _ Hres) as HP.
  pose proof (resolve_child _ _ _ Hres Hname) as (Hne & Hroot & Hcomps & _)%resolve_Some.
  assert (Hall : Forall valid_name (P ++ [name])) by (apply Forall_app; split; by eauto).
  assert (Hnn : P ++ [name] ≠ []) by (by destruct P).
  apply resolve_Some in Hres as (Hp & _).
  destruct Hname as (Hsl & Hn & Hn').
  unfold filepath_Join.
  rewrite filter_cons_True, filter_cons_True, filter_nil by done.
  change (strings_Join [path; name] "/") with (path +:+ "/" +:+ name).
  unfold filepath_Clean. apply String_eqb_false in Hne. rewrite Hne, Hroot, <- Hcomps.
  destruct (strings_Join_names_head _ Hnn Hall) as [Hout _].
  apply String_eqb_false in Hout. rewrite Hout.
  by apply resolve_Join_names.
Qed.

(** ** Names made of digits and letters *)

Ltac refute :=
  match goal with
  | |- ¬ ?P => apply (bool_decide_eq_false_1 P); vm_compute; reflexivity
  end.

Lemma all_in_valid l s :
  "/"%char ∉ l → "."%char ∉ l → all_in l s = true → s ≠ "" → valid_name s.
Proof.
  intros Hslash Hdot Hall Hne. repeat split; try done.
  - induction s as [|c s IH]; [done |]. simpl in *.
    apply andb_prop in Hall as [Hc%bool_decide_eq_true Hs].
    apply andb_true_intro. split.
    + apply negb_true_iff, Ascii.eqb_neq. by intros ->.
    + destruct s; [done |]. by apply IH.
  - intros ->. simpl in Hall. apply andb_prop in Hall as [Hc%bool_decide_eq_true _]. done.
  - intros ->. simpl in Hall. apply andb_prop in Hall as [Hc%bool_decide_eq_true _]. done.
Qed.

Lemma all_in_take l n s : all_in l s = true → all_in l (string_take n s) = true.
Proof.
  revert s. induction n as [|n IH]; intros [|c s]; simpl; try done.
  intros [Hc Hs]%andb_prop. rewrite Hc. simpl. by apply IH.
Qed.

Lemma all_in_drop l n s : all_in l s = true → all_in l (string_drop n s) = true.
Proof.
  revert s. induction n as [|n IH]; intros [|c s]; simpl; try done.
  intros [Hc Hs]%andb_prop. by apply IH.
Qed.

Lemma string_take_length n s : n ≤ String.length s → String.length (string_take n s) = n.
Proof.
  revert s. induction n as [|n IH]; intros [|c s]; simpl; try done; try lia.
  intros Hn. rewrite IH; lia.
Qed.

Lemma string_drop_length n s : String.length (string_drop n s) = String.length s - n.
Proof. revert s. induction n as [|n IH]; intros [|c s]; simpl; try done. Qed.

Lemma hex_digit_in n : (n < 16)%N → hex_digit n ∈ hextable.
Proof.
  intros Hn. unfold hex_digit. apply list_elem_of_In, nth_In.
  change (length hextable) with 16. lia.
Qed.

Lemma hex_EncodeToString_all_in src : all_in hextable (hex_EncodeToString src) = true.
Proof.
  induction src as [|v src IH]; simpl; [done |].
  rewrite IH, !bool_decide_eq_true_2; [done | |]; apply hex_digit_in.
  - change 15%N with (N.ones 4). rewrite N.land_ones. by apply N.mod_lt.
  - rewrite N.shiftr_div_pow2. apply N.Div0.div_lt_upper_bound.
    pose proof (Byte.to_N_bounded v). change (2 ^ 4 * 16)%N with 256%N. lia.
Qed.

Lemma not_empty_of_length s n : String.length s = S n → s ≠ "".
Proof. by intros Hs ->. Qed.

(** The two parts of a hash of forty hexadecimal digits are names. *)
Lemma checksum_names s :
  all_in hextable s = true → 3 ≤ String.length s →
  valid_name (string_take 2 s) ∧ valid_name (string_drop 2 s).
Proof.
  intros Hall Hlen.
  assert (Hslash : "/"%char ∉ hextable) by refute.
  assert (Hdot : "."%char ∉ hextable) by refute.
  split; apply (all_in_valid hextable); try done.
  - by apply all_in_take.
  - apply (not_empty_of_length _ 1). rewrite string_take_length; lia.
  - by apply all_in_drop.
  - pose proof (string_drop_length 2 s).
    destruct (string_drop 2 s); [simpl in *; lia | done].
Qed.

Lemma random_chars_all_in `{L : Library} k n : all_in letters (random_chars k n) = true.
Proof.
  revert k. induction n as [|n IH]; intros k; [done |].
  cbn [random_chars all_in]. rewrite IH, bool_decide_eq_true_2; [done |].
  apply list_elem_of_In, nth_In. by apply Nat.mod_upper_bound.
Qed.

Lemma temp_name_valid `{L : Library} k : valid_name (temp_name k).
Proof.
  apply (all_in_valid letters).
  - refute.
  - refute.
  - apply random_chars_all_in.
  - done.
Qed.

Lemma randomString_eq `{L : Library} n w :
  randomString n w
  = (Done (random_chars (rand_calls w) n),
     World (tree w) (stdout w) (n + rand_calls w) (clock w) (DEBUG w)).
Proof.
  revert w. induction n as [|n IH]; intros w.
  - by destruct w.
  - simpl. unfold mbind, M_bind, rand_Intn at 1. rewrite IH. simpl.
    unfold mret, M_ret. do 3 f_equal. lia.
Qed.

(** Locations under [.gat] denoted by the paths the program builds. *)
Lemma resolve_temp `{L : Library} k :
  resolve (BASEDIR +:+ "/temp/" +:+ temp_name k) = Some (temp_location k).
Proof.
  assert (Hdir : resolve "./.gat/temp" = Some [".gat"; "temp"]) by (by vm_compute).
  exact (resolve_child _ _ _ Hdir (temp_name_valid k)).
Qed.

Lemma resolve_gat_names ns :
  Forall valid_name ns →
  resolve (filepath_Join (BASEDIR :: ns)) = Some (".gat" :: ns).
Proof.
  intros Hns.
  assert (Hgat : valid_name ".gat") by (by repeat split).
  assert (Hall : Forall valid_name (".gat" :: ns)) by (by constructor).
  assert (Hfilter : filter (λ e, e ≠ "") (BASEDIR :: ns) = BASEDIR :: ns).
  { rewrite filter_cons_True by done. f_equal.
    clear Hall. induction ns as [|n ns IH]; [done |]. inversion Hns; subst.
    rewrite filter_cons_True; [by rewrite IH | by destruct H1 as (_ & ? & _)]. }
  unfold filepath_Join. rewrite Hfilter.
  assert (Hjoin : strings_Join (BASEDIR :: ns) "/" = strings_Join ("." :: ".gat" :: ns) "/").
  { by destruct ns. }
  rewrite Hjoin. unfold filepath_Clean.
  assert (Hstart : ∃ rest, strings_Join ("." :: ".gat" :: ns) "/" = String "." rest).
  { by eexists. }
  destruct Hstart as [rest Hrest].
  assert (Hne : String_eqb (strings_Join ("." :: ".gat" :: ns) "/") "" = false)
    by (rewrite Hrest; by apply String_eqb_false).
  assert (Hroot : is_rooted (strings_Join ("." :: ".gat" :: ns) "/") = false)
    by (by rewrite Hrest).
  rewrite Hne, Hroot.
  rewrite strings_Split_Join; [| done |].
  2: { constructor; [done |]. eapply Forall_impl; [exact Hall |]. by intros x [? _]. }
  change (clean_comps false [] ("." :: ".gat" :: ns))
    with (clean_comps false [] (".gat" :: ns)).
  rewrite clean_comps_names by done. simpl rev. simpl app.
  destruct (strings_Join_names_head (".gat" :: ns)) as [Hout _]; [done | done |].
  apply String_eqb_false in Hout. rewrite Hout.
  by apply resolve_Join_names.
Qed.

Lemma resolve_object_path h :
  all_in hextable h = true → 3 ≤ String.length h →
  resolve (object_path h) = Some (object_location h).
Proof.
  intros Hall Hlen. destruct (checksum_names h Hall Hlen) as [H1 H2].
  assert (Hobj : valid_name "objects") by (by repeat split).
  apply (resolve_gat_names ["objects"; string_take 2 h; string_drop 2 h]).
  by repeat (constructor; [done |]).
Qed.

Lemma resolve_object_folder h :
  all_in hextable h = true → 3 ≤ String.length h →
  resolve (filepath_Join [BASEDIR; "objects"; string_take 2 h])
  = Some [".gat"; "objects"; string_take 2 h].
Proof.
  intros Hall Hlen. destruct (checksum_names h Hall Hlen) as [H1 H2].
  assert (Hobj : valid_name "objects") by (by repeat split).
  apply (resolve_gat_names ["objects"; string_take 2 h]).
  by repeat (constructor; [done |]).
Qed.

(** ** Storing an object *)

(** [os.MkdirAll] makes directories of the missing prefixes of the path
    and touches nothing else. *)
Lemma mkdir_all_lookup rest : ∀ t made t',
  mkdir_all t made rest = Some t' →
  ∀ q, (∀ k, 0 < k ≤ length rest → q ≠ made ++ take k rest) → t' !! q = t !! q.
Proof.
  induction rest as [|c rest IH]; intros t made t' Hmk q Hq; simpl in Hmk.
  - by injection Hmk as <-.
  - assert (Hrest : ∀ k, 0 < k ≤ length rest → q ≠ (made ++ [c]) ++ take k rest).
    { intros k Hk. rewrite <- app_assoc. apply (Hq (S k)). simpl. lia. }
    assert (Hc : q ≠ made ++ [c]).
    { specialize (Hq 1). simpl in Hq. rewrite take_0 in Hq. apply Hq. lia. }
    destruct (t !! (made ++ [c])) as [[b|]|] eqn:Hst; [done | by eapply IH |].
    rewrite (IH _ _ _ Hmk q Hrest). by rewrite lookup_insert_ne.
Qed.

Lemma mkdir_all_keeps rest : ∀ t made t' q n,
  mkdir_all t made rest = Some t' → t !! q = Some n → t' !! q = Some n.
Proof.
  induction rest as [|c rest IH]; intros t made t' q n Hmk Hq; simpl in Hmk.
  - by injection Hmk as <-.
  - destruct (t !! (made ++ [c])) as [[b|]|] eqn:Hst; [done | by eapply IH |].
    eapply IH; [done |]. rewrite lookup_insert_ne; [done |].
    intros Heq. rewrite Heq in Hst. congruence.
Qed.

Lemma os_Create_temp `{L : Library} k w :
  (stat (tree w) (temp_location k) ≠ Some Dir
   ∧ os_Create (BASEDIR +:+ "/temp/" +:+ temp_name k) w
     = (Done (Ok (temp_location k)),
        set_tree (<[temp_location k := File []]> (tree w)) w))
  ∨ (∃ e, os_Create (BASEDIR +:+ "/temp/" +:+ temp_name k) w = (Done (Err e), w)).
Proof.
  destruct (os_Create_cases (BASEDIR +:+ "/temp/" +:+ temp_name k) w)
    as [(p & Hres & Hst & Hrun)|(e & Hrun)]; [left | right; eauto].
  rewrite resolve_temp in Hres. by injection Hres as <-.
Qed.

(** A successful [createBlob]: the hash is that of the content of the
    file, and the tree afterwards is the tree before with the folder of
    the object made and the object in its place, holding the compressed
    content; the temporary file is gone. *)
Lemma createBlob_Ok `{L : Library} path w h w' f b :
  resolve path = Some f → stat (tree w) f = Some (File b) →
  f ≠ temp_location (rand_calls w) →
  createBlob path w = (Done (Ok h), w') →
  h = checksum_of b ∧ String.length h = 40
  ∧ ∃ tm, mkdir_all (<[temp_location (rand_calls w) := File (lzw_encode b)]> (tree w)) []
                    [".gat"; "objects"; string_take 2 h] = Some tm
          ∧ stat tm (object_location h) ≠ Some Dir
          ∧ w' = World (<[object_location h := File (lzw_encode b)]>
                          (delete (temp_location (rand_calls w)) tm))
                       (stdout w) (6 + rand_calls w) (clock w) (DEBUG w).
Proof.
  intros Hres Hst Hfresh Hrun. unfold createBlob in Hrun.
  assert (Hopen : os_Open path w = (Done (Ok f), w)) by (unfold_prim; by rewrite Hres, Hst).
  step_in Hrun Hopen. step_in Hrun (randomString_eq 6 w).
  set (k := rand_calls w) in *. fold (temp_name k) in Hrun.
  set (w1 := World _ _ _ _ _) in Hrun.
  destruct (os_Create_temp k w1) as [[Ht Hcreate]|[e Hcreate]]; step_in Hrun Hcreate;
    [| discriminate].
  assert (Hread : file_ReadAll f (set_tree (<[temp_location k := File []]> (tree w1)) w1)
                  = (Done (Ok b), set_tree (<[temp_location k := File []]> (tree w1)) w1)).
  { unfold_prim. rewrite tree_set_tree, stat_insert by done.
    rewrite decide_False by done. change (tree w1) with (tree w). by rewrite Hst. }
  step_in Hrun Hread. rewrite createBlob_loop_whole in Hrun. cbv beta iota zeta in Hrun.
  rewrite bind_lzwWriter_Close in Hrun.
  rewrite tree_set_tree, stat_insert, decide_True, insert_insert_eq in Hrun by done.
  simpl app in Hrun. fold (checksum_of b) in Hrun.
  case_bool_decide as Hlen; [discriminate |].
  assert (Hlen' : String.length (checksum_of b) = 40) by lia.
  assert (Hhex : all_in hextable (checksum_of b) = true)
    by apply hex_EncodeToString_all_in.
  set (w3 := set_tree _ _) in Hrun.
  destruct (getObjectFolderPath_cases (checksum_of b) w3) as [[? _]|[_ Hfolder]]; [lia |].
  step_in Hrun Hfolder.
  match type of Hrun with context [os_MkdirAll ?d] =>
    destruct (os_MkdirAll_cases d w3) as [(p & tm & Hp & Hmk & Hrunmk)|(e & Hrunmk)] end;
    step_in Hrun Hrunmk; [| discriminate].
  rewrite resolve_object_folder in Hp by (done || lia). injection Hp as <-.
  destruct (getObjectPath_cases (checksum_of b) (set_tree tm w3)) as [[? _]|[_ Hobj]];
    [lia |].
  step_in Hrun Hobj. fold (object_path (checksum_of b)) in Hrun.
  assert (Htm : tree (set_tree tm w3) !! temp_location k = Some (File (lzw_encode b))).
  { simpl. eapply mkdir_all_keeps; [done |]. apply lookup_insert_eq. }
  destruct (os_Rename_file_cases (BASEDIR +:+ "/temp/" +:+ temp_name k)
              (object_path (checksum_of b)) _ _ _ (resolve_temp k) Htm)
    as [(n & Hn & _ & Hnd & Hren)|(e & Hren)]; step_in Hrun Hren; [| discriminate].
  rewrite resolve_object_path in Hn by (done || lia). injection Hn as <-.
  injection Hrun as <- <-. split; [done |]. split; [done |].
  exists tm. split; [exact Hmk |]. split; [exact Hnd |]. done.
Qed.

(** ** Store, then load (C1) *)

(** C1: when [createBlob] has stored a file as an object, reading the
    object file at the path derived from the returned hash gives back the
    content of the file, whatever it is.  The file stored is taken not to
    be the temporary file [createBlob] itself is about to create. *)
Theorem store_then_load `{L : Library} path w b h w' :
  lzw_lossless L →
  file_at (tree w) path = Some b →
  resolve path ≠ Some (temp_location (rand_calls w)) →
  createBlob path w = (Done (Ok h), w') →
  ∃ objectPath,
    getObjectPath h w' = (Done objectPath, w')
    ∧ resolve objectPath = Some (object_location h)
    ∧ readObjectFile objectPath w' = (Done (Ok b), w').
Proof.
  intros Hlzw (f & Hres & Hst)%file_at_Some Hfresh Hrun.
  assert (Hf : f ≠ temp_location (rand_calls w)) by congruence.
  destruct (createBlob_Ok _ _ _ _ _ _ Hres Hst Hf Hrun)
    as (Hh & Hlen & tm & Hmk & Hnd & Hw').
  assert (Hhex : all_in hextable h = true)
    by (rewrite Hh; apply hex_EncodeToString_all_in).
  exists (object_path h). split_and!.
  - apply getObjectPath_long. lia.
  - apply resolve_object_path; [done | lia].
  - apply readObjectFile_Ok. split; [done |]. exists (lzw_encode b). split; [| apply Hlzw].
    apply file_at_Some. exists (object_location h).
    split; [apply resolve_object_path; [done | lia] |].
    rewrite Hw'. simpl. apply lookup_insert_eq.
Qed.

Lemma Reference_lzw_lossless : lzw_lossless Reference.library.
Proof. by intros b. Qed.

Lemma store_then_load_witness :
  let L := Reference.library in
  let w := empty_file_repository in
  let h := "070102030b0506070f090a0b130d0e0f17111213" in
  let w' := Reference.after (createBlob "empty.txt") w in
  createBlob "empty.txt" w = (Done (Ok h), w')
  ∧ ∃ objectPath,
      getObjectPath h w' = (Done objectPath, w')
      ∧ resolve objectPath = Some (object_location h)
      ∧ readObjectFile objectPath w' = (Done (Ok []), w').
Proof.
  intros L w h w'.
  assert (Hfile : file_at (tree w) "empty.txt" = Some []) by evaluate.
  assert (Hfresh : resolve "empty.txt" ≠ Some (temp_location (rand_calls w))) by refute.
  assert (Hrun : createBlob "empty.txt" w = (Done (Ok h), w')) by evaluate.
  exact (conj Hrun (store_then_load "empty.txt" w [] h w' Reference_lzw_lossless
                      Hfile Hfresh Hrun)).
Defined.

(** ** Listing a directory *)

Lemma child_location (q D : location) n :
  q = D ++ [n] ↔ last q = Some n ∧ parent q = D.
Proof.
  unfold parent. split.
  - intros ->. rewrite last_snoc, length_app. simpl.
    replace (length D + 1 - 1) with (length D) by lia. by rewrite take_app_length.
  - intros [Hlast Hpar]. destruct (last_Some q n) as [[l' ->] _]; [done |].
    rewrite length_app in Hpar. simpl in Hpar.
    replace (length l' + 1 - 1) with (length l') in Hpar by lia.
    rewrite take_app_length in Hpar. by subst.
Qed.

Lemma elem_of_dir_entries t D n k :
  (n, k) ∈ dir_entries t D ↔ ∃ node, t !! (D ++ [n]) = Some node ∧ k = is_Dir node.
Proof.
  unfold dir_entries. rewrite list_elem_of_omap. split.
  - intros ([q node] & Hin%elem_of_map_to_list & Hf).
    destruct (last q) as [n'|] eqn:Hlast; [| done].
    case_bool_decide as Hpar; [| done]. injection Hf as -> <-.
    exists node. split; [| done].
    by rewrite <- (proj2 (child_location q D n) (conj Hlast Hpar)).
  - intros (node & Hq & ->). exists (D ++ [n], node).
    split; [by apply elem_of_map_to_list |].
    destruct (proj1 (child_location (D ++ [n]) D n) eq_refl) as [-> Hpar].
    by rewrite bool_decide_eq_true_2.
Qed.

Lemma NoDup_dir_entries_names t D : NoDup (dir_entries t D).*1.
Proof.
  unfold dir_entries.
  pose proof (NoDup_fst_map_to_list t) as Hnd.
  induction (map_to_list t) as [|[q node] l IH]; simpl; [constructor |].
  apply NoDup_cons in Hnd as [Hq Hl]. specialize (IH Hl).
  destruct (last q) as [n|] eqn:Hlast; [| done].
  case_bool_decide as Hpar; [| done]. simpl. constructor; [| done].
  intros ([n' k] & Hn & ([q' node'] & Hin & Hf)%list_elem_of_omap)%list_elem_of_fmap.
  simpl in Hn. subst n'.
  destruct (last q') as [n'|] eqn:Hlast'; [| done].
  case_bool_decide as Hpar'; [| done]. injection Hf as -> _.
  apply Hq. apply list_elem_of_fmap. exists (q', node'). split; [| done]. simpl.
  rewrite (proj2 (child_location q D n) (conj Hlast Hpar)).
  by rewrite (proj2 (child_location q' D n) (conj Hlast' Hpar')).
Qed.

(** ** The prune pass *)

Lemma when_DEBUG_tree m w :
  (∀ w0, ∃ w1, m w0 = (Done tt, w1) ∧ tree w1 = tree w0) →
  ∃ w1, when_DEBUG m w = (Done tt, w1) ∧ tree w1 = tree w.
Proof.
  intros Hm. unfold when_DEBUG, mbind, M_bind, get_DEBUG.
  destruct (DEBUG w); [apply Hm | by exists w].
Qed.

Lemma when_DEBUG_Printf_tree format args err w :
  ∃ w1, when_DEBUG (fmt_Printf format args err) w = (Done tt, w1) ∧ tree w1 = tree w.
Proof. apply when_DEBUG_tree. intros w0. by eexists. Qed.

Lemma os_RemoveAll_cases name w :
  (∃ p, resolve name = Some p ∧ p ≠ []
        ∧ os_RemoveAll name w = (Done (Ok tt), set_tree (remove_subtree (tree w) p) w))
  ∨ (∃ e, os_RemoveAll name w = (Done (Err e), w)).
Proof.
  unfold_prim. destruct (resolve name) as [[|c p]|]; [right | left | right]; eauto.
Qed.

Lemma os_Remove_cases name w :
  (∃ p, resolve name = Some p ∧ p ≠ [] ∧ is_Some (tree w !! p)
        ∧ os_Remove name w = (Done (Ok tt), set_tree (delete p (tree w)) w))
  ∨ (∃ e, os_Remove name w = (Done (Err e), w)).
Proof.
  unfold_prim. destruct (resolve name) as [[|c p]|]; [right; eauto | | right; eauto].
  destruct (tree w !! (c :: p)) as [[b|]|] eqn:Hst.
  - left. exists (c :: p). by rewrite Hst.
  - destruct (has_children (tree w) (c :: p)); [right; eauto |].
    left. exists (c :: p). by rewrite Hst.
  - right. eauto.
Qed.

Lemma switchDirToCommit_prune_tree path D commitFiles currentFiles : ∀ w w',
  resolve path = Some D →
  Forall (λ f, valid_name f.1) currentFiles →
  switchDirToCommit_prune path commitFiles currentFiles w = (Done (Ok tt), w') →
  tree w' = pruned D commitFiles currentFiles (tree w).
Proof.
  intros w w' Hres. revert w.
  induction currentFiles as [|[n k] files IH]; intros w Hvalid Hrun.
  - by injection Hrun as <-.
  - inversion Hvalid as [|? ? Hn Hfiles]; subst. simpl in Hn.
    unfold switchDirToCommit_prune in Hrun. cbn [for_each_try] in Hrun.
    apply try_inv_Ok in Hrun as ([] & w1 & Hstep & Hrun).
    unfold switchDirToCommit_prune_file in Hstep. cbv zeta in Hstep.
    apply IH in Hrun; [| done]. rewrite Hrun. unfold pruned. cbn [foldl]. f_equal.
    unfold prune_entry, stale, reserved. cbn [fst snd].
    pose proof (resolve_Join_child _ _ _ Hres Hn) as Hfull.
    destruct k; cbn [kind_of andb].
    + destruct (slices_Contains IGNORE_FOLDERS n); [by injection Hstep as <- |].
      cbn [negb andb].
      destruct (found_in commitFiles "tree" n); cbn [negb] in *;
        [by injection Hstep as <- |].
      destruct (os_RemoveAll_cases (filepath_Join [path; n]) w)
        as [(p & Hp & _ & Hrm)|(e & Hrm)]; step_in Hstep Hrm; [| discriminate].
      rewrite Hfull in Hp. injection Hp as <-.
      match type of Hstep with context [when_DEBUG ?m] =>
        destruct (when_DEBUG_Printf_tree
                    ("Removed folder " +:+ dq +:+ "%v" +:+ dq +:+ nl)
                    [AStr (filepath_Join [path; n])] None
                    (set_tree (remove_subtree (tree w) (D ++ [n])) w)) as (w2 & Hdbg & Ht)
      end.
      step_in Hstep Hdbg. injection Hstep as <-. by rewrite Ht.
    + destruct (found_in commitFiles "blob" n); cbn [negb] in *;
        [by injection Hstep as <- |].
      destruct (os_Remove_cases (filepath_Join [path; n]) w)
        as [(p & Hp & _ & _ & Hrm)|(e & Hrm)]; step_in Hstep Hrm; [| discriminate].
      rewrite Hfull in Hp. injection Hp as <-.
      destruct (when_DEBUG_Printf_tree
                  ("Removed file " +:+ dq +:+ "%v" +:+ dq +:+ nl)
                  [AStr (filepath_Join [path; n])] None
                  (set_tree (delete (D ++ [n]) (tree w)) w)) as (w2 & Hdbg & Ht).
      step_in Hstep Hdbg. injection Hstep as <-. by rewrite Ht.
Qed.

Lemma remove_subtree_lookup t p q :
  remove_subtree t p !! q = if decide (p `prefix_of` q) then None else t !! q.
Proof.
  unfold remove_subtree. rewrite map_lookup_filter.
  destruct (t !! q) as [n|]; simpl; [| by case_decide].
  case_decide.
  - by rewrite option_guard_False by (by intros []).
  - by rewrite option_guard_True.
Qed.

Lemma prune_entry_lookup D commitFiles t f q :
  prune_entry D commitFiles t f !! q
  = if decide (stale commitFiles f = true ∧ hits D f q) then None else t !! q.
Proof.
  unfold prune_entry. destruct f as [n k].
  destruct (stale commitFiles (n, k)) eqn:Hs.
  - destruct k; cbn [fst snd].
    + rewrite remove_subtree_lookup.
      case_decide as Hp; case_decide as Hd; try done.
      * exfalso. apply Hd. by split.
      * exfalso. by destruct Hd as [_ Hh].
    + destruct (decide (q = D ++ [n])) as [->|Hne].
      * rewrite lookup_delete_eq. by rewrite decide_True.
      * rewrite lookup_delete_ne by done. rewrite decide_False; [done | by intros [_ ?]].
  - rewrite decide_False; [done | by intros [? _]].
Qed.

Lemma pruned_lookup_None D commitFiles entries : ∀ t q,
  t !! q = None → pruned D commitFiles entries t !! q = None.
Proof.
  induction entries as [|f entries IH]; intros t q Hq; [done |].
  unfold pruned. cbn [foldl]. apply IH. rewrite prune_entry_lookup. by case_decide.
Qed.

Lemma pruned_lookup_hit D commitFiles entries : ∀ t q f,
  f ∈ entries → stale commitFiles f = true → hits D f q →
  pruned D commitFiles entries t !! q = None.
Proof.
  induction entries as [|f' entries IH]; intros t q f Hin Hstale Hhits.
  - by apply elem_of_nil in Hin.
  - unfold pruned. cbn [foldl]. apply elem_of_cons in Hin as [->|Hin].
    + apply pruned_lookup_None. rewrite prune_entry_lookup. by rewrite decide_True.
    + by eapply IH.
Qed.

Lemma pruned_lookup_miss D commitFiles entries : ∀ t q,
  (∀ f, f ∈ entries → stale commitFiles f = true → ¬ hits D f q) →
  pruned D commitFiles entries t !! q = t !! q.
Proof.
  induction entries as [|f entries IH]; intros t q Hmiss; [done |].
  change (pruned D commitFiles (f :: entries) t)
    with (pruned D commitFiles entries (prune_entry D commitFiles t f)).
  rewrite IH.
  - rewrite prune_entry_lookup. rewrite decide_False; [done |].
    intros [Hs Hh]. by apply (Hmiss f (list_elem_of_here _ _)).
  - intros f' Hin. apply Hmiss. by apply list_elem_of_further.
Qed.

Lemma deleted_iff t D commitFiles q :
  deleted t D commitFiles q
  ↔ ∃ f, f ∈ dir_entries t D ∧ stale commitFiles f = true ∧ hits D f q.
Proof.
  unfold deleted, hits. split.
  - intros (n & node & Hnode & Hstale & Hq). exists (n, is_Dir node).
    split; [apply elem_of_dir_entries; eauto | done].
  - intros ([n k] & (node & Hnode & ->)%elem_of_dir_entries & Hstale & Hq). eauto.
Qed.

(** After the prune pass, the deleted locations are empty and every
    other location is as before. *)
Lemma pruned_dir_entries_lookup t D commitFiles q :
  (deleted t D commitFiles q → pruned D commitFiles (dir_entries t D) t !! q = None)
  ∧ (¬ deleted t D commitFiles q → pruned D commitFiles (dir_entries t D) t !! q = t !! q).
Proof.
  split.
  - intros (f & Hin & Hstale & Hhits)%deleted_iff. by eapply pruned_lookup_hit.
  - intros Hno. apply pruned_lookup_miss. intros f Hin Hstale Hhits.
    apply Hno, deleted_iff. eauto.
Qed.

(** ** The extraction pass *)

Lemma mkdir_all_final rest : ∀ t made t',
  mkdir_all t made rest = Some t' → rest ≠ [] → t' !! (made ++ rest) = Some Dir.
Proof.
  induction rest as [|c rest IH]; intros t made t' Hmk Hne; [done |].
  simpl in Hmk. destruct rest as [|c' rest].
  - destruct (t !! (made ++ [c])) as [[b|]|] eqn:Hst; [done | |]; simpl in Hmk;
      injection Hmk as <-; [done | apply lookup_insert_eq].
  - replace (made ++ c :: c' :: rest) with ((made ++ [c]) ++ c' :: rest)
      by (by rewrite <- app_assoc).
    destruct (t !! (made ++ [c])) as [[b|]|] eqn:Hst; [done | |]; by eapply IH.
Qed.

Lemma prefix_of_take (q D : location) : q `prefix_of` D ↔ ∃ k, q = take k D.
Proof.
  split.
  - intros [r ->]. exists (length q). by rewrite take_app_length.
  - intros [k ->]. apply prefix_take.
Qed.

(** [os.MkdirAll] on an entry of a directory that exists with all its
    ancestors: the entry becomes a directory if it was missing, and no
    other location changes. *)
Lemma mkdir_child t D n t' :
  (∀ k, stat t (take k D) = Some Dir) →
  mkdir_all t [] (D ++ [n]) = Some t' →
  t' !! (D ++ [n]) = Some Dir ∧ ∀ q, q ≠ D ++ [n] → t' !! q = t !! q.
Proof.
  intros Hpre Hmk. split.
  - apply (mkdir_all_final _ _ [] _ Hmk). by destruct D.
  - intros q Hq. destruct (decide (q `prefix_of` D ∧ q ≠ [])) as [[Hp Hne]|Hno].
    + apply prefix_of_take in Hp as [k ->].
      pose proof (Hpre k) as Hk. destruct (take k D) as [|x l] eqn:Hx; [done |].
      simpl in Hk. rewrite Hk. by eapply mkdir_all_keeps.
    + apply (mkdir_all_lookup _ _ [] _ Hmk). intros k [Hk0 Hk] ->. simpl in *.
      rewrite length_app in Hk. simpl in Hk.
      destruct (decide (k ≤ length D)) as [Hle|Hgt].
      * rewrite take_app_le in Hq, Hno by done. apply Hno. split; [apply prefix_take |].
        destruct D; [simpl in Hle; lia |]. by destruct k; [lia |].
      * apply Hq. rewrite take_ge; [done |]. rewrite length_app. simpl. lia.
Qed.

Lemma os_OpenFile_trunc_cases name w :
  (∃ p, resolve name = Some p ∧ stat (tree w) p ≠ Some Dir
        ∧ os_OpenFile name [O_WRONLY; O_TRUNC; O_CREATE] w
          = (Done (Ok p), set_tree (<[p := File []]> (tree w)) w))
  ∨ (∃ e, os_OpenFile name [O_WRONLY; O_TRUNC; O_CREATE] w = (Done (Err e), w)).
Proof.
  unfold_prim. destruct (resolve name) as [p|]; [| right; eauto].
  destruct (stat (tree w) p) as [[c|]|] eqn:Hst; simpl; [left | right | ]; eauto.
  - exists p. by rewrite Hst.
  - destruct (stat (tree w) (parent p)) as [[c|]|]; [right | left | right]; eauto.
    exists p. by rewrite Hst.
Qed.

(** A location of the working tree is not the place of an object. *)
Lemma object_location_apart D n h :
  ¬ [".gat"] `prefix_of` D → object_location h ≠ D ++ [n].
Proof.
  intros Hwork Heq. destruct D as [|d D].
  - discriminate.
  - injection Heq as <- _. apply Hwork. by exists D.
Qed.

(** One row of the target, extracted. *)
Lemma switchDirToCommit_extract_step `{L : Library} path D file w w' :
  resolve path = Some D →
  ¬ [".gat"] `prefix_of` D →
  (∀ k, stat (tree w) (take k D) = Some Dir) →
  valid_name (name file) →
  (kind file = "blob" → hex_hash (hash file)) →
  switchDirToCommit_extract_file path file w = (Done (Ok tt), w') →
  (kind file = "tree" → tree w' !! (D ++ [name file]) = Some Dir)
  ∧ (kind file = "blob" →
     ∃ c data, tree w !! object_location (hash file) = Some (File c)
               ∧ lzw_decode c = (data, true)
               ∧ tree w' !! (D ++ [name file]) = Some (File data))
  ∧ (∀ q, (kind file = "tree" ∨ kind file = "blob" → q ≠ D ++ [name file]) →
       tree w' !! q = tree w !! q).
Proof.
  intros Hres Hwork Hpre Hname Hhash Hrun. unfold switchDirToCommit_extract_file in Hrun.
  cbv zeta in Hrun.
  pose proof (resolve_Join_child _ _ _ Hres Hname) as Hfull.
  destruct (String_eqb (kind file) "tree") eqn:Htree.
  - apply String_eqb_true in Htree.
    destruct (os_MkdirAll_cases (filepath_Join [path; name file]) w)
      as [(p & t' & Hp & Hmk & Hrunmk)|(e & Hrunmk)]; step_in Hrun Hrunmk; [| discriminate].
    rewrite Hfull in Hp. injection Hp as <-.
    destruct (when_DEBUG_Printf_tree ("Created folder " +:+ dq +:+ "%v" +:+ dq +:+ nl)
                [AStr (filepath_Join [path; name file])] None (set_tree t' w))
      as (w2 & Hdbg & Ht).
    step_in Hrun Hdbg. injection Hrun as <-. rewrite Ht, tree_set_tree.
    destruct (mkdir_child _ _ _ _ Hpre Hmk) as [Hdir Hframe].
    split_and!; [done | | by intros q Hq; apply Hframe, Hq; left].
    rewrite Htree. discriminate.
  - apply String_eqb_false in Htree.
    destruct (String_eqb (kind file) "blob") eqn:Hblob.
    2: { apply String_eqb_false in Hblob. injection Hrun as <-. by split_and!. }
    apply String_eqb_true in Hblob. destruct (Hhash Hblob) as [Hhex Hlen].
    destruct (os_OpenFile_trunc_cases (filepath_Join [path; name file]) w)
      as [(p & Hp & _ & Hopen)|(e & Hopen)]; step_in Hrun Hopen; [| discriminate].
    rewrite Hfull in Hp. injection Hp as <-.
    set (w2 := set_tree _ w) in Hrun.
    assert (Hlen2 : 2 ≤ String.length (hash file)) by lia.
    rewrite (bind_Done _ _ _ _ _ (getObjectPath_long _ w2 Hlen2)) in Hrun.
    fold (object_path (hash file)) in Hrun.
    destruct (os_Open_cases (object_path (hash file)) w2)
      as [(o & Ho & _ & Hopen2)|(e & Hopen2)]; step_in Hrun Hopen2.
    2: { rewrite bind_fmt_Printf in Hrun. discriminate. }
    rewrite resolve_object_path in Ho by done. injection Ho as <-.
    pose proof (object_location_apart D (name file) (hash file) Hwork) as Hapart.
    destruct (file_ReadAll_cases (object_location (hash file)) w2)
      as [(c & Hread & Hst)|(e & _ & Hread)]; step_in Hrun Hread; [| discriminate].
    destruct Hst as [Hst|[Hst _]].
    2: { revert Hopen2. unfold_prim. rewrite resolve_object_path by done.
         by rewrite Hst. }
    subst w2. rewrite tree_set_tree in Hst. cbn [stat object_location] in Hst.
    rewrite lookup_insert_ne in Hst by done.
    destruct (lzw_decode c) as [data ok] eqn:Hdec.
    rewrite (bind_Done _ _ _ _ _ (file_Write_run _ _ _)) in Hrun.
    rewrite tree_set_tree, stat_insert, decide_True, insert_insert_eq in Hrun
      by (done || by destruct D).
    destruct ok; [| discriminate].
    match type of Hrun with context [when_DEBUG ?m ≫= _] =>
      destruct (when_DEBUG_Printf_tree ("Updated file " +:+ dq +:+ "%v" +:+ dq +:+ nl)
                  [AStr (filepath_Join [path; name file])] None
                  (set_tree (<[D ++ [name file] := File ([] ++ data)]> (tree w))
                            (set_tree (<[D ++ [name file] := File []]> (tree w)) w)))
        as (w3 & Hdbg & Ht)
    end.
    step_in Hrun Hdbg. injection Hrun as <-. rewrite Ht, tree_set_tree.
    split_and!.
    + rewrite Hblob. discriminate.
    + intros _. exists c, data. split_and!; [done | done | apply lookup_insert_eq].
    + intros q Hq. rewrite lookup_insert_ne; [done |]. intros Heq. by apply Hq; [right |].
Qed.

Lemma switchDirToCommit_extract_tree `{L : Library} path D commitFiles : ∀ w w',
  resolve path = Some D →
  ¬ [".gat"] `prefix_of` D →
  (∀ k, stat (tree w) (take k D) = Some Dir) →
  Forall (λ e, valid_name (name e)) commitFiles →
  NoDup (name <$> commitFiles) →
  Forall (λ e, kind e = "blob" → hex_hash (hash e)) commitFiles →
  switchDirToCommit_extract path commitFiles w = (Done (Ok tt), w') →
  (∀ e, e ∈ commitFiles →
     (kind e = "tree" → tree w' !! (D ++ [name e]) = Some Dir)
     ∧ (kind e = "blob" →
        ∃ c data, tree w !! object_location (hash e) = Some (File c)
                  ∧ lzw_decode c = (data, true)
                  ∧ tree w' !! (D ++ [name e]) = Some (File data)))
  ∧ (∀ q, (∀ e, e ∈ commitFiles → kind e = "tree" ∨ kind e = "blob" → q ≠ D ++ [name e]) →
       tree w' !! q = tree w !! q).
Proof.
  intros w w' Hres Hwork. revert w.
  induction commitFiles as [|file files IH]; intros w Hpre Hnames Hnodup Hhashes Hrun.
  - injection Hrun as <-. split; [by intros e Hin%elem_of_nil | done].
  - unfold switchDirToCommit_extract in Hrun. cbn [for_each_try] in Hrun.
    apply try_inv_Ok in Hrun as ([] & w1 & Hstep & Hrun).
    inversion Hnames as [|? ? Hname Hnames']; subst.
    inversion Hhashes as [|? ? Hhash Hhashes']; subst.
    rewrite fmap_cons in Hnodup. apply NoDup_cons in Hnodup as [Hfresh Hnodup].
    destruct (switchDirToCommit_extract_step _ _ _ _ _ Hres Hwork Hpre Hname Hhash Hstep)
      as (Htree & Hblob & Hframe).
    assert (Hpre1 : ∀ k, stat (tree w1) (take k D) = Some Dir).
    { intros k. specialize (Hpre k). destruct (take k D) as [|x l] eqn:Hk; [done |].
      simpl in *. rewrite Hframe; [done |]. rewrite <- Hk. intros _ Heq.
      apply (f_equal length) in Heq. rewrite length_take, length_app in Heq.
      simpl in Heq. lia. }
    destruct (IH w1 Hpre1 Hnames' Hnodup Hhashes' Hrun) as [Hin Hout].
    assert (Hhead : tree w' !! (D ++ [name file]) = tree w1 !! (D ++ [name file])).
    { apply Hout. intros e He _ Heq. apply app_inj_tail in Heq as [_ Heq].
      apply Hfresh. rewrite Heq. apply list_elem_of_fmap. eauto. }
    split.
    + intros e [->|He]%elem_of_cons.
      * split.
        -- intros Hk. rewrite Hhead. by apply Htree.
        -- intros Hk. destruct (Hblob Hk) as (c & data & Hc & Hdec & Hfile).
           exists c, data. by rewrite Hhead.
      * destruct (Hin e He) as [Ht Hb]. split; [done |].
        intros Hk. destruct (Hb Hk) as (c & data & Hc & Hdec & Hfile).
        exists c, data. split_and!; try done.
        rewrite <- Hframe; [done |]. intros _. by apply object_location_apart.
    + intros q Hq. rewrite Hout.
      * apply Hframe. apply Hq. apply list_elem_of_here.
      * intros e He. apply Hq. by apply list_elem_of_further.
Qed.

(** ** Reconciling a directory (C2) *)

Lemma file_Readdir_cases f w :
  (stat (tree w) f = Some Dir
   ∧ file_Readdir f w = (Done (Ok (dir_entries (tree w) f)), w))
  ∨ (∃ e, file_Readdir f w = (Done (Err e), w)).
Proof.
  unfold_prim. destruct (stat (tree w) f) as [[c|]|]; [right | left | right]; eauto.
Qed.

(** C2: a successful [switchDirToCommit] of directory [D] against the
    rows [commitFiles].  Every row of kind [tree] is a directory of [D]
    afterwards, and every row of kind [blob] a file whose content is what
    loading its object gave before the call.  At every location that is
    not the place of a row, the tree afterwards is the tree before less
    the stale entries of [D]: a live entry that is not a reserved
    directory and has no row of its name and kind is gone, with all below
    it when it is a directory, and nothing else has changed.

    The directory is taken outside [.gat], existing with its ancestors,
    its entries and the rows to have proper names, the names of the rows
    to be distinct, and the hashes of the blob rows to be hexadecimal.  A
    row of another kind than [tree] and [blob] is passed over. *)
Theorem switchDirToCommit_reconciles `{L : Library} path D commitFiles w w' :
  resolve path = Some D →
  ¬ [".gat"] `prefix_of` D →
  (∀ k, stat (tree w) (take k D) = Some Dir) →
  (∀ n k, (n, k) ∈ dir_entries (tree w) D → valid_name n) →
  Forall (λ e, valid_name (name e)) commitFiles →
  NoDup (name <$> commitFiles) →
  Forall (λ e, kind e = "blob" → hex_hash (hash e)) commitFiles →
  switchDirToCommit path commitFiles w = (Done (Ok tt), w') →
  (∀ e, e ∈ commitFiles →
     (kind e = "tree" → tree w' !! (D ++ [name e]) = Some Dir)
     ∧ (kind e = "blob" →
        ∃ data, readObjectFile (object_path (hash e)) w = (Done (Ok data), w)
                ∧ tree w' !! (D ++ [name e]) = Some (File data)))
  ∧ (∀ q, (∀ e, e ∈ commitFiles → kind e = "tree" ∨ kind e = "blob" → q ≠ D ++ [name e]) →
       (deleted (tree w) D commitFiles q → tree w' !! q = None)
       ∧ (¬ deleted (tree w) D commitFiles q → tree w' !! q = tree w !! q)).
Proof.
  intros Hres Hwork Hpre Hlive Hnames Hnodup Hhashes Hrun.
  unfold switchDirToCommit in Hrun.
  assert (Hopen : os_Open path w = (Done (Ok D), w)).
  { unfold_prim. rewrite Hres. specialize (Hpre (length D)).
    rewrite firstn_all in Hpre. by rewrite Hpre. }
  step_in Hrun Hopen.
  destruct (file_Readdir_cases D w) as [[_ Hdir]|[e Hdir]]; step_in Hrun Hdir;
    [| discriminate].
  apply try_inv_Ok in Hrun as ([] & w1 & Hprune & Hrun).
  apply (switchDirToCommit_prune_tree _ D) in Hprune; [| done |].
  2: { apply Forall_forall. intros [n k] Hin. by apply (Hlive n k). }
  pose proof (pruned_dir_entries_lookup (tree w) D commitFiles) as Hlookup.
  rewrite <- Hprune in Hlookup.
  assert (Hkeep : ∀ q, ¬ deleted (tree w) D commitFiles q → tree w1 !! q = tree w !! q)
    by (intros q; apply Hlookup).
  assert (Hpre1 : ∀ k, stat (tree w1) (take k D) = Some Dir).
  { intros k. specialize (Hpre k). destruct (take k D) as [|x l] eqn:Hk; [done |].
    simpl in *. rewrite Hkeep; [done |]. rewrite <- Hk.
    intros (n & node & _ & _ & Hhit).
    assert (Hlen : length (D ++ [n]) ≤ length (take k D)).
    { destruct (is_Dir node); [by apply prefix_length | by rewrite Hhit]. }
    rewrite length_take, length_app in Hlen. simpl in Hlen. lia. }
  destruct (switchDirToCommit_extract_tree _ _ _ _ _ Hres Hwork Hpre1 Hnames Hnodup
              Hhashes Hrun) as [Hin Hout].
  split.
  - intros e He. destruct (Hin e He) as [Ht Hb]. split; [done |].
    intros Hk. destruct (Hb Hk) as (c & data & Hc & Hdec & Hfile).
    exists data. split; [| done].
    rewrite Forall_forall in Hhashes. destruct (Hhashes e He Hk) as [Hhex Hlen].
    apply readObjectFile_Ok. split; [done |]. exists c. split; [| done].
    apply file_at_Some. exists (object_location (hash e)).
    split; [by apply resolve_object_path |]. cbn [stat object_location].
    rewrite <- Hkeep; [done |].
    intros (n & node & Hnode & Hstale & Hhit). destruct node as [b|]; cbn [is_Dir] in *.
    + by apply (object_location_apart D n (hash e)).
    + destruct Hhit as [r Hr]. destruct D as [|d D].
      * injection Hr as <- _. by vm_compute in Hstale.
      * injection Hr as <- _. apply Hwork. by exists D.
  - intros q Hq. rewrite (Hout q Hq). apply Hlookup.
Qed.

Lemma switchDirToCommit_reconciles_witness :
  let L := Reference.library in
  let w := cluttered_repository in
  let w' := Reference.after (switchDirToCommit "./" committed_rows) w in
  switchDirToCommit "./" committed_rows w = (Done (Ok tt), w')
  ∧ (∀ e, e ∈ committed_rows →
       (kind e = "tree" → tree w' !! ([] ++ [name e]) = Some Dir)
       ∧ (kind e = "blob" →
          ∃ data, readObjectFile (object_path (hash e)) w = (Done (Ok data), w)
                  ∧ tree w' !! ([] ++ [name e]) = Some (File data)))
  ∧ (∀ q, (∀ e, e ∈ committed_rows → kind e = "tree" ∨ kind e = "blob" →
             q ≠ [] ++ [name e]) →
       (deleted (tree w) [] committed_rows q → tree w' !! q = None)
       ∧ (¬ deleted (tree w) [] committed_rows q → tree w' !! q = tree w !! q)).
Proof.
  intros L w w'.
  assert (Hres : resolve "./" = Some []) by evaluate.
  assert (Hwork : ¬ [".gat"] `prefix_of` ([] : location)) by refute.
  assert (Hpre : ∀ k, stat (tree w) (take k []) = Some Dir) by (intros k; by rewrite take_nil).
  assert (Hlive : ∀ n k, (n, k) ∈ dir_entries (tree w) [] → valid_name n).
  { assert (Hall : Forall (λ f, valid_name f.1) (dir_entries (tree w) [])) by evaluate.
    rewrite Forall_forall in Hall. intros n k Hin. apply (Hall _ Hin). }
  assert (Hnames : Forall (λ e, valid_name (name e)) committed_rows) by evaluate.
  assert (Hnodup : NoDup (name <$> committed_rows)) by evaluate.
  assert (Hhashes : Forall (λ e, kind e = "blob" → hex_hash (hash e)) committed_rows)
    by evaluate.
  assert (Hrun : switchDirToCommit "./" committed_rows w = (Done (Ok tt), w')) by evaluate.
  exact (conj Hrun (switchDirToCommit_reconciles "./" [] committed_rows w w'
                      Hres Hwork Hpre Hlive Hnames Hnodup Hhashes Hrun)).
Defined.

(** In that run [a.txt] is restored, [extra.txt] and [junk] are gone,
    and the repository is as it was. *)
Example switchDirToCommit_cluttered :
  let w' := Reference.after (switchDirToCommit (L := Reference.library) "./" committed_rows)
              cluttered_repository in
  tree w' = tree one_commit_repository.
Proof. intros w'. evaluate. Qed.

(** ** What [createBlob] leaves untouched *)

Lemma same_work_trans t1 t2 t3 : same_work t1 t2 → same_work t2 t3 → same_work t1 t3.
Proof. intros H12 H23 q Hq. by rewrite H23, H12. Qed.

Lemma same_work_insert t p n : [".gat"] `prefix_of` p → same_work t (<[p := n]> t).
Proof. intros Hp q Hq. rewrite lookup_insert_ne; [done |]. by intros <-. Qed.

Lemma same_work_delete t p : [".gat"] `prefix_of` p → same_work t (delete p t).
Proof. intros Hp q Hq. rewrite lookup_delete_ne; [done |]. by intros <-. Qed.

Lemma same_work_mkdir_all t p t' :
  mkdir_all t [] (".gat" :: p) = Some t' → same_work t t'.
Proof.
  intros Hmk q Hq. apply (mkdir_all_lookup _ _ _ _ Hmk).
  intros k [Hk _] ->. apply Hq. destruct k; [lia |]. simpl. by eexists.
Qed.

Lemma temp_location_gat `{L : Library} k : [".gat"] `prefix_of` temp_location k.
Proof. by eexists. Qed.

Lemma object_location_gat h : [".gat"] `prefix_of` object_location h.
Proof. by eexists. Qed.

Lemma same_work_close t dst data :
  [".gat"] `prefix_of` dst →
  same_work t (match stat t dst with
               | Some (File c) => <[dst := File (c ++ data)]> t
               | _ => t
               end).
Proof.
  intros Hdst. destruct (stat t dst) as [[c|]|]; try done. by apply same_work_insert.
Qed.

(** Whatever its outcome, [createBlob] does not run out of fuel, changes
    no working file, and makes at most one temporary name. *)
Lemma createBlob_any `{L : Library} path w :
  ∃ r w', createBlob path w = (r, w') ∧ r ≠ OutOfFuel
          ∧ same_work (tree w) (tree w')
          ∧ ((∃ e, r = Done (Err e)) ∨ rand_calls w' = 6 + rand_calls w).
Proof.
  unfold createBlob.
  destruct (os_Open_cases path w) as [(f & _ & _ & Hopen)|(e & Hopen)]; step Hopen.
  2: { rewrite bind_fmt_Printf. do 2 eexists. split; [reflexivity |].
       split; [done |]. split; [done | left; eauto]. }
  step (randomString_eq 6 w). set (k := rand_calls w). fold (temp_name k).
  set (w1 := World _ _ _ _ _).
  destruct (os_Create_temp k w1) as [[Ht Hcreate]|[e Hcreate]]; step Hcreate.
  2: { do 2 eexists. split; [reflexivity |]. split; [done |]. split; [done | by right]. }
  set (t2 := <[temp_location k := File []]> (tree w1)).
  assert (H2 : same_work (tree w) t2) by apply same_work_insert, temp_location_gat.
  destruct (file_ReadAll_cases f (set_tree t2 w1)) as [(c & Hread & _)|(e & _ & Hread)];
    step Hread.
  2: { rewrite bind_fmt_Printf, bind_lzwWriter_Close. do 2 eexists.
       split; [reflexivity |]. split; [done |]. split; [| by right].
       eapply same_work_trans; [exact H2 |]. apply same_work_close, temp_location_gat. }
  rewrite createBlob_loop_whole. cbv beta iota zeta. rewrite bind_lzwWriter_Close.
  rewrite tree_set_tree. subst t2.
  rewrite stat_insert, decide_True, insert_insert_eq by done. simpl app.
  set (t3 := <[temp_location k := File (lzw_encode c)]> (tree w1)).
  assert (H3 : same_work (tree w) t3) by apply same_work_insert, temp_location_gat.
  fold (checksum_of c). case_bool_decide as Hlen.
  { do 2 eexists. split; [reflexivity |]. split; [done |]. split; [done | by right]. }
  assert (Hlen' : String.length (checksum_of c) = 40) by lia.
  assert (Hhex : all_in hextable (checksum_of c) = true) by apply hex_EncodeToString_all_in.
  set (w3 := set_tree t3 _).
  destruct (getObjectFolderPath_cases (checksum_of c) w3) as [[? _]|[_ Hfolder]]; [lia |].
  step Hfolder.
  match goal with |- context [os_MkdirAll ?d] =>
    destruct (os_MkdirAll_cases d w3) as [(p & tm & Hp & Hmk & Hrunmk)|(e & Hrunmk)] end;
    step Hrunmk.
  2: { do 2 eexists. split; [reflexivity |]. split; [done |]. split; [done | by right]. }
  rewrite resolve_object_folder in Hp by (done || lia). injection Hp as <-.
  assert (H4 : same_work (tree w) tm).
  { eapply same_work_trans; [exact H3 |]. by eapply same_work_mkdir_all. }
  destruct (getObjectPath_cases (checksum_of c) (set_tree tm w3)) as [[? _]|[_ Hobj]];
    [lia |].
  step Hobj. fold (object_path (checksum_of c)).
  assert (Htemp : tree (set_tree tm w3) !! temp_location k = Some (File (lzw_encode c))).
  { rewrite tree_set_tree. eapply mkdir_all_keeps; [done |]. apply lookup_insert_eq. }
  destruct (os_Rename_file_cases (BASEDIR +:+ "/temp/" +:+ temp_name k)
              (object_path (checksum_of c)) _ _ _ (resolve_temp k) Htemp)
    as [(n & Hn & _ & _ & Hren)|(e & Hren)]; step Hren.
  - rewrite resolve_object_path in Hn by (done || lia). injection Hn as <-.
    do 2 eexists. split; [reflexivity |]. split; [done |]. split; [| by right].
    rewrite !tree_set_tree. eapply same_work_trans; [exact H4 |].
    eapply same_work_trans; [apply same_work_delete, (temp_location_gat k) |].
    apply same_work_insert, object_location_gat.
  - do 2 eexists. split; [reflexivity |]. split; [done |]. split; [done | by right].
Qed.

(** ** What [createTree] leaves untouched, and its fuel *)

Lemma fits_same_work fuel t t' folderPath :
  fits fuel t folderPath → same_work t t' → fits fuel t' folderPath.
Proof.
  intros (D & Hres & Hwork & Hfuel & Hbelow) Hsame. exists D. split_and!; try done.
  intros q Hpre Hq Hsome. apply Hbelow; try done. by rewrite <- (Hsame q Hq).
Qed.

Lemma not_reserved_not_gat n : slices_Contains IGNORE_FOLDERS n = false → n ≠ ".gat".
Proof. intros Hn ->. by vm_compute in Hn. Qed.

(** A subdirectory that is not reserved fits with one level less. *)
Lemma fits_child fuel t folderPath D n :
  fits (S fuel) t folderPath → resolve folderPath = Some D →
  is_Some (t !! (D ++ [n])) → slices_Contains IGNORE_FOLDERS n = false →
  valid_name n ∧ resolve (folderPath +:+ "/" +:+ n) = Some (D ++ [n])
  ∧ ¬ [".gat"] `prefix_of` (D ++ [n])
  ∧ fits fuel t (folderPath +:+ "/" +:+ n).
Proof.
  intros (D' & Hres' & Hwork & _ & Hbelow) Hres Hsome Hn.
  rewrite Hres in Hres'. injection Hres' as <-.
  assert (Hout : ¬ [".gat"] `prefix_of` (D ++ [n])).
  { intros [r Hr]. destruct D as [|d D].
    - injection Hr as Hr _. by apply (not_reserved_not_gat n).
    - injection Hr as -> _. apply Hwork. by eexists. }
  destruct (Hbelow (D ++ [n]) (prefix_app_r _ _ _ (reflexivity D)) Hout Hsome)
    as [Hvalid Hlen].
  apply Forall_app in Hvalid as [_ Hvalid]. inversion Hvalid as [|? ? Hvn _]; subst.
  pose proof (resolve_child _ _ _ Hres Hvn) as Hchild.
  split_and!; try done.
  exists (D ++ [n]). rewrite length_app in *. simpl in *. split_and!; try done; [lia |].
  intros q Hpre Hq Hq'. destruct (Hbelow q) as [Hv Hl]; try done.
  - etrans; [| exact Hpre]. by apply prefix_app_r.
  - split; [done | lia].
Qed.

Lemma os_Remove_temp_same_work `{L : Library} k w :
  ∃ r w', os_Remove (BASEDIR +:+ "/temp/" +:+ temp_name k) w = (Done r, w')
          ∧ same_work (tree w) (tree w') ∧ rand_calls w' = rand_calls w.
Proof.
  destruct (os_Remove_cases (BASEDIR +:+ "/temp/" +:+ temp_name k) w)
    as [(p & Hp & _ & _ & Hrm)|(e & Hrm)]; rewrite Hrm; do 2 eexists;
    (split; [reflexivity |]); split; try done.
  rewrite resolve_temp in Hp. injection Hp as <-.
  rewrite tree_set_tree. apply same_work_delete, temp_location_gat.
Qed.

Lemma file_WriteString_temp_same_work `{L : Library} k s w :
  ∃ w', file_WriteString (temp_location k) s w = (Done (Ok tt), w')
        ∧ same_work (tree w) (tree w') ∧ rand_calls w' = rand_calls w.
Proof.
  unfold file_WriteString. rewrite file_Write_run. eexists. split; [reflexivity |].
  split; [| done]. rewrite tree_set_tree. apply same_work_close, temp_location_gat.
Qed.

Lemma createTree_any `{L : Library} fuel : ∀ folderPath w,
  ∃ r w', createTree fuel folderPath w = (r, w')
          ∧ same_work (tree w) (tree w')
          ∧ (fits fuel (tree w) folderPath → r ≠ OutOfFuel).
Proof.
  induction fuel as [|fuel IH]; intros folderPath w.
  { exists OutOfFuel, w. split; [done |]. split; [done |].
    intros (_ & _ & _ & ? & _). lia. }
  cbn [createTree]. step (randomString_eq 6 w). set (k := rand_calls w).
  fold (temp_name k). set (w1 := World _ _ _ _ _).
  destruct (os_Create_temp k w1) as [[Ht Hcreate]|[e Hcreate]]; step Hcreate.
  2: { do 2 eexists. split; [reflexivity |]. by split. }
  set (t2 := <[temp_location k := File []]> (tree w1)).
  assert (H2 : same_work (tree w) t2) by apply same_work_insert, temp_location_gat.
  destruct (os_Open_cases folderPath (set_tree t2 w1)) as [(D & HD & _ & Hopen)|(e & Hopen)];
    step Hopen.
  2: { do 2 eexists. split; [reflexivity |]. by split. }
  destruct (file_Readdir_cases D (set_tree t2 w1)) as [[_ Hdir]|[e Hdir]]; step Hdir.
  2: { do 2 eexists. split; [reflexivity |]. by split. }
  rewrite tree_set_tree.
  assert (Hloop : ∀ files wi,
            same_work (tree w) (tree wi) →
            (∀ n b, (n, b) ∈ files → is_Some (t2 !! (D ++ [n]))) →
            ∃ r wj,
              for_each files (createTree_entry (createTree fuel) folderPath
                                (temp_location k)) wi = (r, wj)
              ∧ same_work (tree w) (tree wj)
              ∧ (fits (S fuel) (tree w) folderPath → r ≠ OutOfFuel)).
  { induction files as [|[n b] files IHfiles]; intros wi Hwi Hfiles.
    { exists (Done tt), wi. by split_and!. }
    cbn [for_each].
    assert (Hrest : ∀ n' b', (n', b') ∈ files → is_Some (t2 !! (D ++ [n'])))
      by (intros n' b' Hin; eapply Hfiles; by apply list_elem_of_further).
    assert (Hstep : ∃ r wj, createTree_entry (createTree fuel) folderPath
                              (temp_location k) (n, b) wi = (r, wj)
                            ∧ same_work (tree w) (tree wj)
                            ∧ (fits (S fuel) (tree w) folderPath → r ≠ OutOfFuel)).
    { unfold createTree_entry. cbv zeta. destruct b.
      - destruct (slices_Contains IGNORE_FOLDERS n) eqn:Hign.
        { exists (Done tt), wi. by split_and!. }
        destruct (IH (folderPath +:+ "/" +:+ n) wi) as (r & w' & Hrun & Hsame & Hfuel).
        assert (Hfit : fits (S fuel) (tree w) folderPath → r ≠ OutOfFuel).
        { intros Hfits. apply Hfuel. eapply fits_same_work; [| exact Hwi].
          destruct (Hfiles n true (list_elem_of_here _ _)) as [node Hnode].
          assert (Hout : ¬ [".gat"] `prefix_of` (D ++ [n])).
          { destruct Hfits as (D' & HD' & Hwork & _). rewrite HD in HD'.
            injection HD' as <-. intros [r' Hr]. destruct D as [|d D].
            - injection Hr as Hr _. by apply (not_reserved_not_gat n).
            - injection Hr as -> _. apply Hwork. by eexists. }
          apply (fits_child fuel (tree w) folderPath D n); try done.
          rewrite <- (H2 _ Hout). eauto. }
        unfold mbind at 1, M_bind at 1. rewrite Hrun.
        destruct r as [[checksum|e]|c|].
        + destruct (file_WriteString_temp_same_work k (tree_row "tree" checksum n) w')
            as (w'' & Hwrite & Hsame' & _).
          rewrite (bind_Done _ _ _ _ _ Hwrite). do 2 eexists. split; [reflexivity |].
          split; [| done]. eapply same_work_trans; [exact Hwi |].
          by eapply same_work_trans.
        + do 2 eexists. split; [reflexivity |]. split; [| done].
          by eapply same_work_trans.
        + do 2 eexists. split; [reflexivity |]. split; [| done].
          by eapply same_work_trans.
        + do 2 eexists. split; [reflexivity |].
          split; [| by intros Hfits; destruct (Hfit Hfits)].
          by eapply same_work_trans.
      - destruct (createBlob_any (folderPath +:+ "/" +:+ n) wi)
          as (r & w' & Hrun & Hfuel & Hsame & _).
        unfold mbind at 1, M_bind at 1. rewrite Hrun.
        destruct r as [[checksum|e]|c|]; [| | | done].
        + destruct (file_WriteString_temp_same_work k (tree_row "blob" checksum n) w')
            as (w'' & Hwrite & Hsame' & _).
          rewrite (bind_Done _ _ _ _ _ Hwrite). do 2 eexists. split; [reflexivity |].
          split; [| done]. eapply same_work_trans; [exact Hwi |].
          by eapply same_work_trans.
        + do 2 eexists. split; [reflexivity |]. split; [| done].
          by eapply same_work_trans.
        + do 2 eexists. split; [reflexivity |]. split; [| done].
          by eapply same_work_trans. }
    destruct Hstep as (r & wj & Hrun & Hsame & Hfuel).
    unfold mbind at 1, M_bind at 1. rewrite Hrun. destruct r as [[]|c|].
    - by apply IHfiles.
    - do 2 eexists. split; [reflexivity |]. by split.
    - do 2 eexists. split; [reflexivity |]. by split. }
  destruct (Hloop (dir_entries t2 D) (set_tree t2 w1)) as (r & wj & Hrun & Hsame & Hfuel).
  { by rewrite tree_set_tree. }
  { intros n b (node & Hnode & _)%elem_of_dir_entries. eauto. }
  unfold mbind at 1, M_bind at 1. rewrite Hrun. destruct r as [[]|c|].
  2: { do 2 eexists. split; [reflexivity |]. by split. }
  2: { do 2 eexists. split; [reflexivity |]. split; [done |].
       intros Hfits. exfalso. by apply (Hfuel Hfits). }
  destruct (createBlob_any (BASEDIR +:+ "/temp/" +:+ temp_name k) wj)
    as (r & w' & Hblob & Hnf & Hsame' & _).
  unfold mbind at 1, M_bind at 1. rewrite Hblob.
  assert (Hw' : same_work (tree w) (tree w')) by (by eapply same_work_trans).
  destruct r as [c|c|]; [| | done].
  2: { do 2 eexists. split; [reflexivity |]. by split. }
  unfold mbind at 1, M_bind at 1, get_DEBUG at 1.
  destruct (os_Remove_temp_same_work k w') as (rr & w'' & Hrm & Hsame'' & _).
  assert (Hw'' : same_work (tree w) (tree w'')) by (by eapply same_work_trans).
  destruct (DEBUG w'); cbn [negb].
  - unfold mbind at 1, M_bind at 1, mret at 1, M_ret at 1.
    destruct c; do 2 eexists; (split; [reflexivity |]); by split.
  - rewrite (bind_Done _ _ _ _ _
               (bind_Done _ (λ _, mret tt) _ _ _ Hrm)).
    destruct c; do 2 eexists; (split; [reflexivity |]); by split.
Qed.

(** ** The rows of a snapshot *)

Lemma bytes_of_string_app a b :
  bytes_of_string (a +:+ b) = bytes_of_string a ++ bytes_of_string b.
Proof.
  unfold bytes_of_string, String.list_byte_of_string.
  induction a as [|c a IH]; simpl; [done |]. by rewrite IH.
Qed.

Lemma drawn_S `{L : Library} k m : drawn k (S m) = temp_name k :: drawn (6 + k) m.
Proof.
  unfold drawn. cbn [seq map]. rewrite Nat.mul_0_r, Nat.add_0_r. f_equal.
  rewrite <- seq_shift, map_map. apply map_ext. intros i. f_equal. lia.
Qed.

Lemma drawn_app `{L : Library} k m1 m2 :
  drawn k (m1 + m2) = drawn k m1 ++ drawn (k + 6 * m1) m2.
Proof.
  revert k. induction m1 as [|m1 IH]; intros k.
  - simpl. f_equal. lia.
  - cbn [Nat.add]. rewrite !drawn_S, IH. simpl. do 3 f_equal. lia.
Qed.

(** Directories listed in two trees that agree on their entries. *)
Lemma dir_entries_Permutation t1 t2 D :
  (∀ n, t2 !! (D ++ [n]) = t1 !! (D ++ [n])) → dir_entries t2 D ≡ₚ dir_entries t1 D.
Proof.
  intros Hsame. apply NoDup_Permutation.
  - eapply NoDup_fmap_1, NoDup_dir_entries_names.
  - eapply NoDup_fmap_1, NoDup_dir_entries_names.
  - intros [n k]. rewrite !elem_of_dir_entries. by setoid_rewrite Hsame.
Qed.

Lemma outside_gat_child D n :
  ¬ [".gat"] `prefix_of` D → (D = [] → n ≠ ".gat") → ¬ [".gat"] `prefix_of` (D ++ [n]).
Proof.
  intros Hwork Hn [r Hr]. destruct D as [|d D].
  - injection Hr as Hr _. by apply Hn.
  - injection Hr as -> _. apply Hwork. by eexists.
Qed.

(** After a successful [createBlob]: the object is in place, one name
    was drawn, and the other temporary files are as they were. *)
Lemma createBlob_Ok_frame `{L : Library} path w h w' f b :
  resolve path = Some f → stat (tree w) f = Some (File b) →
  f ≠ temp_location (rand_calls w) →
  createBlob path w = (Done (Ok h), w') →
  h = checksum_of b
  ∧ rand_calls w' = 6 + rand_calls w
  ∧ tree w' !! object_location h = Some (File (lzw_encode b))
  ∧ (∀ x, x ≠ temp_name (rand_calls w) →
          tree w' !! [".gat"; "temp"; x] = tree w !! [".gat"; "temp"; x]).
Proof.
  intros Hres Hst Hfresh Hrun.
  destruct (createBlob_Ok _ _ _ _ _ _ Hres Hst Hfresh Hrun)
    as (Hh & Hlen & tm & Hmk & Hnd & ->).
  split_and!; try done.
  - simpl. apply lookup_insert_eq.
  - intros x Hx. simpl. rewrite lookup_insert_ne by done.
    rewrite lookup_delete_ne by (unfold temp_location; congruence).
    rewrite (mkdir_all_lookup _ _ _ _ Hmk).
    + rewrite lookup_insert_ne; [done |]. unfold temp_location. congruence.
    + intros k [Hk0 Hk] Heq. simpl in Hk.
      destruct k as [|[|[|[|k]]]]; simpl in Heq; try lia; discriminate.
Qed.

Lemma NoDup_drawn_split `{L : Library} k a b :
  NoDup (drawn k (a + b)) →
  NoDup (drawn k a) ∧ NoDup (drawn (k + 6 * a) b)
  ∧ ∀ x, x ∈ drawn k a → x ∉ drawn (k + 6 * a) b.
Proof. rewrite drawn_app. intros (Ha & Hab & Hb)%NoDup_app. by split_and!. Qed.

Lemma not_drawn_split `{L : Library} k a b x :
  x ∉ drawn k (a + b) → (x ∉ drawn k a) ∧ (x ∉ drawn (k + 6 * a) b).
Proof. rewrite drawn_app, not_elem_of_app. done. Qed.

Lemma temp_name_drawn `{L : Library} k m : temp_name k ∈ drawn k (S m).
Proof. rewrite drawn_S. apply list_elem_of_here. Qed.

(** One entry of the folder: the row it appends to the temporary file. *)
Lemma createTree_entry_Ok `{L : Library} fuel folderPath D t0 t k mi n b wi wi1 :
  builds_snapshot fuel →
  resolve folderPath = Some D → ¬ [".gat"] `prefix_of` D →
  (D = [] → t !! [".gat"] = Some Dir) →
  same_work t0 t → same_work t0 (tree wi) →
  (∀ q, D `prefix_of` q → ¬ [".gat"] `prefix_of` q → is_Some (t0 !! q) →
        Forall valid_name q) →
  (∃ node, t !! (D ++ [n]) = Some node ∧ b = is_Dir node) →
  rand_calls wi = k + 6 * S mi →
  createTree_entry (createTree fuel) folderPath (temp_location k) (n, b) wi
  = (Done tt, wi1) →
  ∃ m1 row,
    rand_calls wi1 = rand_calls wi + 6 * m1 ∧ same_work t0 (tree wi1)
    ∧ (NoDup (drawn k (S mi + m1)) →
       ∀ acc, tree wi !! temp_location k = Some (File acc) →
         (∀ x, x ∉ drawn k (S mi + m1) →
               tree wi1 !! [".gat"; "temp"; x] = tree wi !! [".gat"; "temp"; x])
         ∧ tree wi1 !! temp_location k = Some (File (acc ++ bytes_of_string row))
         ∧ ∀ files text, snapshot_rows t0 D files text →
                         snapshot_rows t0 D ((n, b) :: files) (row +:+ text)).
Proof.
  intros IH HD Hwork Hgat Ht Hwi Hnames (node & Hnode & Hb) Hrand Hrun.
  unfold createTree_entry in Hrun. cbv zeta in Hrun.
  destruct (decide (b = true ∧ slices_Contains IGNORE_FOLDERS n = true)) as [[-> Hign]|Hlive].
  { rewrite Hign in Hrun. injection Hrun as <-. exists 0, "".
    split; [lia |]. split; [done |]. intros _ acc Hacc. split; [done |].
    split; [by rewrite app_nil_r |]. intros files text Hrows. by apply rows_reserved. }
  assert (Hout : ¬ [".gat"] `prefix_of` (D ++ [n])).
  { apply outside_gat_child; [done |]. intros -> ->. simpl in Hnode.
    rewrite (Hgat eq_refl) in Hnode.
    injection Hnode as <-. simpl in Hb. subst b. apply Hlive. by split. }
  assert (Ht0 : t0 !! (D ++ [n]) = Some node) by (by rewrite <- (Ht _ Hout)).
  assert (Hvalid : valid_name n).
  { assert (Hall : Forall valid_name (D ++ [n])).
    { apply Hnames; [by apply prefix_app_r | done | by rewrite Ht0]. }
    apply Forall_app in Hall as [_ Hall]. by inversion Hall. }
  pose proof (resolve_child _ _ _ HD Hvalid) as Hchild.
  assert (Hname : ∀ m1, NoDup (drawn k (S mi + m1)) →
            NoDup (drawn (rand_calls wi) m1) ∧ temp_name k ∉ drawn (rand_calls wi) m1).
  { intros m1 (_ & Hm1 & Hapart)%NoDup_drawn_split. rewrite Hrand. split; [done |].
    apply Hapart, temp_name_drawn. }
  assert (Hkeep : ∀ m1 x, x ∉ drawn k (S mi + m1) →
            x ≠ temp_name k ∧ x ∉ drawn (rand_calls wi) m1).
  { intros m1 x [Hx1 Hx2]%not_drawn_split. rewrite Hrand. split; [| done].
    intros ->. apply Hx1, temp_name_drawn. }
  destruct b.
  - destruct (slices_Contains IGNORE_FOLDERS n) eqn:Hign; [by destruct Hlive |].
    apply bind_inv_Done in Hrun as ([hc|e] & wi' & Hsub & Hrun); [| discriminate].
    unfold file_WriteString in Hrun. step_in Hrun (file_Write_run (temp_location k)
      (bytes_of_string (tree_row "tree" hc n)) wi').
    injection Hrun as <-.
    destruct (createTree_any fuel (folderPath +:+ "/" +:+ n) wi)
      as (r & w'' & Hany & Hsame & _).
    rewrite Hsub in Hany. injection Hany as <- <-.
    destruct (IH _ _ t0 wi hc wi' Hchild Hout) as (m1 & Hm1 & Hsnap).
    { intros Hnil. by destruct D. }
    { done. }
    { intros q Hq. apply Hnames. etrans; [| exact Hq]. by apply prefix_app_r. }
    { done. }
    exists m1, (tree_row "tree" hc n). split; [exact Hm1 |].
    split.
    { rewrite tree_set_tree. eapply same_work_trans; [exact Hwi |].
      eapply same_work_trans; [exact Hsame |].
      apply (same_work_close (tree wi') (temp_location k)), temp_location_gat. }
    intros Hnd acc Hacc. destruct (Hname _ Hnd) as [Hnd1 Hk].
    destruct (Hsnap Hnd1) as (Hkept & sub & Hsub' & -> & _).
    assert (Hacc' : tree wi' !! temp_location k = Some (File acc)).
    { unfold temp_location. by rewrite (Hkept _ Hk). }
    rewrite tree_set_tree, Hacc'. split_and!.
    + intros x [Hx1 Hx2]%Hkeep. rewrite lookup_insert_ne
        by (unfold temp_location; congruence). by apply Hkept.
    + apply lookup_insert_eq.
    + intros files text Hrows. by apply rows_tree.
  - destruct node as [c|]; [| done].
    apply bind_inv_Done in Hrun as ([hb|e] & wi' & Hsub & Hrun); [| discriminate].
    unfold file_WriteString in Hrun. step_in Hrun (file_Write_run (temp_location k)
      (bytes_of_string (tree_row "blob" hb n)) wi').
    injection Hrun as <-.
    destruct (createBlob_any (folderPath +:+ "/" +:+ n) wi)
      as (r & w'' & Hany & _ & Hsame & Hcount).
    rewrite Hsub in Hany. injection Hany as <- <-.
    destruct Hcount as [[e [=]]|Hcount].
    assert (Hfile : stat (tree wi) (D ++ [n]) = Some (File c)).
    { assert (Hq : tree wi !! (D ++ [n]) = Some (File c)) by (by rewrite (Hwi _ Hout)).
      by destruct D. }
    destruct (createBlob_Ok_frame _ wi hb wi' _ _ Hchild Hfile)
      as (-> & _ & _ & Hkept).
    { intros Heq. apply Hout. rewrite Heq. apply temp_location_gat. }
    { done. }
    exists 1, (tree_row "blob" (checksum_of c) n).
    split; [change (rand_calls wi' = rand_calls wi + 6 * 1); lia |].
    split.
    { rewrite tree_set_tree. eapply same_work_trans; [exact Hwi |].
      eapply same_work_trans; [exact Hsame |].
      apply (same_work_close (tree wi') (temp_location k)), temp_location_gat. }
    intros Hnd acc Hacc. destruct (Hname _ Hnd) as [_ Hk].
    assert (Hk' : temp_name k ≠ temp_name (rand_calls wi)).
    { intros Heq. apply Hk. rewrite Heq. apply temp_name_drawn. }
    assert (Hacc' : tree wi' !! temp_location k = Some (File acc)).
    { unfold temp_location. by rewrite (Hkept _ Hk'). }
    rewrite tree_set_tree, Hacc'. split_and!.
    + intros x [Hx1 Hx2]%Hkeep. rewrite lookup_insert_ne
        by (unfold temp_location; congruence). apply Hkept.
      intros ->. apply Hx2, temp_name_drawn.
    + apply lookup_insert_eq.
    + intros files text Hrows. by apply rows_blob.
Qed.

(** The loop of [createTree]: the rows of the entries, in the order of
    the listing, are appended to the temporary file. *)
Lemma createTree_loop_Ok `{L : Library} fuel folderPath D t0 t k :
  builds_snapshot fuel →
  resolve folderPath = Some D → ¬ [".gat"] `prefix_of` D →
  (D = [] → t !! [".gat"] = Some Dir) →
  same_work t0 t →
  (∀ q, D `prefix_of` q → ¬ [".gat"] `prefix_of` q → is_Some (t0 !! q) →
        Forall valid_name q) →
  ∀ files mi wi wj,
    (∀ n b, (n, b) ∈ files → ∃ node, t !! (D ++ [n]) = Some node ∧ b = is_Dir node) →
    same_work t0 (tree wi) →
    rand_calls wi = k + 6 * S mi →
    for_each files (createTree_entry (createTree fuel) folderPath (temp_location k)) wi
    = (Done tt, wj) →
    ∃ mj,
      rand_calls wj = rand_calls wi + 6 * mj ∧ same_work t0 (tree wj)
      ∧ (NoDup (drawn k (S mi + mj)) →
         ∀ acc, tree wi !! temp_location k = Some (File acc) →
           (∀ x, x ∉ drawn k (S mi + mj) →
                 tree wj !! [".gat"; "temp"; x] = tree wi !! [".gat"; "temp"; x])
           ∧ ∃ text, snapshot_rows t0 D files text
                     ∧ tree wj !! temp_location k
                       = Some (File (acc ++ bytes_of_string text))).
Proof.
  intros IH HD Hwork Hgat Ht Hnames.
  induction files as [|[n b] files IHfiles]; intros mi wi wj Hfiles Hwi Hrand Hrun.
  { injection Hrun as <-. exists 0. split; [lia |]. split; [done |].
    intros _ acc Hacc. split; [done |]. exists "". split; [constructor |].
    by rewrite app_nil_r. }
  cbn [for_each] in Hrun. apply bind_inv_Done in Hrun as ([] & wi1 & Hentry & Hrun).
  destruct (createTree_entry_Ok fuel folderPath D t0 t k mi n b wi wi1)
    as (m1 & row & Hm1 & Hwi1 & Hrow); try done.
  { apply Hfiles, list_elem_of_here. }
  destruct (IHfiles (mi + m1) wi1 wj) as (mj & Hmj & Hwj & Hrows); try done.
  { intros n' b' Hin. by apply Hfiles, list_elem_of_further. }
  { lia. }
  exists (m1 + mj). split; [lia |]. split; [done |].
  replace (S mi + (m1 + mj)) with ((S mi + m1) + mj) by lia.
  intros Hnd acc Hacc.
  pose proof Hnd as (Hnd1 & _ & _)%NoDup_drawn_split.
  destruct (Hrow Hnd1 acc Hacc) as (Hkept1 & Hacc1 & Hcons).
  replace (S mi + m1) with (S (mi + m1)) in * by lia.
  destruct (Hrows Hnd _ Hacc1) as (Hkept & text & Htext & Hfinal).
  split.
  - intros x Hx. rewrite (Hkept x Hx). apply Hkept1.
    by apply not_drawn_split in Hx as [Hx _].
  - exists (row +:+ text). split; [by apply Hcons |].
    by rewrite bytes_of_string_app, app_assoc.
Qed.

(** ** The snapshot that [createTree] stores *)

Lemma createTree_Ok `{L : Library} fuel : builds_snapshot fuel.
Proof.
  induction fuel as [|fuel IH];
    intros folderPath D t0 w h w' HD Hwork Hgat Hsame Hnames Hrun; [discriminate |].
  cbn [createTree] in Hrun. step_in Hrun (randomString_eq 6 w).
  set (k := rand_calls w) in *. fold (temp_name k) in Hrun.
  set (w1 := World _ _ _ _ _) in Hrun.
  destruct (os_Create_temp k w1) as [[_ Hcreate]|[e Hcreate]]; step_in Hrun Hcreate;
    [| discriminate].
  set (t2 := <[temp_location k := File []]> (tree w)) in *.
  destruct (os_Open_cases folderPath (set_tree t2 w1)) as [(D' & HD' & _ & Hopen)|(e & Hopen)];
    step_in Hrun Hopen; [| discriminate].
  rewrite HD in HD'. injection HD' as <-.
  destruct (file_Readdir_cases D (set_tree t2 w1)) as [[_ Hdir]|[e Hdir]];
    step_in Hrun Hdir; [| discriminate].
  rewrite tree_set_tree in Hrun.
  apply bind_inv_Done in Hrun as ([] & wj & Hloop & Hrun).
  apply bind_inv_Done in Hrun as (c & w2 & Hblob & Hrun).
  assert (Hinside : ∀ n, D ++ [n] ≠ temp_location k).
  { intros n Heq. apply Hwork. exists (take 1 (drop 1 D)).
    destruct D as [|d1 [|d2 [|d3 D]]]; try discriminate; [by injection Heq as -> |].
    injection Heq as _ _ _ Heq. by destruct D. }
  assert (Hlist : ∀ n, t2 !! (D ++ [n]) = t0 !! (D ++ [n])).
  { intros n. unfold t2. rewrite lookup_insert_ne by done.
    destruct (decide (D = [] ∧ n = ".gat")) as [[-> ->]|Hn].
    - destruct (Hgat eq_refl) as [H0 Hw]. simpl. by rewrite H0, Hw.
    - apply Hsame, outside_gat_child; [done |]. intros -> ->. by apply Hn. }
  destruct (createTree_loop_Ok fuel folderPath D t0 (tree w) k IH HD Hwork)
    with (files := dir_entries t2 D) (mi := 0) (wi := set_tree t2 w1) (wj := wj)
    as (mj & Hmj & Hwj & Hrows); try done.
  { intros HDnil. by destruct (Hgat HDnil). }
  { intros n b (node & Hnode & ->)%elem_of_dir_entries. exists node. split; [| done].
    rewrite <- Hnode. unfold t2. by rewrite lookup_insert_ne. }
  { rewrite tree_set_tree. eapply same_work_trans; [exact Hsame |].
    apply same_work_insert, temp_location_gat. }
  { simpl. lia. }
  change (rand_calls (set_tree t2 w1)) with (6 + k) in Hmj.
  destruct (createBlob_any (BASEDIR +:+ "/temp/" +:+ temp_name k) wj)
    as (r & w'' & Hany & _ & Hsame2 & Hcount).
  rewrite Hblob in Hany. injection Hany as <- <-.
  assert (Hend : c = Ok h ∧ rand_calls w' = rand_calls w2
                 ∧ (tree w' = tree w2 ∨ tree w' = delete (temp_location k) (tree w2))).
  { unfold mbind at 1, M_bind at 1, get_DEBUG at 1 in Hrun.
    destruct (DEBUG w2); cbn [negb] in Hrun.
    - unfold mbind, M_bind, mret, M_ret in Hrun. destruct c; [| discriminate].
      injection Hrun as <- <-. by split_and!; [| | left].
    - destruct (os_Remove_cases (BASEDIR +:+ "/temp/" +:+ temp_name k) w2)
        as [(p & Hp & _ & _ & Hrm)|(e & Hrm)];
        rewrite (bind_Done _ _ _ _ _ (bind_Done _ (λ _, mret tt) _ _ _ Hrm)) in Hrun;
        (destruct c; [| discriminate]); injection Hrun as <- <-.
      + rewrite resolve_temp in Hp. injection Hp as <-. by split_and!; [| | right].
      + by split_and!; [| | left]. }
  destruct Hend as (-> & Hrand' & Htree').
  destruct Hcount as [[e [=]]|Hcount].
  exists (S mj + 1). split; [lia |]. intros Hnd.
  pose proof Hnd as (Hnd1 & _ & Hapart)%NoDup_drawn_split.
  destruct (Hrows Hnd1 []) as (Hkept & text & Htext & HT).
  { rewrite tree_set_tree. apply lookup_insert_eq. }
  simpl app in HT.
  assert (Hk : temp_name k ≠ temp_name (rand_calls wj)).
  { intros Heq. apply (Hapart (temp_name k)); [apply temp_name_drawn |].
    rewrite Heq. replace (rand_calls wj) with (k + 6 * S mj) by lia.
    apply temp_name_drawn. }
  destruct (createBlob_Ok_frame _ wj h w2 _ _ (resolve_temp k) HT)
    as (-> & _ & Hobj & Hkept2); [unfold temp_location; congruence | done |].
  assert (Hlast : ∀ q, q ≠ temp_location k → tree w' !! q = tree w2 !! q).
  { intros q Hq. destruct Htree' as [-> | ->]; [done |]. by rewrite lookup_delete_ne. }
  split.
  - intros x [Hx1 Hx2]%not_drawn_split.
    assert (Hxk : x ≠ temp_name k) by (intros ->; apply Hx1, temp_name_drawn).
    rewrite Hlast by (unfold temp_location; congruence).
    rewrite Hkept2.
    2: { intros ->. apply Hx2. replace (k + 6 * S mj) with (rand_calls wj) by lia.
         apply temp_name_drawn. }
    rewrite (Hkept x Hx1), tree_set_tree. unfold t2.
    rewrite lookup_insert_ne; [done |]. unfold temp_location. congruence.
  - exists text. split_and!; [| done |].
    + apply (snapshot_of_rows _ _ (dir_entries t2 D)); [| done].
      by apply dir_entries_Permutation.
    + by rewrite Hlast.
Qed.

(** In [hello_repository] the snapshot of the root is the row of
    [a.txt], and its hash is returned. *)
Example createTree_hello :
  let L := Reference.library in
  (createTree 2 "." hello_repository).1
  = Done (Ok (checksum_of (bytes_of_string
                (tree_row "blob" (checksum_of (bytes_of_string "hello")) "a.txt")))).
Proof. intros L. evaluate. Qed.

(** In [cluttered_repository] the snapshot of the root makes seven
    temporary files, of different names, and returns a hash. *)
Example createTree_cluttered :
  let L := Reference.library in
  let w := cluttered_repository in
  let w' := Reference.after (createTree 3 ".") w in
  is_Some (match (createTree 3 "." w).1 with Done (Ok h) => Some h | _ => None end)
  ∧ rand_calls w' = rand_calls w + 6 * 7
  ∧ NoDup (drawn (rand_calls w) 7).
Proof. intros L w w'. split_and!; evaluate. Qed.

(** * Further properties of the code *)

(** ** Random names *)

Lemma random_chars_length `{L : Library} n : ∀ k, String.length (random_chars k n) = n.
Proof. induction n as [|n IH]; intros k; simpl; [done | by rewrite IH]. Qed.

(** X1: [randomString n] returns [n] characters, each a letter or a
    digit of its alphabet, and calls the random source [n] times;
    nothing else changes. *)
Theorem randomString_spec `{L : Library} n w :
  ∃ s, randomString n w
       = (Done s, World (tree w) (stdout w) (n + rand_calls w) (clock w) (DEBUG w))
       ∧ String.length s = n
       ∧ all_in letters s = true.
Proof.
  exists (random_chars (rand_calls w) n). split; [apply randomString_eq |].
  split; [apply random_chars_length | apply random_chars_all_in].
Qed.

(** ** Where objects are kept *)

(** X2: for a hash of hexadecimal digits, three at least, the path of
    the object is the entry named by the rest of the hash in the folder
    named by its first two digits, under [.gat/objects]. *)
Theorem object_in_its_folder h w :
  all_in hextable h = true → 3 ≤ String.length h →
  ∃ folder object,
    getObjectFolderPath h w = (Done folder, w)
    ∧ getObjectPath h w = (Done object, w)
    ∧ resolve folder = Some [".gat"; "objects"; string_take 2 h]
    ∧ resolve object = Some ([".gat"; "objects"; string_take 2 h] ++ [string_drop 2 h])
    ∧ valid_name (string_drop 2 h).
Proof.
  intros Hhex Hlen.
  destruct (getObjectFolderPath_cases h w) as [[? _]|[_ Hfolder]]; [lia |].
  destruct (getObjectPath_cases h w) as [[? _]|[_ Hobject]]; [lia |].
  do 2 eexists. split; [exact Hfolder |]. split; [exact Hobject |].
  split; [by apply resolve_object_folder |].
  split; [by apply resolve_object_path |]. by apply checksum_names.
Qed.

Lemma object_in_its_folder_witness :
  let h := "ec95eb14f099ef18f49df31cf8a1f720fca5fb24" in
  let w := fresh_repository in
  (all_in hextable h = true ∧ 3 ≤ String.length h)
  ∧ ∃ folder object,
      getObjectFolderPath h w = (Done folder, w)
      ∧ getObjectPath h w = (Done object, w)
      ∧ resolve folder = Some [".gat"; "objects"; string_take 2 h]
      ∧ resolve object = Some ([".gat"; "objects"; string_take 2 h] ++ [string_drop 2 h])
      ∧ valid_name (string_drop 2 h).
Proof.
  intros h w.
  assert (Hhex : all_in hextable h = true) by evaluate.
  assert (Hlen : 3 ≤ String.length h) by evaluate.
  exact (conj (conj Hhex Hlen) (object_in_its_folder h w Hhex Hlen)).
Defined.

Lemma string_drop_all s : string_drop (String.length s) s = "".
Proof. induction s as [|c s IH]; [done | exact IH]. Qed.

(** X3: for a hash of exactly two bytes the rest of the hash is empty
    and [filepath.Join] drops it: the path of the object is the path of
    its folder. *)
Theorem getObjectPath_two_bytes h w :
  String.length h = 2 →
  getObjectPath h w = getObjectFolderPath h w
  ∧ ∃ folder, getObjectPath h w = (Done folder, w).
Proof.
  intros Hlen. unfold getObjectPath, getObjectFolderPath.
  rewrite bool_decide_eq_false_2 by lia.
  assert (Hdrop : string_drop 2 h = "") by (rewrite <- Hlen; apply string_drop_all).
  rewrite Hdrop. unfold filepath_Join.
  assert (Heq : filter (λ e : string, e ≠ "") [BASEDIR; "objects"; string_take 2 h; ""]
                = filter (λ e : string, e ≠ "") [BASEDIR; "objects"; string_take 2 h]).
  { rewrite !filter_cons. rewrite !filter_nil.
    destruct (decide (BASEDIR ≠ "")), (decide ("objects" ≠ "")),
      (decide (string_take 2 h ≠ "")), (decide (("" : string) ≠ "")); try done. }
  rewrite Heq. split; [done |]. by eexists.
Qed.

Lemma getObjectPath_two_bytes_witness :
  let h := "ab" in
  let w := fresh_repository in
  String.length h = 2
  ∧ getObjectPath h w = getObjectFolderPath h w
  ∧ ∃ folder, getObjectPath h w = (Done folder, w).
Proof.
  intros h w.
  assert (Hlen : String.length h = 2) by reflexivity.
  exact (conj Hlen (getObjectPath_two_bytes h w Hlen)).
Defined.

(** ** Storing a file *)

Lemma os_Create_temp_fresh `{L : Library} k w :
  tree w !! temp_location k = None → stat (tree w) [".gat"; "temp"] = Some Dir →
  os_Create (BASEDIR +:+ "/temp/" +:+ temp_name k) w
  = (Done (Ok (temp_location k)), set_tree (<[temp_location k := File []]> (tree w)) w).
Proof.
  intros Hnone Hdir. unfold os_Create, os_OpenFile. rewrite resolve_temp.
  unfold get_tree, mbind, M_bind.
  change (stat (tree w) (temp_location k)) with (tree w !! temp_location k).
  rewrite Hnone. change (parent (temp_location k)) with [".gat"; "temp"].
  rewrite bool_decide_eq_true_2 by (apply list_elem_of_further, list_elem_of_here).
  by rewrite Hdir.
Qed.



Lemma lookup_errno_ENOENT t rest : ∀ made,
  Forall (λ q, is_regular (t !! q) = false) (below made rest) →
  lookup_errno t made rest = ENOENT.
Proof.
  induction rest as [|c rest IH]; intros made Hway; [done |].
  cbn [lookup_errno below] in *. apply Forall_cons in Hway as [Hc Hway].
  destruct rest as [|c' rest]; [done |].
  destruct (t !! (made ++ [c])) as [[content|]|]; [done | by apply IH | done].
Qed.

Lemma os_Open_missing name w :
  names_nothing (tree w) name →
  os_Open name w = (Done (Err (PathError "open" name ENOENT)), w).
Proof.
  intros (Hres & _ & _ & Hst & Hway). unfold_prim. rewrite Hres, Hst.
  by rewrite (lookup_errno_ENOENT _ _ _ Hway).
Qed.

(** X4: [createBlob] on a path that names nothing (and leads through no
    regular file) returns the error of [os.Open], file not found, after
    printing it; no temporary file is made, no random name is drawn, and
    the file tree is as it was. *)
Theorem createBlob_missing_source `{L : Library} path w :
  names_nothing (tree w) path →
  createBlob path w
  = (Done (Err (PathError "open" path ENOENT)),
     print_all [unable_to_read (PathError "open" path ENOENT)] w).
Proof.
  intros Hmissing. unfold createBlob.
  step (os_Open_missing path w Hmissing). by rewrite bind_fmt_Printf.
Qed.

Lemma createBlob_missing_source_witness :
  let L := Reference.library in
  let w := hello_repository in
  names_nothing (tree w) "b.txt"
  ∧ createBlob "b.txt" w
    = (Done (Err (PathError "open" "b.txt" ENOENT)),
       print_all [unable_to_read (PathError "open" "b.txt" ENOENT)] w).
Proof.
  intros L w.
  assert (Hmissing : names_nothing (tree w) "b.txt") by evaluate.
  exact (conj Hmissing (createBlob_missing_source "b.txt" w Hmissing)).
Defined.



(** X6: the hash [createBlob] returns is the hexadecimal digest of the
    content of the file, forty digits, whatever the path and the state of
    the repository; the object holds the compressed content, the
    temporary file is gone, and every other entry of the file tree is
    kept as it was. *)
Theorem createBlob_content_addressed `{L : Library} path w b h w' :
  file_at (tree w) path = Some b →
  resolve path ≠ Some (temp_location (rand_calls w)) →
  createBlob path w = (Done (Ok h), w') →
  h = checksum_of b ∧ String.length h = 40
  ∧ tree w' !! object_location h = Some (File (lzw_encode b))
  ∧ tree w' !! temp_location (rand_calls w) = None
  ∧ ∀ q n, tree w !! q = Some n → q ≠ temp_location (rand_calls w) →
           q ≠ object_location h → tree w' !! q = Some n.
Proof.
  intros (f & Hres & Hst)%file_at_Some Hfresh Hrun.
  assert (Hf : f ≠ temp_location (rand_calls w)) by congruence.
  destruct (createBlob_Ok _ _ _ _ _ _ Hres Hst Hf Hrun)
    as (Hh & Hlen & tm & Hmk & Hnd & ->).
  split; [done |]. split; [done |]. simpl. split_and!.
  - apply lookup_insert_eq.
  - rewrite lookup_insert_ne by done. apply lookup_delete_eq.
  - intros q n Hq Hq1 Hq2. rewrite lookup_insert_ne, lookup_delete_ne by done.
    eapply mkdir_all_keeps; [done |]. by rewrite lookup_insert_ne.
Qed.

Lemma createBlob_content_addressed_witness :
  let L := Reference.library in
  let w := hello_repository in
  let h := "ec95eb14f099ef18f49df31cf8a1f720fca5fb24" in
  let w' := Reference.after (createBlob "a.txt") w in
  let b := bytes_of_string "hello" in
  (file_at (tree w) "a.txt" = Some b
   ∧ resolve "a.txt" ≠ Some (temp_location (rand_calls w))
   ∧ createBlob "a.txt" w = (Done (Ok h), w'))
  ∧ h = checksum_of b ∧ String.length h = 40
  ∧ tree w' !! object_location h = Some (File (lzw_encode b))
  ∧ tree w' !! temp_location (rand_calls w) = None
  ∧ ∀ q n, tree w !! q = Some n → q ≠ temp_location (rand_calls w) →
           q ≠ object_location h → tree w' !! q = Some n.
Proof.
  intros L w h w' b.
  assert (Hfile : file_at (tree w) "a.txt" = Some b) by evaluate.
  assert (Hfresh : resolve "a.txt" ≠ Some (temp_location (rand_calls w))) by evaluate.
  assert (Hrun : createBlob "a.txt" w = (Done (Ok h), w')) by evaluate.
  exact (conj (conj Hfile (conj Hfresh Hrun))
              (createBlob_content_addressed "a.txt" w b h w' Hfile Hfresh Hrun)).
Defined.



(** ** HEAD and the ref of the current branch *)

Lemma string_of_bytes_length b : String.length (string_of_bytes b) = length b.
Proof.
  unfold string_of_bytes, String.string_of_list_byte, String.string_of_list_ascii.
  induction b as [|x b IH]; simpl; [done | by rewrite IH].
Qed.

Lemma file_at_HEAD t c :
  file_at t (BASEDIR +:+ "/HEAD") = Some c ↔ t !! HEAD_path = Some (File c).
Proof.
  rewrite file_at_Some. split.
  - intros (p & Hp & Hst). rewrite resolve_HEAD in Hp. by injection Hp as <-.
  - intros Ht. exists HEAD_path. split; [apply resolve_HEAD | done].
Qed.

(** X8: after a successful [switchHead], [getCurrentBranch] returns the
    name given, whether a ref file of that name exists or not. *)
Theorem switchHead_getCurrentBranch branchName w w' :
  switchHead branchName w = (Done (Ok tt), w') →
  getCurrentBranch w' = (Done (Ok branchName), w').
Proof.
  intros Hrun.
  destruct (switchHead_cases branchName w) as [[_ Hok]|[_ [e Herr]]]; [| congruence].
  rewrite Hok in Hrun. injection Hrun as <-.
  apply getCurrentBranch_run, file_at_HEAD. unfold set_HEAD.
  rewrite tree_set_tree. apply lookup_insert_eq.
Qed.

Lemma switchHead_getCurrentBranch_witness :
  let w := fresh_repository in
  let w' := Reference.after (switchHead "dev") w in
  switchHead "dev" w = (Done (Ok tt), w')
  ∧ getCurrentBranch w' = (Done (Ok "dev"), w').
Proof.
  intros w w'.
  assert (Hrun : switchHead "dev" w = (Done (Ok tt), w')) by evaluate.
  exact (conj Hrun (switchHead_getCurrentBranch "dev" w w' Hrun)).
Defined.

(** A successful [updateCurrentHead]: the ref file HEAD names holds the
    hash, and nothing else has changed. *)
Lemma updateCurrentHead_Ok newCommitHash w w' :
  updateCurrentHead newCommitHash w = (Done (Ok tt), w') →
  ∃ c r, tree w !! HEAD_path = Some (File c)
         ∧ resolve (BASEDIR +:+ "/" +:+ string_of_bytes c) = Some r
         ∧ r ≠ []
         ∧ w' = set_tree (<[r := File (bytes_of_string newCommitHash)]> (tree w)) w.
Proof.
  unfold updateCurrentHead.
  intros (c & w1 & [-> Hhead%file_at_HEAD]%os_ReadFile_Ok & Hrun)%try_inv_Ok.
  destruct (os_OpenFile_trunc_cases (BASEDIR +:+ "/" +:+ string_of_bytes c) w)
    as [(r & Hr & Hnd & Hopen)|(e & Hopen)]; step_in Hrun Hopen; [| discriminate].
  assert (Hne : r ≠ []) by (by intros ->).
  unfold file_WriteString in Hrun. step_in Hrun (file_Write_run r
    (bytes_of_string newCommitHash) (set_tree (<[r := File []]> (tree w)) w)).
  injection Hrun as <-. exists c, r. split_and!; try done.
  rewrite stat_insert, decide_True by done.
  unfold set_tree. simpl. by rewrite insert_insert_eq.
Qed.

(** X9: after a successful [updateCurrentHead], [getCurrentHead] returns
    the hash written, provided the path kept in HEAD is not the path of
    HEAD itself. *)
Theorem updateCurrentHead_getCurrentHead newCommitHash w w' :
  (∀ c, file_at (tree w) (BASEDIR +:+ "/HEAD") = Some c →
        resolve (BASEDIR +:+ "/" +:+ string_of_bytes c) ≠ Some HEAD_path) →
  updateCurrentHead newCommitHash w = (Done (Ok tt), w') →
  getCurrentHead w' = (Done (Ok newCommitHash), w').
Proof.
  intros Hother (c & r & Hhead & Hr & Hne & ->)%updateCurrentHead_Ok.
  assert (Hr' : r ≠ HEAD_path).
  { intros ->. by apply (Hother c); [apply file_at_HEAD |]. }
  apply getCurrentHead_Ok. split; [done |].
  exists c, (bytes_of_string newCommitHash). rewrite tree_set_tree. split_and!.
  - apply file_at_HEAD. by rewrite lookup_insert_ne.
  - apply file_at_Some. exists r. split; [done |].
    rewrite stat_insert by done. by rewrite decide_True.
  - by rewrite string_of_bytes_of_string.
Qed.

Lemma updateCurrentHead_getCurrentHead_witness :
  let w := fresh_repository in
  let h := "b04ab258b44eb65cb852ba60bc56be64c05ac268" in
  let w' := Reference.after (updateCurrentHead h) w in
  ((∀ c, file_at (tree w) (BASEDIR +:+ "/HEAD") = Some c →
         resolve (BASEDIR +:+ "/" +:+ string_of_bytes c) ≠ Some HEAD_path)
   ∧ updateCurrentHead h w = (Done (Ok tt), w'))
  ∧ getCurrentHead w' = (Done (Ok h), w').
Proof.
  intros w h w'.
  assert (Hother : ∀ c, file_at (tree w) (BASEDIR +:+ "/HEAD") = Some c →
            resolve (BASEDIR +:+ "/" +:+ string_of_bytes c) ≠ Some HEAD_path).
  { intros c Hc.
    assert (Hhead : file_at (tree w) (BASEDIR +:+ "/HEAD")
                    = Some (bytes_of_string "refs/heads/main")) by evaluate.
    rewrite Hhead in Hc. injection Hc as <-. evaluate. }
  assert (Hrun : updateCurrentHead h w = (Done (Ok tt), w')) by evaluate.
  exact (conj (conj Hother Hrun) (updateCurrentHead_getCurrentHead h w w' Hother Hrun)).
Defined.

(** X10: [getCurrentBranch] slices HEAD behind the eleven bytes of
    [refs/heads/] without looking at them: when HEAD holds fewer bytes it
    panics, and so do [status] and [checkoutBranch], which start with it. *)
Theorem getCurrentBranch_short_HEAD `{L : Library} c w :
  file_at (tree w) (BASEDIR +:+ "/HEAD") = Some c → length c < 11 →
  getCurrentBranch w = (Crash (Panic "slice bounds out of range"), w)
  ∧ status w = (Crash (Panic "slice bounds out of range"), w)
  ∧ ∀ fuel branchName,
      checkoutBranch fuel branchName w = (Crash (Panic "slice bounds out of range"), w).
Proof.
  intros Hhead Hlen.
  assert (Hpanic : getCurrentBranch w = (Crash (Panic "slice bounds out of range"), w)).
  { unfold getCurrentBranch.
    assert (Hread : os_ReadFile (BASEDIR +:+ "/HEAD") w = (Done (Ok c), w))
      by (by apply os_ReadFile_Ok).
    step Hread. rewrite string_of_bytes_length.
    change (String.length (filepath_Join ["refs"; "heads"])) with 10.
    by rewrite bool_decide_eq_true_2 by lia. }
  split; [done |]. split.
  - unfold status. by rewrite (bind_Crash _ _ _ _ _ Hpanic).
  - intros fuel branchName. unfold checkoutBranch. by rewrite (bind_Crash _ _ _ _ _ Hpanic).
Qed.

Lemma getCurrentBranch_short_HEAD_witness :
  let L := Reference.library in
  let w := Reference.user_write [".gat"; "HEAD"] "main" fresh_repository in
  let c := bytes_of_string "main" in
  (file_at (tree w) (BASEDIR +:+ "/HEAD") = Some c ∧ length c < 11)
  ∧ getCurrentBranch w = (Crash (Panic "slice bounds out of range"), w)
  ∧ status w = (Crash (Panic "slice bounds out of range"), w)
  ∧ ∀ fuel branchName,
      checkoutBranch fuel branchName w = (Crash (Panic "slice bounds out of range"), w).
Proof.
  intros L w c.
  assert (Hhead : file_at (tree w) (BASEDIR +:+ "/HEAD") = Some c) by evaluate.
  assert (Hlen : length c < 11) by evaluate.
  exact (conj (conj Hhead Hlen) (getCurrentBranch_short_HEAD c w Hhead Hlen)).
Defined.

(** ** Preparing the repository *)

Lemma adds_refl places t : adds places t t.
Proof. by split. Qed.

Lemma adds_trans P1 P2 t1 t2 t3 :
  adds P1 t1 t2 → adds P2 t2 t3 → adds (P1 ++ P2) t1 t3.
Proof.
  intros [Hk1 Hf1] [Hk2 Hf2]. split.
  - intros q n Hq. by apply Hk2, Hk1.
  - intros q [Hq1 Hq2]%not_elem_of_app. by rewrite Hf2, Hf1.
Qed.

Lemma adds_insert t p n : t !! p = None → adds [p] t (<[p := n]> t).
Proof.
  intros Hnone. split.
  - intros q m Hq. rewrite lookup_insert_ne; [done |]. congruence.
  - intros q Hq. rewrite lookup_insert_ne; [done |]. intros ->. apply Hq, list_elem_of_here.
Qed.

Lemma mkdir_all_adds t p t' : mkdir_all t [] p = Some t' → adds (prefixes p) t t'.
Proof.
  intros Hmk. split.
  - intros q n. by apply (mkdir_all_keeps _ _ _ _ _ _ Hmk).
  - intros q Hq. apply (mkdir_all_lookup _ _ _ _ Hmk). intros k [Hk1 Hk2] ->.
    apply Hq. unfold prefixes. apply list_elem_of_fmap. exists k. split; [done |].
    apply elem_of_seq. lia.
Qed.

Lemma mkdir_all_noop rest : ∀ t made,
  (∀ k, 0 < k ≤ length rest → t !! (made ++ take k rest) = Some Dir) →
  mkdir_all t made rest = Some t.
Proof.
  induction rest as [|c rest IH]; intros t made Hdirs; [done |].
  cbn [mkdir_all].
  assert (H1 : t !! (made ++ [c]) = Some Dir) by (apply (Hdirs 1); simpl; lia).
  rewrite H1. apply IH.
  intros k Hk. rewrite <- app_assoc. apply (Hdirs (S k)). simpl. lia.
Qed.

Lemma os_MkdirAll_Ok name w w' :
  os_MkdirAll name w = (Done (Ok tt), w') →
  ∃ p t', resolve name = Some p ∧ mkdir_all (tree w) [] p = Some t' ∧ w' = set_tree t' w.
Proof.
  intros Hrun.
  destruct (os_MkdirAll_cases name w) as [(p & t' & Hp & Hmk & Hok)|(e & Herr)];
    [| congruence].
  rewrite Hok in Hrun. injection Hrun as <-. by exists p, t'.
Qed.

(** [os.OpenFile] with [O_RDWR|O_CREATE]: the file is there, or it is
    made empty in an existing directory. *)
Lemma os_OpenFile_rdwr_Ok name w f w' :
  os_OpenFile name [O_RDWR; O_CREATE] w = (Done (Ok f), w') →
  resolve name = Some f
  ∧ ((∃ c, stat (tree w) f = Some (File c) ∧ w' = w)
     ∨ (stat (tree w) f = None ∧ stat (tree w) (parent f) = Some Dir
        ∧ w' = set_tree (<[f := File []]> (tree w)) w)).
Proof.
  unfold os_OpenFile, get_tree, put_tree, mbind, M_bind, mret, M_ret.
  destruct (resolve name) as [p|]; [| discriminate].
  destruct (stat (tree w) p) as [[c|]|] eqn:Hst.
  - replace (bool_decide (O_TRUNC ∈ [O_RDWR; O_CREATE])) with false by (by vm_compute).
    intros [= <- <-]. split; [done |]. left. eauto.
  - discriminate.
  - replace (bool_decide (O_CREATE ∈ [O_RDWR; O_CREATE])) with true by (by vm_compute).
    destruct (stat (tree w) (parent p)) as [[?|]|] eqn:Hparent; try discriminate.
    intros [= <- <-]. split; [done |]. right. done.
Qed.

Lemma os_MkdirAll_adds name p w w' :
  resolve name = Some p → p ≠ [] →
  os_MkdirAll name w = (Done (Ok tt), w') →
  w' = set_tree (tree w') w ∧ adds (prefixes p) (tree w) (tree w')
  ∧ tree w' !! p = Some Dir.
Proof.
  intros Hp Hne (p' & t' & Hp' & Hmk & ->)%os_MkdirAll_Ok.
  rewrite Hp in Hp'. injection Hp' as <-. rewrite tree_set_tree.
  split; [done |]. split; [by apply mkdir_all_adds |].
  by apply (mkdir_all_final _ _ _ _ Hmk).
Qed.

Lemma os_OpenFile_rdwr_adds name f w f' w' :
  resolve name = Some f → f ≠ [] →
  os_OpenFile name [O_RDWR; O_CREATE] w = (Done (Ok f'), w') →
  f' = f ∧ w' = set_tree (tree w') w ∧ adds [f] (tree w) (tree w')
  ∧ ∃ c, tree w' !! f = Some (File c)
         ∧ (tree w !! f = Some (File c) ∨ (tree w !! f = None ∧ c = [])).
Proof.
  intros Hf Hne [Hf' Hcases]%os_OpenFile_rdwr_Ok.
  rewrite Hf in Hf'. injection Hf' as <-. split; [done |].
  assert (Hstat : stat (tree w) f = tree w !! f) by (by destruct f).
  rewrite Hstat in Hcases.
  destruct Hcases as [(c & Hc & ->)|(Hnone & _ & ->)].
  - split; [by destruct w |]. split; [apply adds_refl |]. eauto.
  - rewrite tree_set_tree. split; [done |]. split; [by apply adds_insert |].
    exists []. split; [apply lookup_insert_eq | by right].
Qed.

(** A successful [prepareDirs], step by step. *)
Lemma prepareDirs_Ok w w' :
  prepareDirs w = (Done (Ok tt), w') →
  w' = set_tree (tree w') w ∧ prepared (tree w) (tree w').
Proof.
  unfold prepareDirs. intros Hrun.
  apply try_inv_Ok in Hrun as ([] & w1 & H1 & Hrun).
  apply try_inv_Ok in Hrun as ([] & w2 & H2 & Hrun).
  apply try_inv_Ok in Hrun as ([] & w3 & H3 & Hrun).
  apply try_inv_Ok in Hrun as ([] & w4 & H4 & Hrun).
  apply try_inv_Ok in Hrun as ([] & w5 & H5 & Hrun).
  apply try_inv_Ok in Hrun as (f6 & w6 & H6 & Hrun).
  apply try_inv_Ok in Hrun as (f7 & w7 & H7 & Hrun).
  apply (os_MkdirAll_adds _ [".gat"]) in H1 as (E1 & A1 & D1); [| done | done].
  apply (os_MkdirAll_adds _ [".gat"; "objects"]) in H2 as (E2 & A2 & D2); [| done | done].
  apply (os_MkdirAll_adds _ [".gat"; "temp"]) in H3 as (E3 & A3 & D3); [| done | done].
  apply (os_MkdirAll_adds _ [".gat"; "refs"]) in H4 as (E4 & A4 & D4); [| done | done].
  apply (os_MkdirAll_adds _ [".gat"; "refs"; "heads"]) in H5 as (E5 & A5 & D5);
    [| done | done].
  apply (os_OpenFile_rdwr_adds _ main_ref) in H6 as (-> & E6 & A6 & c6 & F6 & B6);
    [| done | done].
  apply (os_OpenFile_rdwr_adds _ HEAD_path) in H7 as (-> & E7 & A7 & c7 & F7 & B7);
    [| done | done].
  step_in Hrun (file_Read_File HEAD_path 5 c7 w7 F7).
  set (t8 := match c7 with
             | [] => <[HEAD_path := File (bytes_of_string "refs/heads/main")]> (tree w7)
             | _ => tree w7
             end).
  assert (Hw8 : ∃ w8, w8 = set_tree t8 w7
                      ∧ (_ ←? os_MkdirAll (BASEDIR +:+ "/refs/tags"); mret (Ok tt)) w8
                        = (Done (Ok tt), w')).
  { exists (set_tree t8 w7). split; [done |]. revert Hrun. unfold t8. destruct c7 as [|x c7].
    - cbn [is_EOF]. unfold file_WriteString.
      rewrite (bind_Done _ _ _ _ _ (bind_Done _ (λ _, mret tt) _ _ _ (file_Write_run _ _ _))).
      change (stat (tree w7) HEAD_path) with (tree w7 !! HEAD_path). by rewrite F7.
    - cbn [is_EOF]. unfold mbind at 1, M_bind at 1, mret at 1, M_ret at 1.
      by rewrite set_tree_id. }
  destruct Hw8 as (w8 & E8 & Hrun8).
  apply try_inv_Ok in Hrun8 as ([] & w9 & H9 & Hrun9). injection Hrun9 as <-.
  apply (os_MkdirAll_adds _ [".gat"; "refs"; "tags"]) in H9 as (E9 & A9 & D9);
    [| done | done].
  assert (E : tree w8 = t8) by (by rewrite E8).
  split. { rewrite E9, E8, E7, E6, E5, E4, E3, E2, E1. done. }
  pose proof (adds_trans _ _ _ _ _ A1 (adds_trans _ _ _ _ _ A2 (adds_trans _ _ _ _ _ A3
                (adds_trans _ _ _ _ _ A4 A5)))) as A15.
  pose proof (adds_trans _ _ _ _ _ A15 (adds_trans _ _ _ _ _ A6 A7)) as A17.
  assert (K8 : ∀ q n, tree w7 !! q = Some n → q ≠ HEAD_path → tree w9 !! q = Some n).
  { intros q n Hq Hne. apply A9. rewrite E. unfold t8.
    destruct c7; [by rewrite lookup_insert_ne | done]. }
  assert (Hhead6 : tree w6 !! HEAD_path = tree w !! HEAD_path).
  { destruct A6 as [_ ->]; [| evaluate]. destruct A15 as [_ ->]; [done | evaluate]. }
  assert (Hmain5 : tree w5 !! main_ref = tree w !! main_ref).
  { destruct A15 as [_ ->]; [done | evaluate]. }
  split_and!.
  - split_and!.
    + apply K8; [| done]. by apply A7, A6, A5, A4, A3, A2.
    + apply K8; [| done]. by apply A7, A6, A5, A4, A3.
    + apply K8; [| done]. by apply A7, A6, A5, A4.
    + apply K8; [| done]. by apply A7, A6, A5.
    + apply K8; [| done]. by apply A7, A6.
    + done.
    + exists c6. apply K8; [| done]. by apply A7.
    + destruct A9 as [K9 _]. rewrite E in K9. unfold t8 in K9. destruct c7 as [|x c7].
      * eexists. split; [apply K9, lookup_insert_eq | done].
      * eexists. split; [by apply K9 | done].
  - intros q Hq. destruct A9 as [_ ->].
    2: { intros Hin. apply Hq. revert Hin. vm_compute prefixes.
         rewrite !elem_of_cons, elem_of_nil. unfold layout.
         rewrite !elem_of_cons, elem_of_nil. intros [->|[->|[->|[]]]]; tauto. }
    rewrite E. unfold t8.
    assert (Hq' : q ≠ HEAD_path).
    { intros ->. apply Hq. unfold layout. rewrite !elem_of_cons. tauto. }
    assert (Hq17 : tree w7 !! q = tree w !! q).
    { destruct A17 as [_ ->]; [done |]. intros Hin. apply Hq. revert Hin.
      vm_compute prefixes. unfold layout. cbn [app].
      rewrite !elem_of_cons, !elem_of_nil. tauto. }
    destruct c7; [by rewrite lookup_insert_ne | done].
  - intros q n Hq Hne. destruct (decide (q = HEAD_path)) as [->|Hq'].
    + destruct Hne as [?|Hne]; [done |]. rewrite <- Hhead6 in Hq.
      destruct B7 as [B7|[B7 _]]; [| congruence].
      rewrite B7 in Hq. injection Hq as <-. apply A9. rewrite E. unfold t8.
      by destruct c7.
    + apply K8; [| done]. by apply A17.
  - destruct A9 as [K9 _]. rewrite E in K9. unfold t8 in K9.
    destruct B7 as [B7|[B7 ->]]; rewrite Hhead6 in B7; rewrite B7.
    + destruct c7 as [|x c7]; [apply K9, lookup_insert_eq | by apply K9].
    + apply K9, lookup_insert_eq.
  - intros Hnone. apply K8; [| done]. apply A7.
    destruct B6 as [B6|[_ ->]]; [congruence | done].
Qed.

Lemma os_MkdirAll_noop name p w :
  resolve name = Some p →
  (∀ k, 0 < k ≤ length p → tree w !! take k p = Some Dir) →
  os_MkdirAll name w = (Done (Ok tt), w).
Proof.
  intros Hp Hdirs. unfold os_MkdirAll, get_tree, put_tree, mbind, M_bind, mret, M_ret.
  rewrite Hp, (mkdir_all_noop p (tree w) []) by done. by rewrite set_tree_id.
Qed.

Lemma os_OpenFile_rdwr_File name f c w :
  resolve name = Some f → tree w !! f = Some (File c) → f ≠ [] →
  os_OpenFile name [O_RDWR; O_CREATE] w = (Done (Ok f), w).
Proof.
  intros Hf Hfile Hne. unfold os_OpenFile, get_tree, mbind, M_bind, mret, M_ret.
  rewrite Hf. assert (Hstat : stat (tree w) f = tree w !! f) by (by destruct f).
  rewrite Hstat, Hfile.
  by replace (bool_decide (O_TRUNC ∈ [O_RDWR; O_CREATE])) with false by (by vm_compute).
Qed.

(** On a repository that is laid out [prepareDirs] changes nothing. *)
Lemma prepareDirs_laid_out w :
  laid_out (tree w) → prepareDirs w = (Done (Ok tt), w).
Proof.
  intros (Hgat & Hobjects & Htemp & Hrefs & Hheads & Htags & [cm Hmain] & ch & Hhead & Hne).
  unfold prepareDirs.
  assert (Hdirs : ∀ p, p ∈ [[".gat"]; [".gat"; "objects"]; [".gat"; "temp"]; [".gat"; "refs"];
                            [".gat"; "refs"; "heads"]; [".gat"; "refs"; "tags"]] →
            ∀ k, 0 < k ≤ length p → tree w !! take k p = Some Dir).
  { intros p Hp k Hk. rewrite !elem_of_cons, elem_of_nil in Hp.
    destruct Hp as [->|[->|[->|[->|[->|[->|[]]]]]]];
      (destruct k as [|[|[|[|k]]]]; simpl in Hk; try lia; done). }
  assert (Hmk : ∀ name p, resolve name = Some p →
            p ∈ [[".gat"]; [".gat"; "objects"]; [".gat"; "temp"]; [".gat"; "refs"];
                 [".gat"; "refs"; "heads"]; [".gat"; "refs"; "tags"]] →
            os_MkdirAll name w = (Done (Ok tt), w)).
  { intros name p Hp Hin. apply (os_MkdirAll_noop name p w Hp). by apply Hdirs. }
  rewrite (try_Ok _ _ _ _ _ (Hmk BASEDIR [".gat"] eq_refl ltac:(set_solver))).
  rewrite (try_Ok _ _ _ _ _ (Hmk (BASEDIR +:+ "/objects") [".gat"; "objects"] eq_refl
                               ltac:(set_solver))).
  rewrite (try_Ok _ _ _ _ _ (Hmk (BASEDIR +:+ "/temp") [".gat"; "temp"] eq_refl
                               ltac:(set_solver))).
  rewrite (try_Ok _ _ _ _ _ (Hmk (BASEDIR +:+ "/refs") [".gat"; "refs"] eq_refl
                               ltac:(set_solver))).
  rewrite (try_Ok _ _ _ _ _ (Hmk (BASEDIR +:+ "/refs/heads") [".gat"; "refs"; "heads"] eq_refl
                               ltac:(set_solver))).
  rewrite (try_Ok _ _ _ _ _ (os_OpenFile_rdwr_File (BASEDIR +:+ "/refs/heads/main") main_ref
                               cm w eq_refl Hmain ltac:(done))).
  rewrite (try_Ok _ _ _ _ _ (os_OpenFile_rdwr_File (BASEDIR +:+ "/HEAD") HEAD_path
                               ch w eq_refl Hhead ltac:(done))).
  rewrite (bind_Done _ _ _ _ _ (file_Read_File HEAD_path 5 ch w Hhead)).
  destruct ch as [|x ch]; [done |]. cbn [is_EOF].
  unfold mbind at 1, M_bind at 1, mret at 1, M_ret at 1.
  by rewrite (try_Ok _ _ _ _ _ (Hmk (BASEDIR +:+ "/refs/tags") [".gat"; "refs"; "tags"] eq_refl
                                  ltac:(set_solver))).
Qed.

(** X11: a successful [prepareDirs] leaves the repository laid out: the
    directories [.gat], [objects], [temp], [refs], [refs/heads] and
    [refs/tags], the ref file of [main], and a HEAD that is not empty;
    it prints nothing and draws no random name. *)
Theorem prepareDirs_lays_out w w' :
  prepareDirs w = (Done (Ok tt), w') →
  laid_out (tree w')
  ∧ stdout w' = stdout w ∧ rand_calls w' = rand_calls w ∧ DEBUG w' = DEBUG w.
Proof.
  intros [Hw' (Hlaid & _)]%prepareDirs_Ok. split; [done |]. by rewrite Hw'.
Qed.

Lemma prepareDirs_lays_out_witness :
  let w := Reference.empty_world in
  let w' := fresh_repository in
  prepareDirs w = (Done (Ok tt), w')
  ∧ laid_out (tree w')
  ∧ stdout w' = stdout w ∧ rand_calls w' = rand_calls w ∧ DEBUG w' = DEBUG w.
Proof.
  intros w w'.
  assert (Hrun : prepareDirs w = (Done (Ok tt), w')) by evaluate.
  exact (conj Hrun (prepareDirs_lays_out w w' Hrun)).
Defined.

(** X12: a successful [prepareDirs] deletes nothing and overwrites
    nothing but an empty HEAD: every entry of the file tree is kept with
    its content, unless it is HEAD and empty, and entries are added only
    at the places of the layout. *)
Theorem prepareDirs_keeps w w' :
  prepareDirs w = (Done (Ok tt), w') →
  (∀ q n, tree w !! q = Some n → q ≠ HEAD_path ∨ n ≠ File [] → tree w' !! q = Some n)
  ∧ (∀ q, q ∉ layout → tree w' !! q = tree w !! q)
  ∧ (tree w !! HEAD_path = Some (File []) →
     tree w' !! HEAD_path = Some (File (bytes_of_string "refs/heads/main"))).
Proof.
  intros [_ (_ & Hframe & Hkeep & Hhead & _)]%prepareDirs_Ok.
  split; [done |]. split; [done |]. intros Hempty. by rewrite Hhead, Hempty.
Qed.

Lemma prepareDirs_keeps_witness :
  let w := Reference.user_write ["a.txt"] "hello" Reference.empty_world in
  let w' := hello_repository in
  prepareDirs w = (Done (Ok tt), w')
  ∧ (∀ q n, tree w !! q = Some n → q ≠ HEAD_path ∨ n ≠ File [] → tree w' !! q = Some n)
  ∧ (∀ q, q ∉ layout → tree w' !! q = tree w !! q)
  ∧ (tree w !! HEAD_path = Some (File []) →
     tree w' !! HEAD_path = Some (File (bytes_of_string "refs/heads/main"))).
Proof.
  intros w w'.
  assert (Hrun : prepareDirs w = (Done (Ok tt), w')) by evaluate.
  exact (conj Hrun (prepareDirs_keeps w w' Hrun)).
Defined.

(** X13: [prepareDirs] is idempotent: after a successful run, a second
    run succeeds and changes nothing. *)
Theorem prepareDirs_idempotent w w' :
  prepareDirs w = (Done (Ok tt), w') → prepareDirs w' = (Done (Ok tt), w').
Proof.
  intros [_ (Hlaid & _)]%prepareDirs_Ok. by apply prepareDirs_laid_out.
Qed.

Lemma prepareDirs_idempotent_witness :
  let w := Reference.empty_world in
  let w' := fresh_repository in
  prepareDirs w = (Done (Ok tt), w') ∧ prepareDirs w' = (Done (Ok tt), w').
Proof.
  intros w w'.
  assert (Hrun : prepareDirs w = (Done (Ok tt), w')) by evaluate.
  exact (conj Hrun (prepareDirs_idempotent w w' Hrun)).
Defined.

(** X14: where HEAD is missing or empty, a successful [prepareDirs]
    puts the repository on the branch [main]; and where the ref file of
    [main] is missing too, the head of the branch is the empty hash. *)
Theorem prepareDirs_branch_main w w' :
  tree w !! HEAD_path = None ∨ tree w !! HEAD_path = Some (File []) →
  prepareDirs w = (Done (Ok tt), w') →
  getCurrentBranch w' = (Done (Ok "main"), w')
  ∧ (tree w !! main_ref = None → getCurrentHead w' = (Done (Ok ""), w')).
Proof.
  intros Hhead [_ (_ & _ & _ & Hafter & Hmain)]%prepareDirs_Ok.
  assert (Hhead' : tree w' !! HEAD_path = Some (File (bytes_of_string "refs/heads/main"))).
  { rewrite Hafter. by destruct Hhead as [-> | ->]. }
  split.
  - by apply getCurrentBranch_run, file_at_HEAD.
  - intros Hnone. apply getCurrentHead_Ok. split; [done |].
    exists (bytes_of_string "refs/heads/main"), []. split_and!; [| | done].
    + by apply file_at_HEAD.
    + apply file_at_Some. exists main_ref. split; [done |]. by apply Hmain.
Qed.

Lemma prepareDirs_branch_main_witness :
  let w := Reference.empty_world in
  let w' := fresh_repository in
  ((tree w !! HEAD_path = None ∨ tree w !! HEAD_path = Some (File []))
   ∧ prepareDirs w = (Done (Ok tt), w'))
  ∧ getCurrentBranch w' = (Done (Ok "main"), w')
  ∧ (tree w !! main_ref = None → getCurrentHead w' = (Done (Ok ""), w')).
Proof.
  intros w w'.
  assert (Hhead : tree w !! HEAD_path = None ∨ tree w !! HEAD_path = Some (File []))
    by (left; evaluate).
  assert (Hrun : prepareDirs w = (Done (Ok tt), w')) by evaluate.
  exact (conj (conj Hhead Hrun) (prepareDirs_branch_main w w' Hhead Hrun)).
Defined.

(** ** What only reads *)

Lemma reads_only_ret {A} (a : A) : reads_only (mret a).
Proof. done. Qed.

Lemma reads_only_crash {A} c : reads_only (crash_with (A := A) c).
Proof. done. Qed.

Lemma reads_only_bind {A B} (m : M A) (f : A → M B) :
  reads_only m → (∀ a, reads_only (f a)) → reads_only (m ≫= f).
Proof.
  intros Hm Hf w. unfold mbind, M_bind. specialize (Hm w).
  destruct (m w) as [[a|c|] w1]; simpl in *; [| done | done].
  by rewrite Hf.
Qed.

Lemma reads_only_try {A B} (m : M (result A)) (k : A → M (result B)) :
  reads_only m → (∀ a, reads_only (k a)) → reads_only (try_ m k).
Proof.
  intros Hm Hk. apply reads_only_bind; [done |]. intros [a|e]; [apply Hk | done].
Qed.

Lemma reads_only_Printf format args err : reads_only (fmt_Printf format args err).
Proof. done. Qed.

Lemma reads_only_Open name : reads_only (os_Open name).
Proof.
  intros w. unfold os_Open, os_OpenFile, get_tree, mbind, M_bind, mret, M_ret.
  destruct (resolve name) as [p|]; [| done].
  by destruct (stat (tree w) p) as [[c|]|].
Qed.

Lemma reads_only_ReadAll f : reads_only (file_ReadAll f).
Proof.
  intros w. unfold file_ReadAll, get_tree, mbind, M_bind, mret, M_ret.
  by destruct (stat (tree w) f) as [[c|]|].
Qed.

Lemma reads_only_ReadFile name : reads_only (os_ReadFile name).
Proof.
  apply reads_only_try; [apply reads_only_Open |]. intros f. apply reads_only_ReadAll.
Qed.

Lemma reads_only_getObjectPath h : reads_only (getObjectPath h).
Proof. unfold getObjectPath. by case_bool_decide. Qed.

Lemma reads_only_readObjectFile `{L : Library} path : reads_only (readObjectFile path).
Proof.
  unfold readObjectFile. apply reads_only_bind; [apply reads_only_Open |].
  intros [f|e].
  - apply reads_only_bind; [apply reads_only_ReadAll |]. intros [c|e]; [| done].
    by destruct (lzw_decode c) as [data []].
  - done.
Qed.

Lemma reads_only_readCommit `{L : Library} h : reads_only (readCommit h).
Proof.
  unfold readCommit. apply reads_only_bind; [apply reads_only_getObjectPath |].
  intros path. apply reads_only_try; [apply reads_only_readObjectFile |].
  intros content. by destruct (gob_Decode content).
Qed.

Lemma reads_only_readTree `{L : Library} h : reads_only (readTree h).
Proof.
  unfold readTree. apply reads_only_bind; [apply reads_only_getObjectPath |].
  intros path. by apply reads_only_try; [apply reads_only_readObjectFile |].
Qed.

Lemma reads_only_getCurrentHead : reads_only getCurrentHead.
Proof.
  unfold getCurrentHead. apply reads_only_try; [apply reads_only_ReadFile |].
  intros c. by apply reads_only_try; [apply reads_only_ReadFile |].
Qed.

Lemma reads_only_getCurrentBranch : reads_only getCurrentBranch.
Proof.
  unfold getCurrentBranch. apply reads_only_try; [apply reads_only_ReadFile |].
  intros c. by case_bool_decide.
Qed.

Lemma reads_only_printLog_loop `{L : Library} fuel : ∀ h, reads_only (printLog_loop fuel h).
Proof.
  induction fuel as [|fuel IH]; intros h; [done |]. cbn [printLog_loop].
  apply reads_only_try; [apply reads_only_readCommit |]. intros c.
  apply reads_only_bind; [apply reads_only_Printf |]. intros _.
  apply reads_only_bind; [apply reads_only_Printf |]. intros _.
  case_bool_decide; [apply IH | done].
Qed.

(** X15: the functions that only inspect the repository leave the file
    tree as it was, whether they return a value, return an error or
    panic: [readObjectFile], [readCommit], [readTree], [getCurrentHead],
    [getCurrentBranch], [status] and [printLog]. *)
Theorem inspection_keeps_tree `{L : Library} :
  (∀ path, reads_only (readObjectFile path))
  ∧ (∀ h, reads_only (readCommit h))
  ∧ (∀ h, reads_only (readTree h))
  ∧ reads_only getCurrentHead
  ∧ reads_only getCurrentBranch
  ∧ reads_only status
  ∧ (∀ fuel, reads_only (printLog fuel)).
Proof.
  split_and!.
  - apply reads_only_readObjectFile.
  - apply reads_only_readCommit.
  - apply reads_only_readTree.
  - apply reads_only_getCurrentHead.
  - apply reads_only_getCurrentBranch.
  - unfold status. apply reads_only_bind; [apply reads_only_getCurrentBranch |].
    intros [b|e]; [| done].
    apply reads_only_bind; [apply reads_only_Printf |]. intros _.
    apply reads_only_bind; [apply reads_only_getCurrentHead |]. by intros [h|e].
  - intros fuel. unfold printLog.
    apply reads_only_try; [apply reads_only_getCurrentHead |].
    apply reads_only_printLog_loop.
Qed.

(** ** Reverting to a commit *)

(** X16: [switchToCommit] on a hash under which no object is kept (the
    path of the object names nothing, and leads through no regular file)
    returns the error of opening the object file, file not found, which
    [readObjectFile] has printed, and changes nothing: neither the working
    files nor the head of the branch. *)
Theorem switchToCommit_unknown_commit `{L : Library} fuel commitHash w :
  2 ≤ String.length commitHash →
  names_nothing (tree w) (object_path commitHash) →
  switchToCommit fuel commitHash w
  = (Done (Err (PathError "open" (object_path commitHash) ENOENT)),
     print_all [unable_to_read (PathError "open" (object_path commitHash) ENOENT)] w).
Proof.
  intros Hlen Hmissing. unfold switchToCommit, readCommit.
  assert (Hread : readObjectFile (object_path commitHash) w
                  = (Done (Err (PathError "open" (object_path commitHash) ENOENT)),
                     print_all [unable_to_read
                                  (PathError "open" (object_path commitHash) ENOENT)] w)).
  { unfold readObjectFile. step (os_Open_missing _ w Hmissing).
    by rewrite bind_fmt_Printf. }
  assert (Hcommit : (getObjectPath commitHash ≫= λ objectPath,
                       try_ (readObjectFile objectPath)
                         (λ commitFileContent,
                            match gob_Decode commitFileContent with
                            | Err err =>
                                mret (Err (fmt_Errorf "error decoding commit: %v" []
                                                  (Some err)))
                            | Ok commit => mret (Ok commit)
                            end)) w
                    = (Done (Err (PathError "open" (object_path commitHash) ENOENT)),
                       print_all [unable_to_read
                                    (PathError "open" (object_path commitHash) ENOENT)] w)).
  { step (getObjectPath_long commitHash w Hlen). fold (object_path commitHash).
    by step Hread. }
  by step Hcommit.
Qed.

Lemma switchToCommit_unknown_commit_witness :
  let L := Reference.library in
  let w := one_commit_repository in
  let h := "0123456789" in
  (2 ≤ String.length h ∧ names_nothing (tree w) (object_path h))
  ∧ switchToCommit 3 h w
    = (Done (Err (PathError "open" (object_path h) ENOENT)),
       print_all [unable_to_read (PathError "open" (object_path h) ENOENT)] w).
Proof.
  intros L w h.
  assert (Hlen : 2 ≤ String.length h) by evaluate.
  assert (Hmissing : names_nothing (tree w) (object_path h)) by evaluate.
  exact (conj (conj Hlen Hmissing) (switchToCommit_unknown_commit 3 h w Hlen Hmissing)).
Defined.

Lemma bytes_of_string_inj a b : bytes_of_string a = bytes_of_string b → a = b.
Proof.
  intros Heq. rewrite <- (string_of_bytes_of_string a), <- (string_of_bytes_of_string b).
  by rewrite Heq.
Qed.

Lemma ref_not_hex b : all_in hextable ("refs/heads/" +:+ b) = false.
Proof.
  change ("refs/heads/" +:+ b) with (String "r" ("efs/heads/" +:+ b)). cbn [all_in].
  by replace (bool_decide ("r"%char ∈ hextable)) with false by (by vm_compute).
Qed.

(** X17: after a successful [switchToCommit] of a hexadecimal hash the
    head of the current branch is that hash: wherever HEAD still names a
    branch, [getCurrentHead] returns the hash. *)
Theorem switchToCommit_moves_head `{L : Library} fuel commitHash branchName w w' :
  all_in hextable commitHash = true →
  switchToCommit fuel commitHash w = (Done (Ok tt), w') →
  file_at (tree w') (BASEDIR +:+ "/HEAD")
  = Some (bytes_of_string ("refs/heads/" +:+ branchName)) →
  getCurrentHead w' = (Done (Ok commitHash), w').
Proof.
  intros Hhex Hrun Hhead. unfold switchToCommit in Hrun.
  apply try_inv_Ok in Hrun as (commit & w1 & _ & Hrun).
  apply try_inv_Ok in Hrun as ([] & w2 & _ & Hrun).
  apply try_inv_Ok in Hrun as ([] & w3 & Hupdate & Hrun). injection Hrun as ->.
  apply updateCurrentHead_Ok in Hupdate as (c & r & Hc & Hr & Hne & ->).
  apply file_at_HEAD in Hhead. rewrite tree_set_tree in Hhead.
  assert (Hr' : r ≠ HEAD_path).
  { intros ->. rewrite lookup_insert_eq in Hhead. injection Hhead as Heq.
    apply bytes_of_string_inj in Heq. rewrite Heq, ref_not_hex in Hhex. done. }
  rewrite lookup_insert_ne in Hhead by done.
  apply getCurrentHead_Ok. split; [done |].
  exists c, (bytes_of_string commitHash). rewrite tree_set_tree. split_and!.
  - apply file_at_HEAD. by rewrite lookup_insert_ne.
  - apply file_at_Some. exists r. split; [done |].
    rewrite stat_insert by done. by rewrite decide_True.
  - by rewrite string_of_bytes_of_string.
Qed.

Lemma switchToCommit_moves_head_witness :
  let L := Reference.library in
  let w := two_commit_repository in
  let w' := Reference.after (switchToCommit 5 first_hash) w in
  (all_in hextable first_hash = true
   ∧ switchToCommit 5 first_hash w = (Done (Ok tt), w')
   ∧ file_at (tree w') (BASEDIR +:+ "/HEAD")
     = Some (bytes_of_string ("refs/heads/" +:+ "main")))
  ∧ getCurrentHead w' = (Done (Ok first_hash), w').
Proof.
  intros L w w'.
  assert (Hhex : all_in hextable first_hash = true) by evaluate.
  assert (Hrun : switchToCommit 5 first_hash w = (Done (Ok tt), w')) by evaluate.
  assert (Hhead : file_at (tree w') (BASEDIR +:+ "/HEAD")
                  = Some (bytes_of_string ("refs/heads/" +:+ "main"))) by evaluate.
  exact (conj (conj Hhex (conj Hrun Hhead))
              (switchToCommit_moves_head 5 first_hash "main" w w' Hhex Hrun Hhead)).
Defined.

(** ** Making a commit *)

Lemma resolve_branch_ref b :
  valid_name b →
  resolve (BASEDIR +:+ "/" +:+ string_of_bytes (bytes_of_string ("refs/heads/" +:+ b)))
  = Some (branch_ref b).
Proof.
  intros Hb. rewrite string_of_bytes_of_string.
  change (BASEDIR +:+ "/" +:+ "refs/heads/" +:+ b) with ("./.gat/refs/heads" +:+ "/" +:+ b).
  by apply (resolve_child "./.gat/refs/heads" b [".gat"; "refs"; "heads"]).
Qed.

Lemma updateCurrentHead_Err newCommitHash w e w' :
  updateCurrentHead newCommitHash w = (Done (Err e), w') → w' = w.
Proof.
  unfold updateCurrentHead. intros Hrun.
  destruct (os_ReadFile_result (BASEDIR +:+ "/HEAD") w) as [[c|e'] Hread];
    step_in Hrun Hread; [| by injection Hrun].
  destruct (os_OpenFile_trunc_cases (BASEDIR +:+ "/" +:+ string_of_bytes c) w)
    as [(r & _ & _ & Hopen)|(e' & Hopen)]; step_in Hrun Hopen; [| by injection Hrun].
  unfold file_WriteString in Hrun.
  by rewrite (try_Ok _ _ _ _ _ (file_Write_run _ _ _)) in Hrun.
Qed.

Lemma os_OpenFile_trunc_run name p w :
  resolve name = Some p → p ≠ [] →
  (∃ c, tree w !! p = Some (File c))
  ∨ (tree w !! p = None ∧ stat (tree w) (parent p) = Some Dir) →
  os_OpenFile name [O_WRONLY; O_TRUNC; O_CREATE] w
  = (Done (Ok p), set_tree (<[p := File []]> (tree w)) w).
Proof.
  intros Hp Hne Hcases. unfold os_OpenFile, get_tree, put_tree, mbind, M_bind, mret, M_ret.
  rewrite Hp. assert (Hstat : stat (tree w) p = tree w !! p) by (by destruct p).
  rewrite Hstat. destruct Hcases as [[c ->]|[-> Hparent]].
  - by replace (bool_decide (O_TRUNC ∈ [O_WRONLY; O_TRUNC; O_CREATE])) with true
      by (by vm_compute).
  - replace (bool_decide (O_CREATE ∈ [O_WRONLY; O_TRUNC; O_CREATE])) with true
      by (by vm_compute).
    by rewrite Hparent.
Qed.

Lemma updateCurrentHead_run newCommitHash w c r :
  tree w !! HEAD_path = Some (File c) →
  resolve (BASEDIR +:+ "/" +:+ string_of_bytes c) = Some r → r ≠ [] →
  (∃ c', tree w !! r = Some (File c'))
  ∨ (tree w !! r = None ∧ stat (tree w) (parent r) = Some Dir) →
  updateCurrentHead newCommitHash w
  = (Done (Ok tt), set_tree (<[r := File (bytes_of_string newCommitHash)]> (tree w)) w).
Proof.
  intros Hhead Hr Hne Hcases. unfold updateCurrentHead.
  assert (Hread : os_ReadFile (BASEDIR +:+ "/HEAD") w = (Done (Ok c), w))
    by (by apply os_ReadFile_Ok; split; [| apply file_at_HEAD]).
  step Hread. step (os_OpenFile_trunc_run _ r w Hr Hne Hcases).
  unfold file_WriteString. rewrite (try_Ok _ _ _ _ _ (file_Write_run _ _ _)).
  rewrite tree_set_tree, stat_insert, decide_True by done.
  unfold mret, M_ret, set_tree. simpl. by rewrite insert_insert_eq.
Qed.

(** A successful [createCommit], up to the update of the head: the
    serialized commit is stored under its hash, the temporary file that
    held it is still there, and nothing else has changed but the folder
    of the object. *)
Lemma createCommit_Ok `{L : Library} treeHash parentCommitHash message w h w' :
  temp_name (rand_calls w) ≠ temp_name (6 + rand_calls w) →
  createCommit treeHash parentCommitHash message w = (Done (Ok h), w') →
  ∃ encoded w1 r,
    gob_Encode (commit_of treeHash parentCommitHash message w) = Ok encoded
    ∧ h = checksum_of encoded ∧ String.length h = 40
    ∧ tree w1 !! object_location h = Some (File (lzw_encode encoded))
    ∧ tree w1 !! temp_location (rand_calls w) = Some (File encoded)
    ∧ (∀ q, q ≠ temp_location (rand_calls w) → q ≠ temp_location (6 + rand_calls w) →
            q ≠ object_location h →
            q ∉ prefixes [".gat"; "objects"; string_take 2 h] →
            tree w1 !! q = tree w !! q)
    ∧ updateCurrentHead h w1 = (Done r, w').
Proof.
  intros Hnames Hrun. unfold createCommit in Hrun.
  step_in Hrun (eq_refl : time_Now_Unix w = (Done (clock w), w)).
  step_in Hrun (randomString_eq 6 w).
  set (k := rand_calls w) in *. fold (temp_name k) in Hrun.
  set (w1 := World _ _ _ _ _) in Hrun.
  destruct (os_Create_temp k w1) as [[_ Hcreate]|[e Hcreate]]; step_in Hrun Hcreate;
    [| discriminate].
  fold (commit_of treeHash parentCommitHash message w) in Hrun.
  destruct (gob_Encode (commit_of treeHash parentCommitHash message w))
    as [encoded|err] eqn:Henc; [| discriminate].
  step_in Hrun (file_Write_run (temp_location k) encoded
                  (set_tree (<[temp_location k := File []]> (tree w1)) w1)).
  rewrite tree_set_tree, stat_insert, decide_True, insert_insert_eq in Hrun by done.
  simpl app in Hrun. set (w3 := set_tree _ _) in Hrun.
  apply bind_inv_Done in Hrun as ([h'|e] & w4 & Hblob & Hrun); [| discriminate].
  apply bind_inv_Done in Hrun as (r & w5 & Hupdate & Hrun). injection Hrun as <- <-.
  assert (Hapart : temp_location k ≠ temp_location (6 + k))
    by (unfold temp_location; congruence).
  destruct (createBlob_Ok _ w3 h' w4 (temp_location k) encoded (resolve_temp k))
    as (-> & Hlen & tm & Hmk & _ & ->); [apply lookup_insert_eq | done | done |].
  change (rand_calls w3) with (6 + k) in *. change (tree w3) with
    (<[temp_location k := File encoded]> (tree w)) in Hmk.
  set (h := checksum_of encoded) in *.
  exists encoded, (World (<[object_location h := File (lzw_encode encoded)]>
                            (delete (temp_location (6 + k)) tm))
                         (stdout w3) (6 + (6 + k)) (clock w3) (DEBUG w3)), r.
  split_and!; try done.
  - simpl. apply lookup_insert_eq.
  - simpl. rewrite lookup_insert_ne, lookup_delete_ne by done.
    eapply mkdir_all_keeps; [done |].
    rewrite lookup_insert_ne by done. apply lookup_insert_eq.
  - intros q Hq1 Hq2 Hq3 Hq4. simpl.
    rewrite lookup_insert_ne, lookup_delete_ne by done.
    destruct (mkdir_all_adds _ _ _ Hmk) as [_ ->]; [| done].
    by rewrite !lookup_insert_ne.
Qed.

Lemma not_in_object_prefixes (q : location) x :
  q ≠ [".gat"] → q ≠ [".gat"; "objects"] → q ≠ [".gat"; "objects"; x] →
  q ∉ prefixes [".gat"; "objects"; x].
Proof.
  intros H1 H2 H3. unfold prefixes. simpl. rewrite !elem_of_cons, elem_of_nil. tauto.
Qed.

(** X18: a commit made by [createCommit] is read back by [readCommit]
    under the hash returned, with the tree, parent and message given and
    the time of the call. *)
Theorem createCommit_readCommit `{L : Library} treeHash parentCommitHash message b w h w' :
  lzw_lossless L → gob_lossless L →
  temp_name (rand_calls w) ≠ temp_name (6 + rand_calls w) →
  on_branch (tree w) b →
  createCommit treeHash parentCommitHash message w = (Done (Ok h), w') →
  readCommit h w' = (Done (Ok (commit_of treeHash parentCommitHash message w)), w').
Proof.
  intros Hlzw Hgob Hnames [Hhead Hb] Hrun.
  destruct (createCommit_Ok _ _ _ _ _ _ Hnames Hrun)
    as (encoded & w1 & r & Henc & Hh & Hlen & Hobject & _ & Hframe & Hupdate).
  assert (Hhead1 : tree w1 !! HEAD_path = tree w !! HEAD_path)
    by (by apply Hframe; [| | | apply not_in_object_prefixes]).
  assert (Hobject' : tree w' !! object_location h = Some (File (lzw_encode encoded))).
  { destruct r as [[]|e].
    - apply updateCurrentHead_Ok in Hupdate as (c & r & Hc & Hr & _ & ->).
      rewrite Hhead1, Hhead in Hc. injection Hc as <-.
      rewrite (resolve_branch_ref b Hb) in Hr. injection Hr as <-.
      rewrite tree_set_tree. by rewrite lookup_insert_ne.
    - by apply updateCurrentHead_Err in Hupdate as ->. }
  assert (Hhex : all_in hextable h = true)
    by (rewrite Hh; apply hex_EncodeToString_all_in).
  apply readCommit_Ok. split; [done |]. split; [lia |].
  exists (lzw_encode encoded), encoded. split_and!.
  - apply file_at_Some. exists (object_location h). split; [| done].
    apply resolve_object_path; [done | lia].
  - apply Hlzw.
  - by apply Hgob.
Qed.

Lemma Reference_get_count n rest :
  Reference.get_count (replicate n Byte.x01 ++ Byte.x00 :: rest) = Some (n, rest).
Proof. induction n as [|n IH]; [done |]. simpl. by rewrite IH. Qed.

Lemma Reference_get_string s rest :
  Reference.get_string (Reference.put_string s ++ rest) = Some (s, rest).
Proof.
  unfold Reference.get_string, Reference.put_string.
  rewrite <- !app_assoc. simpl. rewrite Reference_get_count. simpl.
  assert (Hlen : length (bytes_of_string s) = String.length s).
  { rewrite <- (string_of_bytes_length (bytes_of_string s)).
    by rewrite string_of_bytes_of_string. }
  rewrite bool_decide_eq_true_2 by (rewrite length_app; lia).
  rewrite <- Hlen, take_app_length, drop_app_length.
  by rewrite string_of_bytes_of_string.
Qed.

Lemma Reference_gob_lossless : gob_lossless Reference.library.
Proof.
  intros c b. simpl. unfold Reference.serialize, Reference.deserialize.
  case_bool_decide as Htime; [| done]. intros [= <-].
  do 3 (rewrite Reference_get_string; simpl).
  rewrite (Reference_get_count _ []). simpl.
  destruct c as [t p m n]. simpl in *. by rewrite Z2Nat.id.
Qed.

Lemma createCommit_readCommit_witness :
  let L := Reference.library in
  let w := hello_repository in
  let h := "fbd07317ffd4771b03d87b1f07dc7f230be08327" in
  let w' := Reference.after (createCommit "aa" "" "msg") w in
  (lzw_lossless L ∧ gob_lossless L
   ∧ temp_name (rand_calls w) ≠ temp_name (6 + rand_calls w)
   ∧ on_branch (tree w) "main"
   ∧ createCommit "aa" "" "msg" w = (Done (Ok h), w'))
  ∧ readCommit h w' = (Done (Ok (commit_of "aa" "" "msg" w)), w').
Proof.
  intros L w h w'.
  assert (Hnames : temp_name (rand_calls w) ≠ temp_name (6 + rand_calls w)) by evaluate.
  assert (Hbranch : on_branch (tree w) "main") by (split; evaluate).
  assert (Hrun : createCommit "aa" "" "msg" w = (Done (Ok h), w')) by evaluate.
  exact (conj (conj Reference_lzw_lossless (conj Reference_gob_lossless
                 (conj Hnames (conj Hbranch Hrun))))
              (createCommit_readCommit "aa" "" "msg" "main" w h w' Reference_lzw_lossless
                 Reference_gob_lossless Hnames Hbranch Hrun)).
Defined.

(** X19: in a repository on a branch whose ref file can be written,
    a successful [createCommit] makes the new commit the head of the
    branch: [getCurrentHead] returns its hash. *)
Theorem createCommit_advances_head `{L : Library} treeHash parentCommitHash message b w h w' :
  temp_name (rand_calls w) ≠ temp_name (6 + rand_calls w) →
  on_branch (tree w) b →
  tree w !! [".gat"; "refs"; "heads"] = Some Dir →
  tree w !! branch_ref b ≠ Some Dir →
  createCommit treeHash parentCommitHash message w = (Done (Ok h), w') →
  getCurrentHead w' = (Done (Ok h), w').
Proof.
  intros Hnames [Hhead Hb] Hheads Hnd Hrun.
  destruct (createCommit_Ok _ _ _ _ _ _ Hnames Hrun)
    as (encoded & w1 & r & _ & _ & _ & _ & _ & Hframe & Hupdate).
  assert (Hsame : ∀ q, q ∈ [HEAD_path; branch_ref b; [".gat"; "refs"; "heads"]] →
            tree w1 !! q = tree w !! q).
  { intros q Hq. rewrite !elem_of_cons, elem_of_nil in Hq.
    destruct Hq as [->|[->|[->|[]]]]; by apply Hframe; [| | | apply not_in_object_prefixes]. }
  assert (Hrun1 : updateCurrentHead h w1
                  = (Done (Ok tt),
                     set_tree (<[branch_ref b := File (bytes_of_string h)]> (tree w1)) w1)).
  { apply (updateCurrentHead_run h w1 (bytes_of_string ("refs/heads/" +:+ b))).
    - rewrite Hsame; [done | set_solver].
    - by apply resolve_branch_ref.
    - done.
    - rewrite Hsame by set_solver.
      change (parent (branch_ref b)) with [".gat"; "refs"; "heads"].
      change (stat (tree w1) [".gat"; "refs"; "heads"])
        with (tree w1 !! [".gat"; "refs"; "heads"]).
      rewrite Hsame by set_solver.
      destruct (tree w !! branch_ref b) as [[c|]|] eqn:Href; [eauto | done | by right]. }
  rewrite Hrun1 in Hupdate. injection Hupdate as _ <-.
  apply getCurrentHead_Ok. split; [done |].
  exists (bytes_of_string ("refs/heads/" +:+ b)), (bytes_of_string h).
  rewrite tree_set_tree. split_and!.
  - apply file_at_HEAD. rewrite lookup_insert_ne by done. rewrite Hsame; [done | set_solver].
  - apply file_at_Some. exists (branch_ref b). split; [by apply resolve_branch_ref |].
    apply lookup_insert_eq.
  - by rewrite string_of_bytes_of_string.
Qed.

Lemma createCommit_advances_head_witness :
  let L := Reference.library in
  let w := hello_repository in
  let h := "fbd07317ffd4771b03d87b1f07dc7f230be08327" in
  let w' := Reference.after (createCommit "aa" "" "msg") w in
  (temp_name (rand_calls w) ≠ temp_name (6 + rand_calls w)
   ∧ on_branch (tree w) "main"
   ∧ tree w !! [".gat"; "refs"; "heads"] = Some Dir
   ∧ tree w !! branch_ref "main" ≠ Some Dir
   ∧ createCommit "aa" "" "msg" w = (Done (Ok h), w'))
  ∧ getCurrentHead w' = (Done (Ok h), w').
Proof.
  intros L w h w'.
  assert (Hnames : temp_name (rand_calls w) ≠ temp_name (6 + rand_calls w)) by evaluate.
  assert (Hbranch : on_branch (tree w) "main") by (split; evaluate).
  assert (Hheads : tree w !! [".gat"; "refs"; "heads"] = Some Dir) by evaluate.
  assert (Hnd : tree w !! branch_ref "main" ≠ Some Dir) by evaluate.
  assert (Hrun : createCommit "aa" "" "msg" w = (Done (Ok h), w')) by evaluate.
  exact (conj (conj Hnames (conj Hbranch (conj Hheads (conj Hnd Hrun))))
              (createCommit_advances_head "aa" "" "msg" "main" w h w'
                 Hnames Hbranch Hheads Hnd Hrun)).
Defined.

(** X20: [createCommit] never removes the temporary file it serialized
    the commit into: after a successful run the file is still in
    [.gat/temp], holding the serialized commit. *)
Theorem createCommit_leaves_temp_file `{L : Library} treeHash parentCommitHash message
    b w h w' :
  temp_name (rand_calls w) ≠ temp_name (6 + rand_calls w) →
  on_branch (tree w) b →
  createCommit treeHash parentCommitHash message w = (Done (Ok h), w') →
  ∃ encoded,
    gob_Encode (commit_of treeHash parentCommitHash message w) = Ok encoded
    ∧ tree w' !! temp_location (rand_calls w) = Some (File encoded).
Proof.
  intros Hnames [Hhead Hb] Hrun.
  destruct (createCommit_Ok _ _ _ _ _ _ Hnames Hrun)
    as (encoded & w1 & r & Henc & _ & _ & _ & Htemp & Hframe & Hupdate).
  exists encoded. split; [done |].
  assert (Hhead1 : tree w1 !! HEAD_path = tree w !! HEAD_path)
    by (by apply Hframe; [| | | apply not_in_object_prefixes]).
  destruct r as [[]|e].
  - apply updateCurrentHead_Ok in Hupdate as (c & r & Hc & Hr & _ & ->).
    rewrite Hhead1, Hhead in Hc. injection Hc as <-.
    rewrite (resolve_branch_ref b Hb) in Hr. injection Hr as <-.
    rewrite tree_set_tree. by rewrite lookup_insert_ne.
  - by apply updateCurrentHead_Err in Hupdate as ->.
Qed.

Lemma createCommit_leaves_temp_file_witness :
  let L := Reference.library in
  let w := hello_repository in
  let h := "fbd07317ffd4771b03d87b1f07dc7f230be08327" in
  let w' := Reference.after (createCommit "aa" "" "msg") w in
  (temp_name (rand_calls w) ≠ temp_name (6 + rand_calls w)
   ∧ on_branch (tree w) "main"
   ∧ createCommit "aa" "" "msg" w = (Done (Ok h), w'))
  ∧ ∃ encoded,
      gob_Encode (commit_of "aa" "" "msg" w) = Ok encoded
      ∧ tree w' !! temp_location (rand_calls w) = Some (File encoded).
Proof.
  intros L w h w'.
  assert (Hnames : temp_name (rand_calls w) ≠ temp_name (6 + rand_calls w)) by evaluate.
  assert (Hbranch : on_branch (tree w) "main") by (split; evaluate).
  assert (Hrun : createCommit "aa" "" "msg" w = (Done (Ok h), w')) by evaluate.
  exact (conj (conj Hnames (conj Hbranch Hrun))
              (createCommit_leaves_temp_file "aa" "" "msg" "main" w h w'
                 Hnames Hbranch Hrun)).
Defined.

(** X21: [createCommit] drops the error of [updateCurrentHead]: in a
    repository without HEAD it still returns the hash of the commit it
    stored, while no branch has been moved: HEAD is still missing and
    [getCurrentHead] fails. *)
Theorem createCommit_drops_head_error `{L : Library} treeHash parentCommitHash message
    w h w' :
  temp_name (rand_calls w) ≠ temp_name (6 + rand_calls w) →
  tree w !! HEAD_path = None →
  createCommit treeHash parentCommitHash message w = (Done (Ok h), w') →
  (∃ encoded, tree w' !! object_location h = Some (File (lzw_encode encoded)))
  ∧ tree w' !! HEAD_path = None
  ∧ ∃ e, getCurrentHead w' = (Done (Err e), w').
Proof.
  intros Hnames Hhead Hrun.
  destruct (createCommit_Ok _ _ _ _ _ _ Hnames Hrun)
    as (encoded & w1 & r & _ & _ & _ & Hobject & _ & Hframe & Hupdate).
  assert (Hhead1 : tree w1 !! HEAD_path = None).
  { rewrite <- Hhead. by apply Hframe; [| | | apply not_in_object_prefixes]. }
  assert (Hw' : w' = w1).
  { destruct r as [[]|e]; [| by apply updateCurrentHead_Err in Hupdate].
    apply updateCurrentHead_Ok in Hupdate as (c & _ & Hc & _). congruence. }
  subst w'. split; [eauto |]. split; [done |].
  destruct (getCurrentHead_result w1) as [[h'|e] Hget]; [| eauto].
  apply getCurrentHead_Ok in Hget as (_ & c & _ & Hc%file_at_HEAD & _). congruence.
Qed.

Lemma createCommit_drops_head_error_witness :
  let L := Reference.library in
  let w := headless_repository in
  let h := "fbd07317ffd4771b03d87b1f07dc7f230be08327" in
  let w' := Reference.after (createCommit "aa" "" "msg") w in
  (temp_name (rand_calls w) ≠ temp_name (6 + rand_calls w)
   ∧ tree w !! HEAD_path = None
   ∧ createCommit "aa" "" "msg" w = (Done (Ok h), w'))
  ∧ (∃ encoded, tree w' !! object_location h = Some (File (lzw_encode encoded)))
  ∧ tree w' !! HEAD_path = None
  ∧ ∃ e, getCurrentHead w' = (Done (Err e), w').
Proof.
  intros L w h w'.
  assert (Hnames : temp_name (rand_calls w) ≠ temp_name (6 + rand_calls w)) by evaluate.
  assert (Hhead : tree w !! HEAD_path = None) by evaluate.
  assert (Hrun : createCommit "aa" "" "msg" w = (Done (Ok h), w')) by evaluate.
  exact (conj (conj Hnames (conj Hhead Hrun))
              (createCommit_drops_head_error "aa" "" "msg" w h w' Hnames Hhead Hrun)).
Defined.

(** ** The entry point *)

Lemma quiet_ret {A} (a : A) : quiet (mret a).
Proof. intros w. exists a, (tree w). by rewrite set_tree_id. Qed.

Lemma quiet_bind {A B} (m : M A) (f : A → M B) :
  quiet m → (∀ a, quiet (f a)) → quiet (m ≫= f).
Proof.
  intros Hm Hf w. destruct (Hm w) as (a & t & Hrun).
  rewrite (bind_Done _ _ _ _ _ Hrun).
  destruct (Hf a (set_tree t w)) as (b & t' & Hrun'). rewrite Hrun'. by exists b, t'.
Qed.

Lemma quiet_try {A B} (m : M (result A)) (k : A → M (result B)) :
  quiet m → (∀ a, quiet (k a)) → quiet (try_ m k).
Proof.
  intros Hm Hk. apply quiet_bind; [done |]. intros [a|e]; [apply Hk | apply quiet_ret].
Qed.

Lemma quiet_MkdirAll name : quiet (os_MkdirAll name).
Proof.
  intros w. destruct (os_MkdirAll_cases name w) as [(p & t' & _ & _ & ->)|(e & ->)].
  - by eexists _, _.
  - eexists _, (tree w). by rewrite set_tree_id.
Qed.

Lemma quiet_OpenFile name flags : quiet (os_OpenFile name flags).
Proof.
  intros w. unfold os_OpenFile, get_tree, put_tree, mbind, M_bind, mret, M_ret.
  assert (Hid : ∀ r : result (list string), ∃ r' t, (Done r, w) = (Done r', set_tree t w)).
  { intros r. exists r, (tree w). by rewrite set_tree_id. }
  destruct (resolve name) as [p|]; [| apply Hid].
  destruct (stat (tree w) p) as [[c|]|].
  - case_bool_decide; [by eexists _, _ | apply Hid].
  - destruct (writes flags); apply Hid.
  - case_bool_decide; [| apply Hid].
    destruct (stat (tree w) (parent p)) as [[?|]|]; [apply Hid | by eexists _, _ | apply Hid].
Qed.

Lemma quiet_Read f n : quiet (file_Read f n).
Proof.
  intros w. unfold file_Read, file_ReadAll, get_tree, mbind, M_bind, mret, M_ret.
  destruct (stat (tree w) f) as [[[|x c]|]|]; eexists _, (tree w); by rewrite set_tree_id.
Qed.

Lemma quiet_Write f data : quiet (file_Write f data).
Proof. intros w. rewrite file_Write_run. by eexists _, _. Qed.

Lemma quiet_prepareDirs : quiet prepareDirs.
Proof.
  unfold prepareDirs.
  repeat (apply quiet_try; [apply quiet_MkdirAll || apply quiet_OpenFile | intros ?]).
  apply quiet_bind; [apply quiet_Read |]. intros [buf err].
  apply quiet_bind.
  { destruct (is_EOF err); [| apply quiet_ret].
    apply quiet_bind; [apply quiet_Write | intros ?; apply quiet_ret]. }
  intros _. apply quiet_try; [apply quiet_MkdirAll | intros ?; apply quiet_ret].
Qed.

(** [main] up to the call of [prepareDirs]. *)
Lemma main_unfold `{L : Library} fuel debug commitMessage objFilePath positionalArgs w :
  main fuel debug commitMessage objFilePath positionalArgs w
  = (p ← prepareDirs ;
     match p with
     | Err err =>
         _ ← fmt_Printf ("Failed to create .git folders, err: %v" +:+ nl) [] (Some err) ;
         os_Exit (-1)
     | Ok _ => main_switch fuel commitMessage objFilePath positionalArgs
     end) (main_start debug positionalArgs w).
Proof.
  unfold main, main_start. destruct debug, positionalArgs as [|command arguments]; try done.
  all: by destruct w.
Qed.

(** X22: [main] without a command never ends normally.  It reports the
    missing command and prepares the repository all the same; then
    [positionalArgs[0]] panics, with the repository laid out, unless
    [prepareDirs] failed and the process has exited with status -1. *)
Theorem main_no_command `{L : Library} fuel debug commitMessage objFilePath w :
  ∃ c w',
    main fuel debug commitMessage objFilePath [] w = (Crash c, w')
    ∧ no_command_message ∈ stdout w'
    ∧ ((c = index_out_of_range ∧ laid_out (tree w')) ∨ c = Exit (-1)).
Proof.
  rewrite main_unfold. set (w0 := main_start debug [] w).
  assert (Hprinted : no_command_message ∈ stdout w0).
  { unfold w0, main_start, print_all. simpl. apply elem_of_app. right.
    apply list_elem_of_here. }
  destruct (quiet_prepareDirs w0) as ([[]|e] & t & Hrun); rewrite (bind_Done _ _ _ _ _ Hrun).
  - exists index_out_of_range, (set_tree t w0). split; [done |]. split; [done |].
    left. split; [done |]. by apply prepareDirs_Ok in Hrun as [_ [Hlaid _]].
  - exists (Exit (-1)). eexists. rewrite bind_fmt_Printf. split; [done |].
    split; [| by right]. simpl. apply elem_of_app. by left.
Qed.

Lemma main_switch_no_op `{L : Library} fuel commitMessage objFilePath command arguments w :
  command = "add" ∨ command ∉ commands →
  main_switch fuel commitMessage objFilePath (command :: arguments) w = (Done tt, w).
Proof.
  intros [->|Hunknown]; [done |]. unfold main_switch.
  assert (Hne : ∀ c, c ∈ commands → String_eqb command c = false).
  { intros c Hc. apply String_eqb_false. by intros ->. }
  unfold commands in Hne.
  by rewrite !Hne by (rewrite !elem_of_cons; tauto).
Qed.

(** X23: the command [add], and any word that is not a command, do
    nothing once the repository is prepared: [main] ends normally,
    without a message, in the state [prepareDirs] left. *)
Theorem main_add_or_unknown `{L : Library} fuel debug commitMessage objFilePath
    command arguments w w1 :
  command = "add" ∨ command ∉ commands →
  prepareDirs (main_start debug (command :: arguments) w) = (Done (Ok tt), w1) →
  main fuel debug commitMessage objFilePath (command :: arguments) w = (Done tt, w1).
Proof.
  intros Hcommand Hprepare. rewrite main_unfold, (bind_Done _ _ _ _ _ Hprepare).
  by apply main_switch_no_op.
Qed.

Lemma main_add_or_unknown_witness :
  let L := Reference.library in
  let w := hello_repository in
  (("comit" = "add" ∨ "comit" ∉ commands)
   ∧ prepareDirs (main_start false ["comit"] w) = (Done (Ok tt), w))
  ∧ main 3 false "" "" ["comit"] w = (Done tt, w).
Proof.
  intros L w.
  assert (Hcommand : "comit" = "add" ∨ "comit" ∉ commands) by (right; evaluate).
  assert (Hprepare : prepareDirs (main_start false ["comit"] w) = (Done (Ok tt), w))
    by evaluate.
  exact (conj (conj Hcommand Hprepare)
              (main_add_or_unknown 3 false "" "" "comit" [] w w Hcommand Hprepare)).
Defined.

(** X24: [checkout], [revert] and [branch] without their argument end
    in [log.Fatal] with a usage message, after the repository was
    prepared and before anything else is done. *)
Theorem main_missing_argument `{L : Library} fuel debug commitMessage objFilePath command w w1 :
  command ∈ ["checkout"; "revert"; "branch"] →
  prepareDirs (main_start debug [command] w) = (Done (Ok tt), w1) →
  ∃ usage,
    main fuel debug commitMessage objFilePath [command] w
    = (Crash (Fatal "%v" [AStr usage] None), w1).
Proof.
  intros Hcommand Hprepare. rewrite main_unfold, (bind_Done _ _ _ _ _ Hprepare).
  rewrite !elem_of_cons, elem_of_nil in Hcommand.
  destruct Hcommand as [->|[->|[->|[]]]]; by eexists.
Qed.

Lemma main_missing_argument_witness :
  let L := Reference.library in
  let w := hello_repository in
  ("revert" ∈ ["checkout"; "revert"; "branch"]
   ∧ prepareDirs (main_start false ["revert"] w) = (Done (Ok tt), w))
  ∧ ∃ usage, main 3 false "" "" ["revert"] w = (Crash (Fatal "%v" [AStr usage] None), w).
Proof.
  intros L w.
  assert (Hcommand : "revert" ∈ ["checkout"; "revert"; "branch"]) by evaluate.
  assert (Hprepare : prepareDirs (main_start false ["revert"] w) = (Done (Ok tt), w))
    by evaluate.
  exact (conj (conj Hcommand Hprepare)
              (main_missing_argument 3 false "" "" "revert" w w Hcommand Hprepare)).
Defined.

(** X25: where [.gat] is a regular file the repository cannot be
    prepared: whatever the command, [main] prints the error of
    [os.MkdirAll] and exits with status -1, the file tree untouched. *)
Theorem main_gat_is_a_file `{L : Library} fuel debug commitMessage objFilePath
    positionalArgs c w :
  tree w !! [".gat"] = Some (File c) →
  main fuel debug commitMessage objFilePath positionalArgs w
  = (Crash (Exit (-1)),
     print_all [prepare_failed (PathError "mkdir" BASEDIR ENOTDIR)]
       (main_start debug positionalArgs w)).
Proof.
  intros Hfile. rewrite main_unfold. set (w0 := main_start debug positionalArgs w).
  assert (Htree : tree w0 = tree w).
  { unfold w0, main_start. by destruct debug, positionalArgs. }
  assert (Hprepare : prepareDirs w0 = (Done (Err (PathError "mkdir" BASEDIR ENOTDIR)), w0)).
  { unfold prepareDirs. apply try_Err.
    unfold os_MkdirAll, get_tree, mbind, M_bind, mret, M_ret.
    change (resolve BASEDIR) with (Some [".gat"]). cbn [mkdir_all app].
    by rewrite Htree, Hfile. }
  rewrite (bind_Done _ _ _ _ _ Hprepare). by rewrite bind_fmt_Printf.
Qed.

Lemma main_gat_is_a_file_witness :
  let L := Reference.library in
  let w := Reference.user_write [".gat"] "notes" Reference.empty_world in
  tree w !! [".gat"] = Some (File (bytes_of_string "notes"))
  ∧ main 3 false "first" "" ["commit"] w
    = (Crash (Exit (-1)),
       print_all [prepare_failed (PathError "mkdir" BASEDIR ENOTDIR)]
         (main_start false ["commit"] w)).
Proof.
  intros L w.
  assert (Hfile : tree w !! [".gat"] = Some (File (bytes_of_string "notes"))) by evaluate.
  exact (conj Hfile (main_gat_is_a_file 3 false "first" "" ["commit"] _ w Hfile)).
Defined.

(** ** Reading back a tree *)

Lemma string_app_assoc (a b c : string) : (a +:+ b) +:+ c = a +:+ b +:+ c.
Proof.
  induction a as [|x a IH]; [done |].
  change (String x ((a +:+ b) +:+ c) = String x (a +:+ b +:+ c)). by rewrite IH.
Qed.

Lemma free_of_app sep a b : free_of sep (a +:+ b) = free_of sep a && free_of sep b.
Proof.
  induction a as [|x a IH]; [done |].
  change (negb (Ascii.eqb x sep) && free_of sep (a +:+ b)
          = negb (Ascii.eqb x sep) && free_of sep a && free_of sep b).
  by rewrite IH, andb_assoc.
Qed.

Lemma strings_Split_free sep a : free_of sep a = true → strings_Split a sep = [a].
Proof.
  induction a as [|c a IH]; simpl; [done |].
  intros [Hc Ha]%andb_prop. apply negb_true_iff in Hc. rewrite Hc. by rewrite IH.
Qed.

Lemma all_in_free_of l sep s : sep ∉ l → all_in l s = true → free_of sep s = true.
Proof.
  intros Hsep. induction s as [|c s IH]; simpl; [done |].
  intros [Hc Hs]%andb_prop. apply bool_decide_eq_true in Hc.
  rewrite IH by done. rewrite andb_true_r. apply negb_true_iff, Ascii.eqb_neq.
  by intros ->.
Qed.

Lemma checksum_plain `{L : Library} b : plain (checksum_of b).
Proof.
  split; (apply (all_in_free_of hextable); [| apply hex_EncodeToString_all_in]);
    apply (bool_decide_eq_false_1 _); by vm_compute.
Qed.

(** A row is one line of three fields. *)
Lemma entry_of_row_line k h n :
  plain k → plain h → plain n →
  free_of "010" (k +:+ tab +:+ h +:+ tab +:+ n) = true
  ∧ entry_of_line (k +:+ tab +:+ h +:+ tab +:+ n)
    = Some {| kind := k; hash := h; name := n |}.
Proof.
  intros [Hk1 Hk2] [Hh1 Hh2] [Hn1 Hn2]. split.
  - rewrite !free_of_app, Hk2, Hh2, Hn2. done.
  - unfold entry_of_line.
    change (k +:+ tab +:+ h +:+ tab +:+ n)
      with (k +:+ String "009" (h +:+ String "009" n)).
    rewrite !strings_Split_app, !strings_Split_free by done. done.
Qed.

(** [readTree] parses what [createTree] writes: the rows of a rendered
    text are read back as they were, when their fields are plain. *)
Lemma readTree_loop_render l :
  Forall (λ e, plain (kind e) ∧ plain (hash e) ∧ plain (name e)) l →
  readTree_loop (strings_Split (render l) "010") [] = l.
Proof.
  rewrite readTree_loop_omap. simpl. induction 1 as [|e l (Hk & Hh & Hn) _ IH]; [done |].
  destruct (entry_of_row_line _ _ _ Hk Hh Hn) as [Hfree Hline].
  cbn [render foldr]. fold (render l). unfold tree_row.
  replace ((kind e +:+ tab +:+ hash e +:+ tab +:+ name e +:+ nl) +:+ render l)
    with ((kind e +:+ tab +:+ hash e +:+ tab +:+ name e) +:+ String "010" (render l)).
  2: { rewrite !string_app_assoc. done. }
  rewrite strings_Split_app, strings_Split_free by done.
  cbn [app omap list_omap]. rewrite Hline. destruct e. simpl. by rewrite IH.
Qed.

(** The text of a snapshot is the rendering of one row per entry that
    is not reserved, in the order of the entries. *)
Lemma snapshot_rows_render `{L : Library} t D entries text :
  snapshot_rows t D entries text →
  Forall (λ f, plain f.1) entries →
  ∃ l, text = render l
       ∧ Forall (λ e, plain (kind e) ∧ plain (hash e) ∧ plain (name e)) l
       ∧ entry_of_row <$> l = filter (λ f, reserved f = false) entries
       ∧ ∀ e, e ∈ l → kind e = "blob" →
              ∃ c, t !! (D ++ [name e]) = Some (File c) ∧ hash e = checksum_of c.
Proof.
  induction 1 as [D|D n entries text Hign _ IH|D n entries sub text Hign _ _ IH
                  |D n c entries text Hfile _ IH]; intros Hplain.
  - exists []. by split_and!; [| | | intros e ?%elem_of_nil].
  - apply Forall_cons in Hplain as [_ Hplain].
    destruct (IH Hplain) as (l & -> & Hl & Hrows & Hblobs). exists l.
    split_and!; try done. rewrite filter_cons_False; [done |].
    unfold reserved. simpl. by rewrite Hign.
  - apply Forall_cons in Hplain as [Hn Hplain].
    destruct (IH Hplain) as (l & -> & Hl & Hrows & Hblobs).
    exists ({| kind := "tree"; hash := checksum_of (bytes_of_string sub); name := n |} :: l).
    split_and!.
    + done.
    + constructor; [| done]. simpl. split; [by vm_compute |]. split; [| done].
      apply checksum_plain.
    + rewrite filter_cons_True by (unfold reserved; simpl; by rewrite Hign).
      rewrite fmap_cons, Hrows. done.
    + intros e [->|He]%elem_of_cons; [done | by apply Hblobs].
  - apply Forall_cons in Hplain as [Hn Hplain].
    destruct (IH Hplain) as (l & -> & Hl & Hrows & Hblobs).
    exists ({| kind := "blob"; hash := checksum_of c; name := n |} :: l).
    split_and!.
    + done.
    + constructor; [| done]. simpl. split; [by vm_compute |]. split; [| done].
      apply checksum_plain.
    + rewrite filter_cons_True by done. rewrite fmap_cons, Hrows. done.
    + intros e [->|He]%elem_of_cons; [eauto | by apply Hblobs].
Qed.

(** X26: the tree [createTree] stores is read back by [readTree] under
    the hash returned, as one row per entry of the directory that is not
    a reserved directory, with the name of the entry and its kind; the
    row of a file carries the hash of its content.  The names of the
    entries are taken to be free of tabs and newlines, the separators of
    the tree text. *)
Theorem createTree_readTree `{L : Library} fuel folderPath D w h w' m :
  lzw_lossless L → sha1_Size L →
  resolve folderPath = Some D →
  fits fuel (tree w) folderPath →
  tree w !! [".gat"] = Some Dir →
  Forall (λ f, plain f.1) (dir_entries (tree w) D) →
  createTree fuel folderPath w = (Done (Ok h), w') →
  rand_calls w' = rand_calls w + 6 * m →
  NoDup (drawn (rand_calls w) m) →
  ∃ l, readTree h w' = (Done (Ok l), w')
       ∧ entry_of_row <$> l ≡ₚ filter (λ f, reserved f = false) (dir_entries (tree w) D)
       ∧ ∀ e, e ∈ l → kind e = "blob" →
              ∃ c, tree w !! (D ++ [name e]) = Some (File c) ∧ hash e = checksum_of c.
Proof.
  intros Hlzw Hsize HD (D' & HD' & Hwork & _ & Hbelow) Hgat Hplain Hrun Hm Hnd.
  rewrite HD in HD'. injection HD' as <-.
  destruct (createTree_Ok fuel folderPath D (tree w) w h w' HD Hwork)
    as (m' & Hm' & Hspec); try done.
  { intros q Hpre Hq Hsome. by apply Hbelow. }
  assert (m' = m) as -> by lia.
  destruct (Hspec Hnd) as (_ & text & Hsnap & Hh & Hobject).
  inversion Hsnap as [D0 entries text0 Hperm Hrows]; subst D0 text0.
  destruct (snapshot_rows_render _ _ _ _ Hrows) as (l & -> & Hl & Hmap & Hblobs).
  { by rewrite Hperm. }
  exists l. split_and!; [| by rewrite Hmap, Hperm | done].
  assert (Hlen : String.length h = 40).
  { rewrite Hh. unfold checksum_of. by rewrite hex_EncodeToString_length, Hsize. }
  assert (Hhex : all_in hextable h = true)
    by (rewrite Hh; apply hex_EncodeToString_all_in).
  unfold readTree. step (getObjectPath_long h w' ltac:(lia)). fold (object_path h).
  assert (Hread : readObjectFile (object_path h) w'
                  = (Done (Ok (bytes_of_string (render l))), w')).
  { apply readObjectFile_Ok. split; [done |]. eexists. split; [| apply Hlzw].
    apply file_at_Some. exists (object_location h). split; [| done].
    apply resolve_object_path; [done | lia]. }
  step Hread. rewrite string_of_bytes_of_string, readTree_loop_render by done. done.
Qed.

Lemma createTree_readTree_witness :
  let L := Reference.library in
  let w := cluttered_repository in
  let h := "29663fd02d6a43d4316e47d835724bdc39764fe0" in
  let w' := Reference.after (createTree 3 ".") w in
  (lzw_lossless L ∧ sha1_Size L
   ∧ resolve "." = Some []
   ∧ fits 3 (tree w) "."
   ∧ tree w !! [".gat"] = Some Dir
   ∧ Forall (λ f, plain f.1) (dir_entries (tree w) [])
   ∧ createTree 3 "." w = (Done (Ok h), w')
   ∧ rand_calls w' = rand_calls w + 6 * 7
   ∧ NoDup (drawn (rand_calls w) 7))
  ∧ ∃ l, readTree h w' = (Done (Ok l), w')
         ∧ entry_of_row <$> l ≡ₚ filter (λ f, reserved f = false) (dir_entries (tree w) [])
         ∧ ∀ e, e ∈ l → kind e = "blob" →
                ∃ c, tree w !! ([] ++ [name e]) = Some (File c) ∧ hash e = checksum_of c.
Proof.
  intros L w h w'.
  assert (Hres : resolve "." = Some []) by evaluate.
  assert (Hgat : tree w !! [".gat"] = Some Dir) by evaluate.
  assert (Hfits : fits 3 (tree w) ".").
  { exists []. split; [exact Hres |]. split; [refute |]. split; [lia |].
    assert (Hall : map_Forall (λ q _, ¬ [".gat"] `prefix_of` q →
                     Forall valid_name q ∧ length q < length ([] : location) + 3) (tree w))
      by evaluate.
    intros q _ Hq [node Hnode]. exact (Hall q node Hnode Hq). }
  assert (Hplain : Forall (λ f, plain f.1) (dir_entries (tree w) [])) by evaluate.
  assert (Hrun : createTree 3 "." w = (Done (Ok h), w')) by evaluate.
  assert (Hm : rand_calls w' = rand_calls w + 6 * 7) by evaluate.
  assert (Hnd : NoDup (drawn (rand_calls w) 7)) by evaluate.
  exact (conj (conj Reference_lzw_lossless (conj Reference_sha1_Size (conj Hres (conj Hfits
                 (conj Hgat (conj Hplain (conj Hrun (conj Hm Hnd))))))))
              (createTree_readTree 3 "." [] w h w' 7 Reference_lzw_lossless
                 Reference_sha1_Size Hres Hfits Hgat Hplain Hrun Hm Hnd)).
Defined.

(** ** A new branch *)

Lemma resolve_ref_path b : valid_name b → resolve (ref_path b) = Some (branch_ref b).
Proof.
  intros Hb. apply (resolve_gat_names ["refs"; "heads"; b]).
  apply Forall_cons; split; [evaluate |]. apply Forall_cons; split; [evaluate |].
  apply Forall_cons; split; [done | by apply Forall_nil].
Qed.

Lemma os_OpenFile_rdwr_new name p w :
  resolve name = Some p → p ≠ [] → tree w !! p = None →
  stat (tree w) (parent p) = Some Dir →
  os_OpenFile name [O_RDWR; O_CREATE] w
  = (Done (Ok p), set_tree (<[p := File []]> (tree w)) w).
Proof.
  intros Hp Hne Hnone Hparent.
  unfold os_OpenFile, get_tree, put_tree, mbind, M_bind, mret, M_ret.
  rewrite Hp. assert (Hstat : stat (tree w) p = None) by (destruct p; [done | exact Hnone]).
  rewrite Hstat, Hparent.
  by replace (bool_decide (O_CREATE ∈ [O_RDWR; O_CREATE])) with true by (by vm_compute).
Qed.

(** X27: creating a branch that does not exist yet, in a repository
    whose current head resolves, switches to it and keeps the commit:
    afterwards [getCurrentBranch] returns the new name and
    [getCurrentHead] the hash that was the head before. *)
Theorem createAndSwitchBranch_new branchName commitHash w :
  valid_name branchName →
  tree w !! branch_ref branchName = None →
  tree w !! [".gat"; "refs"; "heads"] = Some Dir →
  getCurrentHead w = (Done (Ok commitHash), w) →
  ∃ w', createAndSwitchBranch branchName w = (Done (Ok tt), w')
        ∧ getCurrentBranch w' = (Done (Ok branchName), w')
        ∧ getCurrentHead w' = (Done (Ok commitHash), w').
Proof.
  intros Hb Hnew Hheads Hhead. set (p := branch_ref branchName) in *.
  unfold createAndSwitchBranch. fold (ref_path branchName).
  set (t1 := <[p := File []]> (tree w)).
  step (os_OpenFile_rdwr_new (ref_path branchName) p w (resolve_ref_path _ Hb)
          ltac:(done) Hnew Hheads).
  assert (Hread : file_Read p 5 (set_tree t1 w) = (Done ([], Some io_EOF), set_tree t1 w)).
  { rewrite (file_Read_File p 5 []); [done |]. apply lookup_insert_eq. }
  step Hread. cbn [is_EOF negb].
  assert (Hhead1 : getCurrentHead (set_tree t1 w) = (Done (Ok commitHash), set_tree t1 w)).
  { apply getCurrentHead_Ok in Hhead as (_ & c & bc & Hc & Hbc & ->).
    apply getCurrentHead_Ok. split; [done |]. exists c, bc. rewrite tree_set_tree.
    split_and!; [| | done]; by apply file_at_insert_None. }
  step Hhead1. unfold file_WriteString.
  rewrite (bind_Done _ _ _ _ _ (file_Write_run _ _ _)).
  rewrite tree_set_tree.
  assert (Hstat1 : stat t1 p = Some (File [])) by apply lookup_insert_eq.
  rewrite Hstat1. simpl app.
  set (t2 := <[p := File (bytes_of_string commitHash)]> t1).
  set (w2 := set_tree t2 (set_tree t1 w)).
  assert (HHEAD : ∃ c, tree w !! HEAD_path = Some (File c)).
  { apply getCurrentHead_Ok in Hhead as (_ & c & _ & Hc%file_at_HEAD & _). eauto. }
  destruct HHEAD as [c Hc].
  assert (Hp : p ≠ HEAD_path) by (intros Heq; rewrite Heq in Hnew; congruence).
  destruct (switchHead_cases branchName w2) as [[_ Hswitch]|[Hnw _]].
  2: { exfalso. apply Hnw. unfold HEAD_writable, w2, t2, t1.
       change (stat ?t HEAD_path) with (t !! HEAD_path).
       rewrite tree_set_tree, !lookup_insert_ne by done. by rewrite Hc. }
  step Hswitch. rewrite bind_fmt_Printf. eexists. split; [reflexivity |].
  assert (Hnow : tree (set_HEAD branchName w2) !! HEAD_path
                 = Some (File (bytes_of_string ("refs/heads/" +:+ branchName))))
    by apply lookup_insert_eq.
  split.
  - by apply getCurrentBranch_run, file_at_HEAD.
  - apply getCurrentHead_Ok. split; [done |].
    exists (bytes_of_string ("refs/heads/" +:+ branchName)), (bytes_of_string commitHash).
    split_and!.
    + by apply file_at_HEAD.
    + apply file_at_Some. exists p. split; [by apply resolve_branch_ref |].
      change (tree (set_HEAD branchName w2) !! p = Some (File (bytes_of_string commitHash))).
      unfold set_HEAD. rewrite tree_set_tree, lookup_insert_ne by (by intros Heq; apply Hp).
      apply lookup_insert_eq.
    + by rewrite string_of_bytes_of_string.
Qed.

Lemma createAndSwitchBranch_new_witness :
  let w := one_commit_repository in
  (valid_name "dev"
   ∧ tree w !! branch_ref "dev" = None
   ∧ tree w !! [".gat"; "refs"; "heads"] = Some Dir
   ∧ getCurrentHead w = (Done (Ok first_hash), w))
  ∧ ∃ w', createAndSwitchBranch "dev" w = (Done (Ok tt), w')
          ∧ getCurrentBranch w' = (Done (Ok "dev"), w')
          ∧ getCurrentHead w' = (Done (Ok first_hash), w').
Proof.
  intros w.
  assert (Hb : valid_name "dev") by evaluate.
  assert (Hnew : tree w !! branch_ref "dev" = None) by evaluate.
  assert (Hheads : tree w !! [".gat"; "refs"; "heads"] = Some Dir) by evaluate.
  assert (Hhead : getCurrentHead w = (Done (Ok first_hash), w)) by evaluate.
  exact (conj (conj Hb (conj Hnew (conj Hheads Hhead)))
              (createAndSwitchBranch_new "dev" first_hash w Hb Hnew Hheads Hhead)).
Defined.

(** ** A directory that is not there *)

(** X28: a directory that is not there is fatal.  [switchDirToCommit]
    ends in [log.Fatal] with nothing changed; [createTree] ends in
    [log.Fatal] too, but after it made its temporary file, which stays
    behind, empty.  The path names nothing and leads through no regular
    file, the temporary file included. *)
Theorem missing_directory_is_fatal `{L : Library} path rows fuel w :
  names_nothing (tree w) path →
  temp_location (rand_calls w) ∉ below [] (strings_Split path "/") →
  tree w !! temp_location (rand_calls w) = None →
  stat (tree w) [".gat"; "temp"] = Some Dir →
  switchDirToCommit path rows w
  = (Crash (Fatal "%v" [] (Some (PathError "open" path ENOENT))), w)
  ∧ createTree (S fuel) path w
    = (Crash (Fatal "%v" [] (Some (PathError "open" path ENOENT))),
       World (<[temp_location (rand_calls w) := File []]> (tree w))
             (stdout w) (6 + rand_calls w) (clock w) (DEBUG w)).
Proof.
  intros Hmissing Hother Hfree Htemp. split.
  - unfold switchDirToCommit. by rewrite (bind_Done _ _ _ _ _ (os_Open_missing _ _ Hmissing)).
  - cbn [createTree]. step (randomString_eq 6 w).
    set (k := rand_calls w) in *. fold (temp_name k). set (w1 := World _ _ _ _ _).
    step (os_Create_temp_fresh k w1 Hfree Htemp).
    assert (Hmissing' : names_nothing
              (tree (set_tree (<[temp_location k := File []]> (tree w1)) w1)) path).
    { destruct Hmissing as (Hres & Hlen & Hnames & Hst & Hway). rewrite tree_set_tree.
      assert (Hlast : temp_location k ≠ strings_Split path "/").
      { intros Heq. apply Hother. rewrite <- Heq. unfold temp_location.
        cbn [below app]. set_solver. }
      split_and!; [done | done | done | |].
      - rewrite stat_insert by done. by rewrite decide_False.
      - apply Forall_forall. intros q Hq. rewrite lookup_insert_ne by congruence.
        by apply (proj1 (Forall_forall _ _) Hway). }
    by rewrite (bind_Done _ _ _ _ _ (os_Open_missing _ _ Hmissing')).
Qed.

Lemma missing_directory_is_fatal_witness :
  let L := Reference.library in
  let w := hello_repository in
  (names_nothing (tree w) "src"
   ∧ (temp_location (rand_calls w) ∉ below [] (strings_Split "src" "/"))
   ∧ tree w !! temp_location (rand_calls w) = None
   ∧ stat (tree w) [".gat"; "temp"] = Some Dir)
  ∧ switchDirToCommit "src" [] w
    = (Crash (Fatal "%v" [] (Some (PathError "open" "src" ENOENT))), w)
  ∧ createTree (S 2) "src" w
    = (Crash (Fatal "%v" [] (Some (PathError "open" "src" ENOENT))),
       World (<[temp_location (rand_calls w) := File []]> (tree w))
             (stdout w) (6 + rand_calls w) (clock w) (DEBUG w)).
Proof.
  intros L w.
  assert (Hmissing : names_nothing (tree w) "src") by evaluate.
  assert (Hother : temp_location (rand_calls w) ∉ below [] (strings_Split "src" "/"))
    by evaluate.
  assert (Hfree : tree w !! temp_location (rand_calls w) = None) by evaluate.
  assert (Htemp : stat (tree w) [".gat"; "temp"] = Some Dir) by evaluate.
  exact (conj (conj Hmissing (conj Hother (conj Hfree Htemp)))
              (missing_directory_is_fatal "src" [] 2 w Hmissing Hother Hfree Htemp)).
Defined.

(** ** A history with a missing commit *)

Lemma readCommit_missing `{L : Library} h w :
  2 ≤ String.length h →
  names_nothing (tree w) (object_path h) →
  readCommit h w
  = (Done (Err (PathError "open" (object_path h) ENOENT)),
     print_all [unable_to_read (PathError "open" (object_path h) ENOENT)] w).
Proof.
  intros Hlen Hmissing. unfold readCommit.
  step (getObjectPath_long h w Hlen). fold (object_path h).
  assert (Hread : readObjectFile (object_path h) w
                  = (Done (Err (PathError "open" (object_path h) ENOENT)),
                     print_all [unable_to_read (PathError "open" (object_path h) ENOENT)] w)).
  { unfold readObjectFile. step (os_Open_missing _ w Hmissing). by rewrite bind_fmt_Printf. }
  by step Hread.
Qed.

Lemma printLog_loop_broken `{L : Library} missing l : ∀ fuel h c w,
  chained ((h, c) :: l) missing →
  2 ≤ String.length missing →
  names_nothing (tree w) (object_path missing) →
  (∀ h' c', (h', c') ∈ (h, c) :: l → readCommit h' w = (Done (Ok c'), w)) →
  S (S (length l)) ≤ fuel →
  printLog_loop fuel h w
  = (Done (Err (PathError "open" (object_path missing) ENOENT)),
     print_all (flat_map (λ hc, log_entry hc.1 hc.2) ((h, c) :: l)
                ++ [unable_to_read (PathError "open" (object_path missing) ENOENT)]) w).
Proof.
  induction l as [|[h1 c1] l IH]; intros fuel h c w Hchain Hlen Hmissing Hread Hfuel;
    (destruct fuel as [|fuel]; [simpl in Hfuel; lia |]);
    cbn [printLog_loop];
    rewrite (try_Ok _ _ _ _ _ (Hread h c (list_elem_of_here _ _)));
    rewrite !bind_fmt_Printf.
  - simpl in Hchain. rewrite Hchain. rewrite bool_decide_eq_true_2 by lia.
    destruct fuel as [|fuel]; [simpl in Hfuel; lia |]. cbn [printLog_loop].
    match goal with
    | |- context [try_ (readCommit missing) _ ?w0] =>
        rewrite (try_Err _ _ _ _ _ (readCommit_missing missing w0 Hlen Hmissing))
    end.
    unfold print_all. simpl. by rewrite <- !app_assoc.
  - destruct Hchain as [Hparent Hchain]. rewrite Hparent.
    assert (Hh1 : readCommit h1 w = (Done (Ok c1), w)).
    { apply Hread. apply list_elem_of_further, list_elem_of_here. }
    assert (2 ≤ String.length h1) by (by apply readCommit_Ok in Hh1 as (_ & ? & _)).
    rewrite bool_decide_eq_true_2 by lia.
    rewrite (IH fuel h1 c1); [| done | done | done | | simpl in *; lia].
    + unfold print_all. simpl. by rewrite <- !app_assoc.
    + intros h' c' Hin. apply (readCommit_same_tree h' w); [| done].
      apply Hread. by apply list_elem_of_further.
Qed.

(** X29: when the history reaches a commit whose object is missing (its
    path names nothing, and leads through no regular file), [printLog]
    has printed every commit before it, newest first, and returns the
    error of opening the missing object, file not found, which
    [readObjectFile] has printed as well. *)
Theorem printLog_broken_history `{L : Library} fuel h c l missing w :
  getCurrentHead w = (Done (Ok h), w) →
  chained ((h, c) :: l) missing →
  2 ≤ String.length missing →
  names_nothing (tree w) (object_path missing) →
  (∀ h' c', (h', c') ∈ (h, c) :: l → readCommit h' w = (Done (Ok c'), w)) →
  S (S (length l)) ≤ fuel →
  printLog fuel w
  = (Done (Err (PathError "open" (object_path missing) ENOENT)),
     print_all (flat_map (λ hc, log_entry hc.1 hc.2) ((h, c) :: l)
                ++ [unable_to_read (PathError "open" (object_path missing) ENOENT)]) w).
Proof.
  intros Hhead Hchain Hlen Hmissing Hread Hfuel. unfold printLog. step Hhead.
  by apply printLog_loop_broken.
Qed.

Lemma printLog_broken_history_witness :
  let L := Reference.library in
  let w := broken_repository in
  let e := PathError "open" (object_path first_hash) ENOENT in
  (getCurrentHead w = (Done (Ok second_hash), w)
   ∧ chained [(second_hash, second_commit)] first_hash
   ∧ 2 ≤ String.length first_hash
   ∧ names_nothing (tree w) (object_path first_hash)
   ∧ (∀ h' c', (h', c') ∈ [(second_hash, second_commit)] →
               readCommit h' w = (Done (Ok c'), w))
   ∧ S (S (length ([] : list (string * Commit)))) ≤ 3)
  ∧ printLog 3 w
    = (Done (Err e),
       print_all (flat_map (λ hc, log_entry hc.1 hc.2) [(second_hash, second_commit)]
                  ++ [unable_to_read e]) w).
Proof.
  intros L w e.
  assert (Hhead : getCurrentHead w = (Done (Ok second_hash), w)) by evaluate.
  assert (Hchain : chained [(second_hash, second_commit)] first_hash) by reflexivity.
  assert (Hlen : 2 ≤ String.length first_hash) by evaluate.
  assert (Hmissing : names_nothing (tree w) (object_path first_hash)) by evaluate.
  assert (Hread : ∀ h' c', (h', c') ∈ [(second_hash, second_commit)] →
                           readCommit h' w = (Done (Ok c'), w)).
  { intros h' c' Hin. apply list_elem_of_singleton in Hin. injection Hin as -> ->.
    evaluate. }
  assert (Hfuel : S (S (length ([] : list (string * Commit)))) ≤ 3) by (simpl; lia).
  exact (conj (conj Hhead (conj Hchain (conj Hlen (conj Hmissing (conj Hread Hfuel)))))
              (printLog_broken_history 3 second_hash second_commit [] first_hash w
                 Hhead Hchain Hlen Hmissing Hread Hfuel)).
Defined.

(** ** Temporary files of a snapshot *)

Lemma createBlob_Ok_clean `{L : Library} path w h w' f b :
  resolve path = Some f → stat (tree w) f = Some (File b) →
  f ≠ temp_location (rand_calls w) →
  createBlob path w = (Done (Ok h), w') →
  tree w' !! temp_location (rand_calls w) = None ∧ DEBUG w' = DEBUG w.
Proof.
  intros Hres Hst Hfresh Hrun.
  destruct (createBlob_Ok _ _ _ _ _ _ Hres Hst Hfresh Hrun)
    as (_ & _ & tm & _ & _ & ->).
  split; [| done]. simpl. rewrite lookup_insert_ne by done. apply lookup_delete_eq.
Qed.

Lemma os_Remove_file name p c w :
  resolve name = Some p → p ≠ [] → tree w !! p = Some (File c) →
  os_Remove name w = (Done (Ok tt), set_tree (delete p (tree w)) w).
Proof.
  intros Hp Hne Hfile. unfold os_Remove, get_tree, put_tree, mbind, M_bind, mret, M_ret.
  rewrite Hp. destruct p as [|x p]; [done |]. by rewrite Hfile.
Qed.

Lemma written_elsewhere `{L : Library} (t : gmap location node) k data x :
  x ≠ temp_name k →
  match t !! temp_location k with
  | Some (File c) => <[temp_location k := File (c ++ data)]> t
  | _ => t
  end !! [".gat"; "temp"; x] = t !! [".gat"; "temp"; x].
Proof.
  intros Hx. destruct (t !! temp_location k) as [[c|]|]; try done.
  rewrite lookup_insert_ne; [done |]. unfold temp_location. congruence.
Qed.

(** One entry of the folder: the temporary files made for it are gone
    when its row is written, and the others are as they were. *)
Lemma createTree_entry_tidy `{L : Library} fuel folderPath D t0 t k n b wi wi1 :
  tidy fuel →
  resolve folderPath = Some D → ¬ [".gat"] `prefix_of` D →
  (D = [] → t !! [".gat"] = Some Dir) →
  same_work t0 t → same_work t0 (tree wi) →
  (∀ q, D `prefix_of` q → ¬ [".gat"] `prefix_of` q → is_Some (t0 !! q) →
        Forall valid_name q) →
  (∃ node, t !! (D ++ [n]) = Some node ∧ b = is_Dir node) →
  createTree_entry (createTree fuel) folderPath (temp_location k) (n, b) wi
  = (Done tt, wi1) →
  same_work t0 (tree wi1)
  ∧ ∃ m1,
      rand_calls wi1 = rand_calls wi + 6 * m1
      ∧ (NoDup (drawn (rand_calls wi) m1) → temp_name k ∉ drawn (rand_calls wi) m1 →
         DEBUG wi = false →
         DEBUG wi1 = false
         ∧ (∀ x, x ∈ drawn (rand_calls wi) m1 → tree wi1 !! [".gat"; "temp"; x] = None)
         ∧ (∀ x, x ∉ drawn (rand_calls wi) m1 → x ≠ temp_name k →
                 tree wi1 !! [".gat"; "temp"; x] = tree wi !! [".gat"; "temp"; x])).
Proof.
  intros IH HD Hwork Hgat Ht Hwi Hnames (node & Hnode & Hb) Hrun.
  unfold createTree_entry in Hrun. cbv zeta in Hrun.
  destruct (decide (b = true ∧ slices_Contains IGNORE_FOLDERS n = true)) as [[-> Hign]|Hlive].
  { rewrite Hign in Hrun. injection Hrun as <-. split; [done |]. exists 0.
    split; [lia |]. intros _ _ Hdebug. split; [done |]. split; [| done].
    by intros x ?%elem_of_nil. }
  assert (Hout : ¬ [".gat"] `prefix_of` (D ++ [n])).
  { apply outside_gat_child; [done |]. intros -> ->. simpl in Hnode.
    rewrite (Hgat eq_refl) in Hnode.
    injection Hnode as <-. simpl in Hb. subst b. apply Hlive. by split. }
  assert (Ht0 : t0 !! (D ++ [n]) = Some node) by (by rewrite <- (Ht _ Hout)).
  assert (Hvalid : valid_name n).
  { assert (Hall : Forall valid_name (D ++ [n])).
    { apply Hnames; [by apply prefix_app_r | done | by rewrite Ht0]. }
    apply Forall_app in Hall as [_ Hall]. by inversion Hall. }
  pose proof (resolve_child _ _ _ HD Hvalid) as Hchild.
  destruct b.
  - destruct (slices_Contains IGNORE_FOLDERS n) eqn:Hign; [by destruct Hlive |].
    apply bind_inv_Done in Hrun as ([hc|e] & wi' & Hsub & Hrun); [| discriminate].
    unfold file_WriteString in Hrun. step_in Hrun (file_Write_run (temp_location k)
      (bytes_of_string (tree_row "tree" hc n)) wi').
    injection Hrun as <-.
    destruct (createTree_any fuel (folderPath +:+ "/" +:+ n) wi)
      as (r & w'' & Hany & Hsame & _).
    rewrite Hsub in Hany. injection Hany as <- <-.
    assert (Hchild_names : ∀ q, D ++ [n] `prefix_of` q → ¬ [".gat"] `prefix_of` q →
              is_Some (t0 !! q) → Forall valid_name q).
    { intros q Hq. apply Hnames. etrans; [| exact Hq]. by apply prefix_app_r. }
    assert (Hchild_gat : D ++ [n] = [] →
              t0 !! [".gat"] = Some Dir ∧ tree wi !! [".gat"] = Some Dir)
      by (intros Hnil; by destruct D).
    destruct (createTree_Ok fuel _ _ t0 wi hc wi' Hchild Hout Hchild_gat Hwi Hchild_names Hsub)
      as (m1 & Hm1 & Hsnap).
    split.
    { rewrite tree_set_tree. eapply same_work_trans; [exact Hwi |].
      eapply same_work_trans; [exact Hsame |].
      apply (same_work_close (tree wi') (temp_location k)), temp_location_gat. }
    exists m1. split; [exact Hm1 |]. intros Hnd Hk Hdebug.
    destruct (IH _ _ t0 wi hc wi' m1 Hchild Hout Hchild_gat Hwi Hchild_names Hsub Hm1 Hnd
                Hdebug) as [Hdebug' Hclean].
    destruct (Hsnap Hnd) as [Hkept _].
    split; [done |]. rewrite tree_set_tree. split.
    + intros x Hx. rewrite written_elsewhere by (by intros ->). by apply Hclean.
    + intros x Hx Hxk. rewrite written_elsewhere by done. by apply Hkept.
  - destruct node as [c|]; [| done].
    apply bind_inv_Done in Hrun as ([hb|e] & wi' & Hsub & Hrun); [| discriminate].
    unfold file_WriteString in Hrun. step_in Hrun (file_Write_run (temp_location k)
      (bytes_of_string (tree_row "blob" hb n)) wi').
    injection Hrun as <-.
    destruct (createBlob_any (folderPath +:+ "/" +:+ n) wi)
      as (r & w'' & Hany & _ & Hsame & Hcount).
    rewrite Hsub in Hany. injection Hany as <- <-.
    destruct Hcount as [[e [=]]|Hcount].
    assert (Hfile : stat (tree wi) (D ++ [n]) = Some (File c)).
    { assert (Hq : tree wi !! (D ++ [n]) = Some (File c)) by (by rewrite (Hwi _ Hout)).
      by destruct D. }
    assert (Hfresh : D ++ [n] ≠ temp_location (rand_calls wi)).
    { intros Heq. apply Hout. rewrite Heq. apply temp_location_gat. }
    destruct (createBlob_Ok_frame _ wi hb wi' _ _ Hchild Hfile Hfresh Hsub)
      as (_ & _ & _ & Hkept).
    destruct (createBlob_Ok_clean _ wi hb wi' _ _ Hchild Hfile Hfresh Hsub)
      as [Hclean Hdebug'].
    split.
    { rewrite tree_set_tree. eapply same_work_trans; [exact Hwi |].
      eapply same_work_trans; [exact Hsame |].
      apply (same_work_close (tree wi') (temp_location k)), temp_location_gat. }
    exists 1. split; [change (rand_calls wi' = rand_calls wi + 6 * 1); lia |].
    rewrite drawn_S. change (drawn (6 + rand_calls wi) 0) with ([] : list string).
    intros _ Hk Hdebug. rewrite list_elem_of_singleton in Hk.
    split; [by rewrite <- Hdebug |]. rewrite tree_set_tree. split.
    + intros x ->%list_elem_of_singleton. rewrite written_elsewhere by (by intros Heq).
      exact Hclean.
    + intros x Hx%not_elem_of_cons Hxk. rewrite written_elsewhere by done.
      apply Hkept. by destruct Hx.
Qed.

Lemma createTree_loop_tidy `{L : Library} fuel folderPath D t0 t k :
  tidy fuel →
  resolve folderPath = Some D → ¬ [".gat"] `prefix_of` D →
  (D = [] → t !! [".gat"] = Some Dir) →
  same_work t0 t →
  (∀ q, D `prefix_of` q → ¬ [".gat"] `prefix_of` q → is_Some (t0 !! q) →
        Forall valid_name q) →
  ∀ files wi wj,
    (∀ n b, (n, b) ∈ files → ∃ node, t !! (D ++ [n]) = Some node ∧ b = is_Dir node) →
    same_work t0 (tree wi) →
    for_each files (createTree_entry (createTree fuel) folderPath (temp_location k)) wi
    = (Done tt, wj) →
    ∃ mj,
      rand_calls wj = rand_calls wi + 6 * mj
      ∧ (NoDup (drawn (rand_calls wi) mj) → temp_name k ∉ drawn (rand_calls wi) mj →
         DEBUG wi = false →
         DEBUG wj = false
         ∧ (∀ x, x ∈ drawn (rand_calls wi) mj → tree wj !! [".gat"; "temp"; x] = None)
         ∧ (∀ x, x ∉ drawn (rand_calls wi) mj → x ≠ temp_name k →
                 tree wj !! [".gat"; "temp"; x] = tree wi !! [".gat"; "temp"; x])).
Proof.
  intros IH HD Hwork Hgat Ht Hnames.
  induction files as [|[n b] files IHfiles]; intros wi wj Hfiles Hwi Hrun.
  { injection Hrun as <-. exists 0. split; [lia |]. intros _ _ Hdebug.
    split; [done |]. split; [| done]. by intros x ?%elem_of_nil. }
  cbn [for_each] in Hrun. apply bind_inv_Done in Hrun as ([] & wi1 & Hentry & Hrun).
  destruct (createTree_entry_tidy fuel folderPath D t0 t k n b wi wi1)
    as (Hwi1 & m1 & Hm1 & Hstep); try done.
  { apply Hfiles, list_elem_of_here. }
  destruct (IHfiles wi1 wj) as (mj & Hmj & Hrest); try done.
  { intros n' b' Hin. by apply Hfiles, list_elem_of_further. }
  exists (m1 + mj). split; [lia |]. rewrite drawn_app. rewrite <- Hm1.
  intros (Hnd1 & Hapart & Hnd2)%NoDup_app [Hk1 Hk2]%not_elem_of_app Hdebug.
  destruct (Hstep Hnd1 Hk1 Hdebug) as (Hdebug1 & Hclean1 & Hkept1).
  destruct (Hrest Hnd2 Hk2 Hdebug1) as (Hdebug2 & Hclean2 & Hkept2).
  split; [done |]. split.
  - intros x [Hx|Hx]%elem_of_app; [| by apply Hclean2].
    rewrite Hkept2; [by apply Hclean1 | by apply Hapart | by intros ->].
  - intros x [Hx1 Hx2]%not_elem_of_app Hxk. rewrite Hkept2 by done. by apply Hkept1.
Qed.

Lemma createTree_tidy `{L : Library} fuel : tidy fuel.
Proof.
  induction fuel as [|fuel IH];
    intros folderPath D t0 w h w' m HD Hwork Hgat Hsame Hnames Hrun Hm Hnd Hdebug;
    [discriminate |].
  cbn [createTree] in Hrun. step_in Hrun (randomString_eq 6 w).
  set (k := rand_calls w) in *. fold (temp_name k) in Hrun.
  set (w1 := World _ _ _ _ _) in Hrun.
  destruct (os_Create_temp k w1) as [[_ Hcreate]|[e Hcreate]]; step_in Hrun Hcreate;
    [| discriminate].
  set (t2 := <[temp_location k := File []]> (tree w)) in *.
  destruct (os_Open_cases folderPath (set_tree t2 w1)) as [(D' & HD' & _ & Hopen)|(e & Hopen)];
    step_in Hrun Hopen; [| discriminate].
  rewrite HD in HD'. injection HD' as <-.
  destruct (file_Readdir_cases D (set_tree t2 w1)) as [[_ Hdir]|[e Hdir]];
    step_in Hrun Hdir; [| discriminate].
  rewrite tree_set_tree in Hrun.
  apply bind_inv_Done in Hrun as ([] & wj & Hloop & Hrun).
  apply bind_inv_Done in Hrun as (c & w2 & Hblob & Hrun).
  assert (Hinside : ∀ n, D ++ [n] ≠ temp_location k).
  { intros n Heq. apply Hwork. exists (take 1 (drop 1 D)).
    destruct D as [|d1 [|d2 [|d3 D]]]; try discriminate; [by injection Heq as -> |].
    injection Heq as _ _ _ Heq. by destruct D. }
  assert (Hgat' : D = [] → tree w !! [".gat"] = Some Dir)
    by (intros HDnil; by destruct (Hgat HDnil)).
  assert (Hfiles : ∀ n b, (n, b) ∈ dir_entries t2 D →
            ∃ node, tree w !! (D ++ [n]) = Some node ∧ b = is_Dir node).
  { intros n b (node & Hnode & ->)%elem_of_dir_entries. exists node. split; [| done].
    rewrite <- Hnode. unfold t2. by rewrite lookup_insert_ne. }
  assert (Hsame2 : same_work t0 (tree (set_tree t2 w1))).
  { rewrite tree_set_tree. eapply same_work_trans; [exact Hsame |].
    apply same_work_insert, temp_location_gat. }
  destruct (createTree_loop_Ok fuel folderPath D t0 (tree w) k (createTree_Ok fuel)
              HD Hwork Hgat' Hsame Hnames (dir_entries t2 D) 0 (set_tree t2 w1) wj
              Hfiles Hsame2 ltac:(simpl; lia) Hloop) as (mj & Hmj & _ & Hrows).
  destruct (createTree_loop_tidy fuel folderPath D t0 (tree w) k IH
              HD Hwork Hgat' Hsame Hnames (dir_entries t2 D) (set_tree t2 w1) wj
              Hfiles Hsame2 Hloop) as (mj' & Hmj' & Htidy).
  assert (mj' = mj) as -> by lia. clear Hmj'.
  change (rand_calls (set_tree t2 w1)) with (6 + k) in *.
  destruct (createBlob_any (BASEDIR +:+ "/temp/" +:+ temp_name k) wj)
    as (r & w'' & Hany & _ & _ & Hcount).
  rewrite Hblob in Hany. injection Hany as <- <-.
  assert (Hc : ∃ h', c = Ok h').
  { destruct c as [h'|e]; [eauto |]. exfalso. revert Hrun.
    unfold mbind at 1, M_bind at 1, get_DEBUG at 1.
    destruct (os_Remove_temp_same_work k w2) as (rr & w3 & Hrm & _).
    destruct (DEBUG w2); cbn [negb]; [done |].
    by rewrite (bind_Done _ _ _ _ _ (bind_Done _ (λ _, mret tt) _ _ _ Hrm)). }
  destruct Hc as [h' ->]. destruct Hcount as [[e [=]]|Hcount].
  assert (Hrand' : rand_calls w' = rand_calls w2).
  { revert Hrun. unfold mbind at 1, M_bind at 1, get_DEBUG at 1.
    destruct (os_Remove_temp_same_work k w2) as (rr & w3 & Hrm & _ & Hr3).
    destruct (DEBUG w2); cbn [negb]; [by intros [= _ <-] |].
    rewrite (bind_Done _ _ _ _ _ (bind_Done _ (λ _, mret tt) _ _ _ Hrm)).
    by intros [= _ <-]. }
  assert (m = S mj + 1) as -> by lia.
  pose proof Hnd as (Hnd1 & Hnd2 & Hapart)%NoDup_drawn_split.
  pose proof Hnd1 as Hnd1'. rewrite drawn_S in Hnd1'.
  apply NoDup_cons in Hnd1' as [Hk Hndj].
  destruct (Hrows Hnd1 []) as (_ & text & _ & HT).
  { rewrite tree_set_tree. apply lookup_insert_eq. }
  simpl app in HT.
  destruct (Htidy Hndj Hk Hdebug) as (Hdebugj & Hcleanj & Hkeptj).
  assert (Hrandj : rand_calls wj = k + 6 * S mj) by lia.
  assert (Hk2 : temp_name k ≠ temp_name (rand_calls wj)).
  { intros Heq. apply (Hapart (temp_name k)); [apply temp_name_drawn |].
    rewrite Heq, Hrandj. apply temp_name_drawn. }
  assert (Hfresh : temp_location k ≠ temp_location (rand_calls wj))
    by (unfold temp_location; congruence).
  destruct (createBlob_Ok_frame _ wj h' w2 _ _ (resolve_temp k) HT Hfresh Hblob)
    as (_ & _ & _ & Hkept2).
  destruct (createBlob_Ok_clean _ wj h' w2 _ _ (resolve_temp k) HT Hfresh Hblob)
    as [Hclean2 Hdebug2].
  assert (HT2 : tree w2 !! temp_location k = Some (File (bytes_of_string text))).
  { unfold temp_location. by rewrite (Hkept2 _ Hk2). }
  assert (Hw' : w' = set_tree (delete (temp_location k) (tree w2)) w2).
  { revert Hrun. unfold mbind at 1, M_bind at 1, get_DEBUG at 1.
    rewrite Hdebug2, Hdebugj. cbn [negb].
    rewrite (bind_Done _ _ _ _ _ (bind_Done _ (λ _, mret tt) _ _ _
               (os_Remove_file _ _ _ _ (resolve_temp k) ltac:(done) HT2))).
    by intros [= _ <-]. }
  rewrite Hw'. split; [simpl; by rewrite Hdebug2 |].
  rewrite tree_set_tree, drawn_app, drawn_S. intros x Hx.
  destruct (decide (x = temp_name k)) as [->|Hxk]; [apply lookup_delete_eq |].
  rewrite lookup_delete_ne by (unfold temp_location; congruence).
  apply elem_of_app in Hx as [[Hx|Hx]%elem_of_cons|Hx]; [done | |].
  - rewrite Hkept2; [by apply Hcleanj |]. intros ->.
    apply (Hapart (temp_name (rand_calls wj))).
    + rewrite drawn_S. by apply list_elem_of_further.
    + rewrite Hrandj. apply temp_name_drawn.
  - rewrite drawn_S in Hx. apply elem_of_cons in Hx as [->|Hx%elem_of_nil]; [| done].
    rewrite <- Hrandj. exact Hclean2.
Qed.

(** X30: with [DEBUG] off, a successful [createTree] leaves none of
    the temporary files it made, for the directory and for everything
    below it, and every other file of [.gat/temp] as it was. *)
Theorem createTree_removes_temp_files `{L : Library} fuel folderPath D w h w' m :
  resolve folderPath = Some D →
  fits fuel (tree w) folderPath →
  tree w !! [".gat"] = Some Dir →
  DEBUG w = false →
  createTree fuel folderPath w = (Done (Ok h), w') →
  rand_calls w' = rand_calls w + 6 * m →
  NoDup (drawn (rand_calls w) m) →
  ∀ x, tree w' !! [".gat"; "temp"; x]
       = if decide (x ∈ drawn (rand_calls w) m) then None
         else tree w !! [".gat"; "temp"; x].
Proof.
  intros HD (D' & HD' & Hwork & _ & Hbelow) Hgat Hdebug Hrun Hm Hnd x.
  rewrite HD in HD'. injection HD' as <-.
  assert (Hnames : ∀ q, D `prefix_of` q → ¬ [".gat"] `prefix_of` q →
            is_Some (tree w !! q) → Forall valid_name q).
  { intros q Hpre Hq Hsome. by apply Hbelow. }
  case_decide as Hx.
  - by apply (createTree_tidy fuel folderPath D (tree w) w h w' m).
  - destruct (createTree_Ok fuel folderPath D (tree w) w h w' HD Hwork)
      as (m' & Hm' & Hspec); try done.
    assert (m' = m) as -> by lia.
    destruct (Hspec Hnd) as [Hkept _]. by apply Hkept.
Qed.

Lemma createTree_removes_temp_files_witness :
  let L := Reference.library in
  let w := cluttered_repository in
  let h := "29663fd02d6a43d4316e47d835724bdc39764fe0" in
  let w' := Reference.after (createTree 3 ".") w in
  (resolve "." = Some []
   ∧ fits 3 (tree w) "."
   ∧ tree w !! [".gat"] = Some Dir
   ∧ DEBUG w = false
   ∧ createTree 3 "." w = (Done (Ok h), w')
   ∧ rand_calls w' = rand_calls w + 6 * 7
   ∧ NoDup (drawn (rand_calls w) 7))
  ∧ ∀ x, tree w' !! [".gat"; "temp"; x]
         = if decide (x ∈ drawn (rand_calls w) 7) then None
           else tree w !! [".gat"; "temp"; x].
Proof.
  intros L w h w'.
  assert (Hres : resolve "." = Some []) by evaluate.
  assert (Hgat : tree w !! [".gat"] = Some Dir) by evaluate.
  assert (Hfits : fits 3 (tree w) ".").
  { exists []. split; [exact Hres |]. split; [refute |]. split; [lia |].
    assert (Hall : map_Forall (λ q _, ¬ [".gat"] `prefix_of` q →
                     Forall valid_name q ∧ length q < length ([] : location) + 3) (tree w))
      by evaluate.
    intros q _ Hq [node Hnode]. exact (Hall q node Hnode Hq). }
  assert (Hdebug : DEBUG w = false) by evaluate.
  assert (Hrun : createTree 3 "." w = (Done (Ok h), w')) by evaluate.
  assert (Hm : rand_calls w' = rand_calls w + 6 * 7) by evaluate.
  assert (Hnd : NoDup (drawn (rand_calls w) 7)) by evaluate.
  exact (conj (conj Hres (conj Hfits (conj Hgat (conj Hdebug (conj Hrun (conj Hm Hnd))))))
              (createTree_removes_temp_files 3 "." [] w h w' 7
                 Hres Hfits Hgat Hdebug Hrun Hm Hnd)).
Defined.

(** * The snapshot of a directory (C5) *)

(** ** A repository that is kept well *)
















(** ** The snapshot *)


